(** * Targetly MCP SSE adapter (adapters/targetly-adapter.js)

    A shallow embedding of the Node.js adapter that bridges a stdio MCP
    server (a child process speaking newline-delimited JSON-RPC) to HTTP
    clients over Server-Sent Events, and the properties of its message
    bridge: line framing of the child's stdout, broadcast to the session
    registry, the POST path to the child's stdin, and the exit handler.

    JavaScript strings are sequences of UTF-16 code units; they are modelled
    as lists of code units (N).  The chunks of the child's stdout are
    Buffers, lists of bytes, which the handler decodes one by one.  The
    handlers are state transformers on a record that holds what the script
    keeps in module-level variables (buffer, sessions) together with the
    objects it writes to (the response streams, the child's stdin, the
    console). *)

From Stdlib Require Import List Arith NArith Bool String Ascii Lia Permutation.
Import ListNotations.

Local Open Scope N_scope.
Local Open Scope list_scope.

(** ** JavaScript strings *)

Module JS.

Definition jsstring := list N.

(** A string literal of the source. *)
Definition lit (s : string) : jsstring :=
  map N_of_ascii (list_ascii_of_string s).

Arguments lit : simpl never.

Definition NL : N := 10.

Fixpoint str_eqb (a b : jsstring) : bool :=
  match a, b with
  | [], [] => true
  | x :: a', y :: b' => (x =? y) && str_eqb a' b'
  | _, _ => false
  end.

(** [s.split("\n")]: the segments between the separators; never empty
    (the empty string splits into one empty segment). *)
Fixpoint split (sep : N) (s : jsstring) : list jsstring :=
  match s with
  | [] => [[]]
  | c :: r =>
      if c =? sep then [] :: split sep r
      else match split sep r with
           | [] => [[c]]
           | x :: xs => (c :: x) :: xs
           end
  end.

(** ECMAScript WhiteSpace and LineTerminator code points, the ones
    [String.prototype.trim] strips. *)
Definition is_ws (c : N) : bool :=
  (c =? 9) || (c =? 10) || (c =? 11) || (c =? 12) || (c =? 13) || (c =? 32)
  || (c =? 160) || (c =? 5760)
  || ((8192 <=? c) && (c <=? 8202))
  || (c =? 8232) || (c =? 8233) || (c =? 8239) || (c =? 8287)
  || (c =? 12288) || (c =? 65279).

Fixpoint trim_start (s : jsstring) : jsstring :=
  match s with
  | [] => []
  | c :: r => if is_ws c then trim_start r else s
  end.

Definition trim_end (s : jsstring) : jsstring := rev (trim_start (rev s)).

(** [s.trim()] *)
Definition trim (s : jsstring) : jsstring := trim_end (trim_start s).

(** Truthiness of a string value: only the empty string is falsy. *)
Definition truthy (s : jsstring) : bool :=
  match s with [] => false | _ => true end.

(** [lines.pop()] on the result of split: the last element and the rest. *)
Definition pop (l : list jsstring) : jsstring * list jsstring :=
  (last l [], removelast l).

End JS.

Import JS.

(** ** [Buffer.prototype.toString]: UTF-8 decoding of one chunk

    A chunk of the child's stdout is a Buffer, a list of bytes.  Its
    [toString()] decodes the bytes as UTF-8 on their own: an ill-formed or
    truncated sequence gives U+FFFD, one per maximal ill-formed part, and
    a code point above U+FFFF gives a surrogate pair. *)

Module Utf8.

(** The decoder between two bytes: idle, or inside a character with the
    bits read so far, the number of bytes still to come and the range the
    next byte must be in. *)
Inductive Decoder : Type :=
| Idle
| Pending (code_point : N) (remaining : nat) (lower upper : N).

Definition REPLACEMENT : N := 65533.

Definition encode_utf16 (cp : N) : jsstring :=
  if cp <? 65536 then [cp]
  else [55296 + (cp - 65536) / 1024; 56320 + (cp - 65536) mod 1024].

(** A byte that starts a character. *)
Definition decode_first (b : N) : jsstring * Decoder :=
  if b <=? 127 then ([b], Idle)
  else if (194 <=? b) && (b <=? 223) then ([], Pending (b - 192) 1 128 191)
  else if (224 <=? b) && (b <=? 239) then
    ([], Pending (b - 224) 2 (if b =? 224 then 160 else 128)
                            (if b =? 237 then 159 else 191))
  else if (240 <=? b) && (b <=? 244) then
    ([], Pending (b - 240) 3 (if b =? 240 then 144 else 128)
                            (if b =? 244 then 143 else 191))
  else ([REPLACEMENT], Idle).

Definition decode_byte (d : Decoder) (b : N) : jsstring * Decoder :=
  match d with
  | Idle => decode_first b
  | Pending cp remaining lower upper =>
      if (lower <=? b) && (b <=? upper) then
        match remaining with
        | S (S n) => ([], Pending (cp * 64 + (b - 128)) (S n) 128 191)
        | _ => (encode_utf16 (cp * 64 + (b - 128)), Idle)
        end
      else
        let (out, d') := decode_first b in (REPLACEMENT :: out, d')
  end.

Fixpoint decode_from (d : Decoder) (bytes : list N) : jsstring * Decoder :=
  match bytes with
  | [] => ([], d)
  | b :: rest =>
      let (out, d') := decode_byte d b in
      let (more, final) := decode_from d' rest in
      (out ++ more, final)
  end.

(** At the end of the chunk an unfinished character is replaced. *)
Definition flush (d : Decoder) : jsstring :=
  match d with
  | Idle => []
  | Pending _ _ _ _ => [REPLACEMENT]
  end.

(** [chunk.toString()] *)
Definition toString (chunk : list N) : jsstring :=
  let (out, d) := decode_from Idle chunk in out ++ flush d.

(** The chunk ends between two characters. *)
Definition ends_on_boundary (chunk : list N) : bool :=
  match snd (decode_from Idle chunk) with
  | Idle => true
  | Pending _ _ _ _ => false
  end.

End Utf8.

Import Utf8.

(** ** JSON values, [JSON.stringify] and [JSON.parse] *)

Module Json.

(** The characters of a rendered number ([Number::toString] of a finite
    number, and the number tokens of JSON text). *)
Inductive numchar : Type :=
| Digit (d : N)          (* the digit d mod 10 *)
| NMinus | NPlus | NDot | NExp.

Definition numchar_code (c : numchar) : N :=
  match c with
  | Digit d => 48 + d mod 10
  | NMinus => 45
  | NPlus => 43
  | NDot => 46
  | NExp => 101
  end.

#[local] Set Warnings "-register-all".

(** A value as [JSON.parse] produces it.  A number is represented by its
    decimal rendering; an object by its properties in enumeration order. *)
Inductive JSValue : Type :=
| JNull
| JBool (b : bool)
| JNumber (repr : list numchar)
| JString (s : jsstring)
| JArray (elems : list JSValue)
| JObject (props : list (jsstring * JSValue)).

(** Induction on values, through the elements of arrays and the property
    values of objects. *)
Section Induction.

Variable P : JSValue -> Prop.
Hypothesis Hnull : P JNull.
Hypothesis Hbool : forall b, P (JBool b).
Hypothesis Hnumber : forall r, P (JNumber r).
Hypothesis Hstring : forall s, P (JString s).
Hypothesis Harray : forall l, Forall P l -> P (JArray l).
Hypothesis Hobject : forall kvs, Forall (fun kv => P (snd kv)) kvs -> P (JObject kvs).

Fixpoint JSValue_nested_ind (v : JSValue) : P v :=
  match v with
  | JNull => Hnull
  | JBool b => Hbool b
  | JNumber r => Hnumber r
  | JString s => Hstring s
  | JArray l =>
      Harray l
        ((fix elems (l : list JSValue) : Forall P l :=
            match l with
            | [] => Forall_nil P
            | x :: r => Forall_cons x (JSValue_nested_ind x) (elems r)
            end) l)
  | JObject kvs =>
      Hobject kvs
        ((fix props (l : list (jsstring * JSValue))
            : Forall (fun kv => P (snd kv)) l :=
            match l with
            | [] => Forall_nil _
            | kv :: r =>
                Forall_cons (P := fun kv => P (snd kv)) kv
                  (JSValue_nested_ind (snd kv)) (props r)
            end) kvs)
  end.

End Induction.

(** [typeof v === "object"] (true of null, arrays and objects). *)
Definition typeof_object (v : JSValue) : bool :=
  match v with
  | JNull | JArray _ | JObject _ => true
  | _ => false
  end.

Definition hex_digit (n : N) : N :=
  if n <? 10 then 48 + n else 87 + n.

(** The escape [\uXXXX] with lower-case hexadecimal digits. *)
Definition unicode_escape (c : N) : jsstring :=
  [92; 117; hex_digit ((c / 4096) mod 16); hex_digit ((c / 256) mod 16);
   hex_digit ((c / 16) mod 16); hex_digit (c mod 16)].

Definition is_high_surrogate (c : N) : bool := (55296 <=? c) && (c <=? 56319).
Definition is_low_surrogate (c : N) : bool := (56320 <=? c) && (c <=? 57343).

(** One code unit that is not part of a surrogate pair, as QuoteJSONString
    writes it. *)
Definition quote_unit (c : N) : jsstring :=
  if c =? 8 then [92; 98]
  else if c =? 9 then [92; 116]
  else if c =? 10 then [92; 110]
  else if c =? 12 then [92; 102]
  else if c =? 13 then [92; 114]
  else if c =? 34 then [92; 34]
  else if c =? 92 then [92; 92]
  else if (c <? 32) || is_high_surrogate c || is_low_surrogate c
       then unicode_escape c
  else [c].

Fixpoint quote_body (s : jsstring) : jsstring :=
  match s with
  | [] => []
  | c :: r =>
      if is_high_surrogate c then
        match r with
        | d :: r' =>
            if is_low_surrogate d then c :: d :: quote_body r'
            else quote_unit c ++ quote_body r
        | [] => quote_unit c
        end
      else quote_unit c ++ quote_body r
  end.

(** QuoteJSONString *)
Definition quote (s : jsstring) : jsstring := 34 :: quote_body s ++ [34].

Fixpoint join (sep : jsstring) (l : list jsstring) : jsstring :=
  match l with
  | [] => []
  | [x] => x
  | x :: r => x ++ sep ++ join sep r
  end.

(** [JSON.stringify(v)] without indentation. *)
Fixpoint stringify (v : JSValue) : jsstring :=
  match v with
  | JNull => lit "null"
  | JBool true => lit "true"
  | JBool false => lit "false"
  | JNumber r => map numchar_code r
  | JString s => quote s
  | JArray l => 91 :: join [44] (map stringify l) ++ [93]
  | JObject kvs =>
      123 :: join [44] (map (fun kv => quote (fst kv) ++ 58 :: stringify (snd kv)) kvs)
          ++ [125]
  end.

(** ToString of a value that is not an object, as string concatenation
    applies it; an object would go through its own [toString], which the
    adapter never reaches (it stringifies objects first). *)
Definition to_string (v : JSValue) : jsstring :=
  match v with
  | JString s => s
  | JNumber r => map numchar_code r
  | JBool true => lit "true"
  | JBool false => lit "false"
  | JNull => lit "null"
  | JArray _ | JObject _ => stringify v
  end.

(** *** A reference [JSON.parse]

    The adapter's handlers are parametric in the parser (see the section
    below); this recursive-descent parser of the JSON grammar instantiates
    them on concrete lines.  It accepts the texts of the JSON grammar.  The
    value it returns differs from the runtime's in two respects: a number
    token is kept as written, where the runtime converts it to a double
    (and prints [1.0] back as [1]), and the properties of an object stay in
    the order of their first occurrence, a later duplicate replacing the
    value, where the runtime enumerates integer-like keys first.  It is
    used on sample inputs only, on which the two agree. *)

Definition is_json_ws (c : N) : bool :=
  (c =? 9) || (c =? 10) || (c =? 13) || (c =? 32).

Fixpoint skip_ws (s : jsstring) : jsstring :=
  match s with
  | c :: r => if is_json_ws c then skip_ws r else s
  | [] => []
  end.

Fixpoint expect (p s : jsstring) : option jsstring :=
  match p with
  | [] => Some s
  | c :: p' =>
      match s with
      | d :: s' => if c =? d then expect p' s' else None
      | [] => None
      end
  end.

Definition hex_value (c : N) : option N :=
  if (48 <=? c) && (c <=? 57) then Some (c - 48)
  else if (97 <=? c) && (c <=? 102) then Some (c - 87)
  else if (65 <=? c) && (c <=? 70) then Some (c - 55)
  else None.

Definition simple_escape (e : N) : option N :=
  if e =? 34 then Some 34
  else if e =? 92 then Some 92
  else if e =? 47 then Some 47
  else if e =? 98 then Some 8
  else if e =? 102 then Some 12
  else if e =? 110 then Some 10
  else if e =? 114 then Some 13
  else if e =? 116 then Some 9
  else None.

(** The characters of a string after its opening quote, up to and
    including the closing quote. *)
Fixpoint parse_chars (s : jsstring) : option (jsstring * jsstring) :=
  match s with
  | [] => None
  | c :: r =>
      if c =? 34 then Some ([], r)
      else if c =? 92 then
        match r with
        | e :: r' =>
            if e =? 117 then
              match r' with
              | h1 :: h2 :: h3 :: h4 :: r'' =>
                  match hex_value h1, hex_value h2, hex_value h3, hex_value h4 with
                  | Some a, Some b, Some c', Some d =>
                      match parse_chars r'' with
                      | Some (t, rest) =>
                          Some (a * 4096 + b * 256 + c' * 16 + d :: t, rest)
                      | None => None
                      end
                  | _, _, _, _ => None
                  end
              | _ => None
              end
            else
              match simple_escape e with
              | Some x =>
                  match parse_chars r' with
                  | Some (t, rest) => Some (x :: t, rest)
                  | None => None
                  end
              | None => None
              end
        | [] => None
        end
      else if c <? 32 then None
      else
        match parse_chars r with
        | Some (t, rest) => Some (c :: t, rest)
        | None => None
        end
  end.

Definition is_digit (c : N) : bool := (48 <=? c) && (c <=? 57).

Fixpoint take_digits (s : jsstring) : list numchar * jsstring :=
  match s with
  | c :: r =>
      if is_digit c then
        let (ds, rest) := take_digits r in (Digit (c - 48) :: ds, rest)
      else ([], s)
  | [] => ([], [])
  end.

(** The integer part: [0] or a non-zero digit followed by digits. *)
Definition parse_int (s : jsstring) : option (list numchar * jsstring) :=
  match s with
  | c :: r =>
      if c =? 48 then Some ([Digit 0], r)
      else if is_digit c then Some (take_digits s)
      else None
  | [] => None
  end.

Definition parse_frac (s : jsstring) : option (list numchar * jsstring) :=
  match s with
  | c :: r =>
      if c =? 46 then
        match take_digits r with
        | ([], _) => None
        | (ds, rest) => Some (NDot :: ds, rest)
        end
      else Some ([], s)
  | [] => Some ([], [])
  end.

Definition parse_exp (s : jsstring) : option (list numchar * jsstring) :=
  match s with
  | c :: r =>
      if (c =? 101) || (c =? 69) then
        let (sign, r1) :=
          match r with
          | x :: r' =>
              if x =? 43 then ([NPlus], r')
              else if x =? 45 then ([NMinus], r')
              else ([], r)
          | [] => ([], r)
          end in
        match take_digits r1 with
        | ([], _) => None
        | (ds, rest) => Some (NExp :: sign ++ ds, rest)
        end
      else Some ([], s)
  | [] => Some ([], [])
  end.

Definition parse_number (s : jsstring) : option (list numchar * jsstring) :=
  let (sign, s1) :=
    match s with
    | c :: r => if c =? 45 then ([NMinus], r) else ([], s)
    | [] => ([], s)
    end in
  match parse_int s1 with
  | Some (i, s2) =>
      match parse_frac s2 with
      | Some (f, s3) =>
          match parse_exp s3 with
          | Some (e, s4) => Some (sign ++ i ++ f ++ e, s4)
          | None => None
          end
      | None => None
      end
  | None => None
  end.

(** Defining a property on an object: a present key keeps its place. *)
Fixpoint obj_set (k : jsstring) (v : JSValue) (o : list (jsstring * JSValue))
  : list (jsstring * JSValue) :=
  match o with
  | [] => [(k, v)]
  | (k', v') :: r =>
      if str_eqb k k' then (k, v) :: r else (k', v') :: obj_set k v r
  end.

Fixpoint parse_value (fuel : nat) (s : jsstring) : option (JSValue * jsstring) :=
  match fuel with
  | O => None
  | S f =>
      match skip_ws s with
      | [] => None
      | c :: r =>
          if c =? 123 then
            match skip_ws r with
            | d :: r' =>
                if d =? 125 then Some (JObject [], r')
                else parse_members f [] (d :: r')
            | [] => None
            end
          else if c =? 91 then
            match skip_ws r with
            | d :: r' =>
                if d =? 93 then Some (JArray [], r')
                else parse_elements f [] (d :: r')
            | [] => None
            end
          else if c =? 34 then
            match parse_chars r with
            | Some (t, rest) => Some (JString t, rest)
            | None => None
            end
          else if c =? 110 then
            match expect (lit "null") (c :: r) with
            | Some rest => Some (JNull, rest)
            | None => None
            end
          else if c =? 116 then
            match expect (lit "true") (c :: r) with
            | Some rest => Some (JBool true, rest)
            | None => None
            end
          else if c =? 102 then
            match expect (lit "false") (c :: r) with
            | Some rest => Some (JBool false, rest)
            | None => None
            end
          else
            match parse_number (c :: r) with
            | Some (n, rest) => Some (JNumber n, rest)
            | None => None
            end
      end
  end

with parse_elements (fuel : nat) (acc : list JSValue) (s : jsstring)
  : option (JSValue * jsstring) :=
  match fuel with
  | O => None
  | S f =>
      match parse_value f s with
      | Some (v, rest) =>
          match skip_ws rest with
          | c :: r =>
              if c =? 44 then parse_elements f (acc ++ [v]) r
              else if c =? 93 then Some (JArray (acc ++ [v]), r)
              else None
          | [] => None
          end
      | None => None
      end
  end

with parse_members (fuel : nat) (acc : list (jsstring * JSValue)) (s : jsstring)
  : option (JSValue * jsstring) :=
  match fuel with
  | O => None
  | S f =>
      match skip_ws s with
      | q :: r =>
          if q =? 34 then
            match parse_chars r with
            | Some (k, rest) =>
                match skip_ws rest with
                | c :: r1 =>
                    if c =? 58 then
                      match parse_value f r1 with
                      | Some (v, rest') =>
                          match skip_ws rest' with
                          | c' :: r2 =>
                              if c' =? 44 then parse_members f (obj_set k v acc) r2
                              else if c' =? 125
                                   then Some (JObject (obj_set k v acc), r2)
                              else None
                          | [] => None
                          end
                      | None => None
                      end
                    else None
                | [] => None
                end
            | None => None
            end
          else None
      | [] => None
      end
  end.

(** [JSON.parse(text)]: [None] stands for the SyntaxError it throws. *)
Definition parse (text : jsstring) : option JSValue :=
  match parse_value (2 * List.length text + 2) text with
  | Some (v, rest) =>
      match skip_ws rest with
      | [] => Some v
      | _ => None
      end
  | None => None
  end.

End Json.

Import Json.

(** ** The adapter's state *)

Module Adapter.

(** The connection behind a response stream: open, or destroyed (the
    client went away or the socket failed).  [res.write] on a destroyed
    response returns without throwing and nothing is delivered. *)
Inductive Mode : Type := Writable | Destroyed.

(** An SSE response object: the headers set on it and the chunks that
    [res.write] has put on the connection, in order. *)
Record Response : Type := mkResponse {
  res_mode : Mode;
  res_headers : list (jsstring * jsstring);
  res_written : list jsstring
}.

(** The module-level variables of the script ([buffer], [sessions]) and
    the objects its handlers act on.  [sessions] is a JavaScript [Map]:
    keys are unique and iteration follows insertion order; its values are
    response objects, held by reference (an index into [heap]). *)
Record State : Type := mkState {
  buffer : jsstring;
  sessions : list (jsstring * nat);
  heap : list Response;
  intervals : list nat;
  child_stdin : list jsstring;
  console_log : list jsstring;
  console_error : list jsstring
}.

Definition initial : State :=
  mkState [] [] [] [] [] [] [].

Definition set_buffer (b : jsstring) (st : State) : State :=
  mkState b (sessions st) (heap st) (intervals st) (child_stdin st)
          (console_log st) (console_error st).

Definition set_sessions (m : list (jsstring * nat)) (st : State) : State :=
  mkState (buffer st) m (heap st) (intervals st) (child_stdin st)
          (console_log st) (console_error st).

Definition set_heap (hp : list Response) (st : State) : State :=
  mkState (buffer st) (sessions st) hp (intervals st) (child_stdin st)
          (console_log st) (console_error st).

Definition set_intervals (l : list nat) (st : State) : State :=
  mkState (buffer st) (sessions st) (heap st) l (child_stdin st)
          (console_log st) (console_error st).

(** [child.stdin.write(data)] *)
Definition stdin_write (data : jsstring) (st : State) : State :=
  mkState (buffer st) (sessions st) (heap st) (intervals st)
          (child_stdin st ++ [data]) (console_log st) (console_error st).

(** [console.log(msg)] *)
Definition log (msg : jsstring) (st : State) : State :=
  mkState (buffer st) (sessions st) (heap st) (intervals st) (child_stdin st)
          (console_log st ++ [msg]) (console_error st).

(** [console.error(msg)] *)
Definition log_error (msg : jsstring) (st : State) : State :=
  mkState (buffer st) (sessions st) (heap st) (intervals st) (child_stdin st)
          (console_log st) (console_error st ++ [msg]).

(** *** The [Map] operations the script uses *)

Fixpoint map_get (k : jsstring) (m : list (jsstring * nat)) : option nat :=
  match m with
  | [] => None
  | (k', v) :: r => if str_eqb k k' then Some v else map_get k r
  end.

Definition map_has (k : jsstring) (m : list (jsstring * nat)) : bool :=
  match map_get k m with Some _ => true | None => false end.

(** [m.set(k, v)]: a present key keeps its position. *)
Fixpoint map_set (k : jsstring) (v : nat) (m : list (jsstring * nat))
  : list (jsstring * nat) :=
  match m with
  | [] => [(k, v)]
  | (k', v') :: r =>
      if str_eqb k k' then (k, v) :: r else (k', v') :: map_set k v r
  end.

(** [m.delete(k)] *)
Fixpoint map_delete (k : jsstring) (m : list (jsstring * nat))
  : list (jsstring * nat) :=
  match m with
  | [] => []
  | (k', v') :: r =>
      if str_eqb k k' then map_delete k r else (k', v') :: map_delete k r
  end.

(** *** Response streams *)

Fixpoint update_nth {A} (n : nat) (f : A -> A) (l : list A) : list A :=
  match l, n with
  | [], _ => []
  | x :: r, O => f x :: r
  | x :: r, S n' => x :: update_nth n' f r
  end.

Definition append_written (data : jsstring) (r : Response) : Response :=
  mkResponse (res_mode r) (res_headers r) (res_written r ++ [data]).

Definition set_header (name value : jsstring) (r : Response) : Response :=
  mkResponse (res_mode r) (res_headers r ++ [(name, value)]) (res_written r).

(** What has been written on the response with handle [h]. *)
Definition written (st : State) (h : nat) : list jsstring :=
  match nth_error (heap st) h with
  | Some r => res_written r
  | None => []
  end.

(** The result of running statements that may throw. *)
Inductive Outcome : Type :=
| Returned (st : State)
| Thrown (st : State).

Definition bind (o : Outcome) (k : State -> Outcome) : Outcome :=
  match o with
  | Returned st => k st
  | Thrown st => Thrown st
  end.

Notation "o >>= k" := (bind o k) (at level 50, left associativity).

Definition state_of (o : Outcome) : State :=
  match o with
  | Returned st => st
  | Thrown st => st
  end.

(** The state after [data] went onto the response with handle [h]. *)
Definition appended (h : nat) (data : jsstring) (st : State) : State :=
  set_heap (update_nth h (append_written data) (heap st)) st.

(** [res.write(data)] on the response with handle [h]; a handle that
    names no object stands for a call on undefined, which throws (this
    never happens in a well-formed registry). *)
Definition res_write (h : nat) (data : jsstring) (st : State) : Outcome :=
  match nth_error (heap st) h with
  | Some r =>
      match res_mode r with
      | Writable => Returned (appended h data st)
      | Destroyed => Returned st
      end
  | None => Thrown st
  end.

(** The two writes that make one SSE event. *)
Definition sse_event (name data : jsstring) : list jsstring :=
  [lit "event: " ++ name ++ [NL]; lit "data: " ++ data ++ [NL; NL]].

(** *** Requests *)

(** The value of [req.query.session_id]: absent, a string, or an array or
    object (repeated or bracketed parameters), given by its string
    conversion. *)
Inductive QueryVal : Type :=
| QUndefined
| QString (s : jsstring)
| QOther (rendering : jsstring).

Definition query_to_string (q : QueryVal) : jsstring :=
  match q with
  | QUndefined => lit "undefined"
  | QString s => s
  | QOther r => r
  end.

(** [!sessionId] *)
Definition query_falsy (q : QueryVal) : bool :=
  match q with
  | QUndefined => true
  | QString s => negb (truthy s)
  | QOther _ => false
  end.

(** [sessions.has(sessionId)]: keys are strings, so only a string can be
    found. *)
Definition sessions_has (q : QueryVal) (m : list (jsstring * nat)) : bool :=
  match q with
  | QString s => map_has s m
  | _ => false
  end.

Record HttpResponse : Type := mkHttpResponse {
  status : N;
  sent : jsstring
}.

(** The decimal digits of a number, for template literals. *)
Fixpoint uint_digits (u : Decimal.uint) : jsstring :=
  match u with
  | Decimal.Nil => []
  | Decimal.D0 r => 48 :: uint_digits r
  | Decimal.D1 r => 49 :: uint_digits r
  | Decimal.D2 r => 50 :: uint_digits r
  | Decimal.D3 r => 51 :: uint_digits r
  | Decimal.D4 r => 52 :: uint_digits r
  | Decimal.D5 r => 53 :: uint_digits r
  | Decimal.D6 r => 54 :: uint_digits r
  | Decimal.D7 r => 55 :: uint_digits r
  | Decimal.D8 r => 56 :: uint_digits r
  | Decimal.D9 r => 57 :: uint_digits r
  end.

Definition number_to_string (n : N) : jsstring := uint_digits (N.to_uint n).

(** *** The handlers *)

Section Handlers.

(** [DEBUG], read from the environment at start-up, and the [JSON.parse]
    of the runtime ([None] when it throws). *)
Variable DEBUG : bool.
Variable JSON_parse : jsstring -> option JSValue.

Definition debug_log (msg : jsstring) (st : State) : State :=
  if DEBUG then log msg st else st.

(** The loop [for (const [sessionId, res] of sessions)] over the entries
    of the map; a throwing write leaves the loop. *)
Fixpoint dispatch (line : jsstring) (entries : list (jsstring * nat)) (st : State)
  : Outcome :=
  match entries with
  | [] => Returned st
  | (sessionId, res) :: rest =>
      res_write res (lit "event: message" ++ [NL]) st >>= fun st1 =>
      res_write res (lit "data: " ++ line ++ [NL; NL]) st1 >>= fun st2 =>
      dispatch line rest
        (debug_log (lit "Targetly Adapter: Dispatched to session " ++ sessionId) st2)
  end.

Definition invalid_json_message (line : jsstring) : jsstring :=
  lit "Targetly Adapter: Invalid JSON from child: " ++ line.

(** The body of [for (const line of lines)]. *)
Definition process_line (line : jsstring) (st : State) : State :=
  match trim line with
  | [] => st
  | _ =>
      match JSON_parse line with
      | None => log_error (invalid_json_message line) st
      | Some _ =>
          match dispatch line (sessions st)
                  (debug_log (lit "Targetly Adapter: OUTGOING: " ++ line) st) with
          | Returned st' => st'
          | Thrown st' => log_error (invalid_json_message line) st'
          end
      end
  end.

Definition process_lines (lines : list jsstring) (st : State) : State :=
  fold_left (fun s line => process_line line s) lines st.

(** The stdout handler once the chunk is decoded: [buffer += text] and
    what follows. *)
Definition on_stdout_text (text : jsstring) (st : State) : State :=
  let lines := split NL (buffer st ++ text) in
  let (last_line, lines) := pop lines in
  process_lines lines (set_buffer last_line st).

(** [child.stdout.on("data", (chunk) => ...)]: the chunk is a Buffer and
    is decoded on its own by [chunk.toString()]. *)
Definition on_stdout_data (chunk : list N) (st : State) : State :=
  on_stdout_text (toString chunk) st.

(** [app.get("/sse", ...)] with [sessionId] the value [crypto.randomUUID()]
    returned and a new response object, allocated at the end of the heap.
    The headers are those the handler sets (the CORS middleware adds its
    own to every response). *)
Definition get_sse (sessionId : jsstring) (st : State) : Outcome :=
  let res := List.length (heap st) in
  let r0 := mkResponse Writable [] [] in
  let r1 := set_header (lit "Content-Type") (lit "text/event-stream") r0 in
  let r2 := set_header (lit "Cache-Control") (lit "no-cache") r1 in
  let r3 := set_header (lit "Connection") (lit "keep-alive") r2 in
  let st1 := set_heap (heap st ++ [r3]) st in
  let st2 := set_sessions (map_set sessionId res (sessions st1)) st1 in
  let st3 := debug_log (lit "Targetly Adapter: New SSE session: " ++ sessionId) st2 in
  res_write res (lit "event: endpoint" ++ [NL]) st3 >>= fun st4 =>
  res_write res (lit "data: /messages?session_id=" ++ sessionId ++ [NL; NL]) st4
  >>= fun st5 =>
  Returned (set_intervals (intervals st5 ++ [res]) st5).

(** The keep-alive timer of the response [res] firing. *)
Definition on_ping (res : nat) (st : State) : Outcome :=
  res_write res (lit ": ping" ++ [NL; NL]) st.

(** [req.on("close", ...)] of the GET request that created [sessionId]
    with response [res]. *)
Definition on_close (sessionId : jsstring) (res : nat) (st : State) : State :=
  let st1 := set_intervals (filter (fun h => negb (Nat.eqb h res)) (intervals st)) st in
  let st2 := set_sessions (map_delete sessionId (sessions st1)) st1 in
  debug_log (lit "Targetly Adapter: Session " ++ sessionId ++ lit " closed") st2.

(** [app.post("/messages", ...)], with [req.query.session_id] and
    [req.body] as the body parsers left it. *)
Definition post_messages (sessionId : QueryVal) (body : JSValue) (st : State)
  : State * HttpResponse :=
  if query_falsy sessionId || negb (sessions_has sessionId (sessions st)) then
    (debug_log (lit "Targetly Adapter: Invalid session_id: "
                  ++ query_to_string sessionId) st,
     mkHttpResponse 400 (lit "Invalid or missing session_id"))
  else
    let body := if typeof_object body then stringify body else to_string body in
    let st1 := debug_log (lit "Targetly Adapter: INCOMING: " ++ body) st in
    (stdin_write (body ++ [NL]) st1, mkHttpResponse 202 (lit "Accepted")).

(** *** The body parsers in front of the POST route

    [app.use(express.json())] then [app.use(express.text({ type: "*/*" }))].
    First the parsing proper, for the text of a body that a parser has
    read; the conditions under which a parser reads the body at all come
    after it ([PostRequest]). *)

(** Whether the Content-Type is [application/json]. *)
Inductive ContentType : Type := CTJson | CTOther.

Inductive Parsed : Type :=
| Rejected (code : N)
| Body (v : JSValue).

(** The strict mode of [express.json()]: the first character after white
    space opens an object or an array. *)
Definition strict_first_char (raw : jsstring) : bool :=
  match skip_ws raw with
  | c :: _ => (c =? 123) || (c =? 91)
  | [] => false
  end.

Definition express_json (raw : jsstring) : Parsed :=
  match raw with
  | [] => Body (JObject [])
  | _ =>
      if strict_first_char raw then
        match JSON_parse raw with
        | Some v => Body v
        | None => Rejected 400
        end
      else Rejected 400
  end.

Definition express_text (raw : jsstring) : Parsed := Body (JString raw).

Definition body_parsers (ct : ContentType) (raw : jsstring) : Parsed :=
  match ct with
  | CTJson => express_json raw
  | CTOther => express_text raw
  end.

Inductive EndpointResult : Type :=
| Handled (r : HttpResponse)
| ParserError (code : N).

(** A POST to [/messages] through the middleware chain. *)
Definition post_endpoint (sessionId : QueryVal) (ct : ContentType) (raw : jsstring)
    (st : State) : State * EndpointResult :=
  match body_parsers ct raw with
  | Rejected code => (st, ParserError code)
  | Body v =>
      let (st', r) := post_messages sessionId v st in (st', Handled r)
  end.

(** *** A POST request as the parsers see it

    Whether the request has a body, its Content-Type (absent,
    [application/json] or another type), whether its content encoding and
    its charset are ones the parsers support, the number of bytes of the
    body and the body's text once inflated and decoded. *)
Record PostRequest : Type := mkPostRequest {
  req_has_body : bool;
  req_content_type : option ContentType;
  req_encoding_supported : bool;
  req_charset_supported : bool;
  req_bytes : N;
  req_text : jsstring
}.

(** The default [limit] of both parsers, 100kb. *)
Definition BODY_LIMIT : N := 102400.

(** What [req.body] is when no parser has read the body: an empty object
    with body-parser 1.x and undefined with body-parser 2.x.  An undefined
    body is not an object and string concatenation turns it into the
    string "undefined", so the handler treats it as that string. *)
Variable unread_body : JSValue.

(** Both parsers skip a request without a body or without a Content-Type;
    otherwise the one that reads the body refuses an unsupported content
    encoding or charset with 415 and a body over the limit with 413,
    before the text is parsed. *)
Definition read_body (req : PostRequest) : Parsed :=
  if negb (req_has_body req) then Body unread_body
  else
    match req_content_type req with
    | None => Body unread_body
    | Some ct =>
        if negb (req_encoding_supported req) then Rejected 415
        else if negb (req_charset_supported req) then Rejected 415
        else if BODY_LIMIT <? req_bytes req then Rejected 413
        else body_parsers ct (req_text req)
    end.

(** A POST to [/messages] with all the conditions of the parsers.  A
    refusal is answered by the error handler of Express, which also prints
    the error on the adapter's stderr; the model leaves that print out. *)
Definition post_request (sessionId : QueryVal) (req : PostRequest) (st : State)
  : State * EndpointResult :=
  match read_body req with
  | Rejected code => (st, ParserError code)
  | Body v =>
      let (st', r) := post_messages sessionId v st in (st', Handled r)
  end.

End Handlers.

(** [child.on("exit", (code) => ...)]: [code] is the child's exit code, or
    null when a signal ended it.  The result is the error line logged and
    the argument of [process.exit], [code || 1]. *)
Definition exit_argument (code : option N) : N :=
  match code with
  | Some c => if c =? 0 then 1 else c
  | None => 1
  end.

Definition on_child_exit (code : option N) (st : State) : State * N :=
  (log_error (lit "Targetly Adapter: Child process exited with code "
                ++ match code with
                   | Some c => number_to_string c
                   | None => lit "null"
                   end) st,
   exit_argument code).

End Adapter.

Import Adapter.

(** ** Runs of the adapter *)

Module Run.

(** A line passes the check [if (!line.trim()) continue]. *)
Definition nonblank (line : jsstring) : bool := truthy (trim line).

(** The framing step of the stdout handler: the new pending fragment and
    the complete lines of [buffer + chunk]. *)
Definition frame (buf chunk : jsstring) : jsstring * list jsstring :=
  pop (split NL (buf ++ chunk)).

(** The lines the framer hands to the JSON check while a sequence of
    chunks arrives, in order, and the fragment pending at the end. *)
Fixpoint framer (buf : jsstring) (chunks : list jsstring)
  : list jsstring * jsstring :=
  match chunks with
  | [] => ([], buf)
  | chunk :: rest =>
      let (buf', lines) := frame buf chunk in
      let (more, final) := framer buf' rest in
      (filter nonblank lines ++ more, final)
  end.

Definition framer_emits (buf : jsstring) (chunks : list jsstring) : list jsstring :=
  fst (framer buf chunks).

Definition framer_pending (buf : jsstring) (chunks : list jsstring) : jsstring :=
  snd (framer buf chunks).

(** The connection behind the response with handle [res] is lost: the
    response is destroyed.  The runtime then emits the close event of the
    request, which the adapter handles in a later turn. *)
Definition break_stream (res : nat) (st : State) : State :=
  set_heap
    (update_nth res (fun r => mkResponse Destroyed (res_headers r) (res_written r))
       (heap st)) st.

Section Runs.

Variable DEBUG : bool.
Variable JSON_parse : jsstring -> option JSValue.

(** [JSON.parse(line)] returns. *)
Definition valid_json (line : jsstring) : bool :=
  match JSON_parse line with Some _ => true | None => false end.

(** The stdout handler run on a sequence of chunks. *)
Definition run_stdout (chunks : list (list N)) (st : State) : State :=
  fold_left (fun s chunk => on_stdout_data DEBUG JSON_parse chunk s) chunks st.

(** The same on the decoded texts. *)
Definition run_text (texts : list jsstring) (st : State) : State :=
  fold_left (fun s text => on_stdout_text DEBUG JSON_parse text s) texts st.

(** What the handlers and the environment can do in one turn of the
    event loop.  A connection may be lost at any time; a timer fires only
    while it is set; a close event is that of a GET request served
    before. *)
Inductive step : State -> State -> Prop :=
| step_stdout chunk st :
    step st (on_stdout_data DEBUG JSON_parse chunk st)
| step_get sessionId st st' :
    truthy sessionId = true ->
    get_sse DEBUG sessionId st = Returned st' ->
    step st st'
| step_ping res st st' :
    In res (intervals st) ->
    on_ping res st = Returned st' ->
    step st st'
| step_close sessionId res st :
    step st (on_close DEBUG sessionId res st)
| step_post q body st :
    step st (fst (post_messages DEBUG q body st))
| step_break res st :
    step st (break_stream res st).

Inductive reachable : State -> Prop :=
| reach_initial : reachable initial
| reach_step st st' : reachable st -> step st st' -> reachable st'.

End Runs.

(** *** Well-formed registries *)

Fixpoint nodup_nat (l : list nat) : bool :=
  match l with
  | [] => true
  | x :: r => negb (existsb (Nat.eqb x) r) && nodup_nat r
  end.

Fixpoint nodup_keys (l : list jsstring) : bool :=
  match l with
  | [] => true
  | x :: r => negb (existsb (str_eqb x) r) && nodup_keys r
  end.

(** Session identifiers are distinct non-empty strings, and the responses
    they map to are distinct allocated objects. *)
Definition registry_wf (st : State) : bool :=
  nodup_keys (map fst (sessions st))
  && forallb truthy (map fst (sessions st))
  && nodup_nat (map snd (sessions st))
  && forallb (fun h => Nat.ltb h (List.length (heap st))) (map snd (sessions st)).

Definition writable (st : State) (h : nat) : bool :=
  match nth_error (heap st) h with
  | Some r => match res_mode r with Writable => true | Destroyed => false end
  | None => false
  end.

(** The response with this handle has been allocated. *)
Definition allocated (st : State) (h : nat) : bool :=
  Nat.ltb h (List.length (heap st)).

(** Every registered response has been allocated. *)
Definition all_allocated (st : State) : bool :=
  forallb (allocated st) (map snd (sessions st)).

(** The fields the stdout handler never assigns. *)
Definition same_frame (st st' : State) : Prop :=
  sessions st' = sessions st /\ intervals st' = intervals st
  /\ child_stdin st' = child_stdin st
  /\ List.length (heap st') = List.length (heap st)
  /\ (forall h, writable st' h = writable st h).

(** The events one line puts on the stream [h], for the handles the loop
    visits. *)
Definition line_events (line : jsstring) (handles : list nat) (h : nat)
  : list jsstring :=
  flat_map (fun x => if Nat.eqb x h then sse_event (lit "message") line else [])
           handles.

End Run.

Import Run.

(** ** Auxiliary definitions for the statements *)

Module Aux.

Definition outcome_map (f : State -> State) (o : Outcome) : Outcome :=
  match o with
  | Returned st => Returned (f st)
  | Thrown st => Thrown (f st)
  end.

(** The status code a client sees. *)
Definition result_status (r : EndpointResult) : N :=
  match r with
  | Handled h => status h
  | ParserError code => code
  end.

(** The line the POST handler writes for a body. *)
Definition body_text (body : JSValue) : jsstring :=
  if typeof_object body then stringify body else to_string body.

(** *** Sample inputs *)

Definition DQ : N := 34.

Definition id_a : jsstring := lit "3b241101-e2bb-4255-8caf-4136c566a962".
Definition id_b : jsstring := lit "9f1c7a52-0d3e-4b6a-a1f4-5e8d2c7b9a10".

(** Two clients have opened [/sse], with debug logging off. *)
Definition two_sessions : State :=
  state_of (get_sse false id_b (state_of (get_sse false id_a initial))).

(** The same, after the first client's stream broke without a close
    event having been handled yet. *)
Definition first_stream_broken : State := break_stream 0 two_sessions.

(** The JSON-RPC message [{"jsonrpc":"2.0","id":1,"method":"ping"}]. *)
Definition ping_message : jsstring :=
  lit "{" ++ [DQ] ++ lit "jsonrpc" ++ [DQ] ++ lit ":" ++ [DQ] ++ lit "2.0" ++ [DQ]
  ++ lit "," ++ [DQ] ++ lit "id" ++ [DQ] ++ lit ":1,"
  ++ [DQ] ++ lit "method" ++ [DQ] ++ lit ":" ++ [DQ] ++ lit "ping" ++ [DQ] ++ lit "}".

(** *** The lines of a text, stated without the handler's functions

    A line is a maximal run of code units that ends at a newline; what
    follows the last newline is no line yet. *)
Fixpoint lines_from (current : jsstring) (text : jsstring) : list jsstring :=
  match text with
  | [] => []
  | c :: rest =>
      if c =? NL then rev current :: lines_from [] rest
      else lines_from (c :: current) rest
  end.

Definition terminated_lines (text : jsstring) : list jsstring :=
  lines_from [] text.

Fixpoint tail_from (current : jsstring) (text : jsstring) : jsstring :=
  match text with
  | [] => rev current
  | c :: rest =>
      if c =? NL then tail_from [] rest else tail_from (c :: current) rest
  end.

Definition unterminated_tail (text : jsstring) : jsstring :=
  tail_from [] text.

(** A line with nothing but white space in it. *)
Definition whitespace_only (line : jsstring) : bool := forallb is_ws line.

(** A line that is relayed: not blank, and valid JSON. *)
Definition deliverable (JSON_parse : jsstring -> option JSValue) (line : jsstring)
  : bool :=
  negb (whitespace_only line) && valid_json JSON_parse line.

(** The writes of the [message] events for the lines of a text. *)
Definition message_events (JSON_parse : jsstring -> option JSValue)
    (text : jsstring) : list jsstring :=
  flat_map (sse_event (lit "message"))
    (filter (deliverable JSON_parse) (terminated_lines text)).

(** The text of a sequence of chunks as the handler decodes it. *)
Definition decoded (chunks : list (list N)) : jsstring :=
  List.concat (map toString chunks).

(** The child emits [first], then the connection behind the response
    [res] is lost, then the child emits [second]; the close event has not
    been handled yet. *)
Definition channel_failure (DEBUG : bool) (JSON_parse : jsstring -> option JSValue)
    (res : nat) (first second : list (list N)) (st : State) : State :=
  run_stdout DEBUG JSON_parse second
    (break_stream res (run_stdout DEBUG JSON_parse first st)).

(** The broadcast of one line during which the connection behind [res]
    is lost, after the loop has served the entries [served] and before it
    serves the entries [waiting]. *)
Definition interrupted_dispatch (DEBUG : bool) (line : jsstring)
    (served waiting : list (jsstring * nat)) (res : nat) (st : State) : Outcome :=
  bind (dispatch DEBUG line served st)
       (fun st1 => dispatch DEBUG line waiting (break_stream res st1)).

(** *** More sample inputs *)

(** The line [{"a":"€"}] as the child writes it (the euro sign takes the
    three bytes E2 82 AC), cut inside the euro sign. *)
Definition euro_chunk_1 : list N :=
  lit "{" ++ [DQ] ++ lit "a" ++ [DQ] ++ lit ":" ++ [DQ] ++ [226; 130].

Definition euro_chunk_2 : list N := [172] ++ [DQ] ++ lit "}" ++ [NL].

(** The line as text, and the line the adapter makes of the two chunks. *)
Definition euro_line : jsstring :=
  lit "{" ++ [DQ] ++ lit "a" ++ [DQ] ++ lit ":" ++ [DQ] ++ [8364] ++ [DQ] ++ lit "}".

Definition damaged_line : jsstring :=
  lit "{" ++ [DQ] ++ lit "a" ++ [DQ] ++ lit ":" ++ [DQ] ++ [65533; 65533]
  ++ [DQ] ++ lit "}".

(** A POST of the ping message as [text/plain] in a charset the parsers
    do not know. *)
Definition unknown_charset_request : PostRequest :=
  mkPostRequest true (Some CTOther) true false 40 ping_message.

(** The ping message as [text/plain], and with no Content-Type header. *)
Definition text_request : PostRequest :=
  mkPostRequest true (Some CTOther) true true 40 ping_message.

Definition untyped_request : PostRequest :=
  mkPostRequest true None true true 40 ping_message.

(** The text [not-json] as [text/plain] and as [application/json]. *)
Definition plain_text_request : PostRequest :=
  mkPostRequest true (Some CTOther) true true 8 (lit "not-json").

Definition bad_json_request : PostRequest :=
  mkPostRequest true (Some CTJson) true true 8 (lit "not-json").

End Aux.

Import Aux.

(** ** Start-up: which command to launch *)

Module Launch.

(** The [bin] field of package.json: absent, a string, or an object whose
    properties are listed in enumeration order. *)
Inductive BinField : Type :=
| BinAbsent
| BinString (s : jsstring)
| BinObject (entries : list (jsstring * jsstring)).

Record PackageJson : Type := mkPackageJson {
  pkg_bin : BinField;
  pkg_main : option jsstring
}.

(** What [getServerCommand] reads: three environment or command-line
    values (absent when undefined), the result of
    [require('./package.json')] ([None] when it throws) and
    [fs.existsSync]. *)
Record Env : Type := mkEnv {
  TARGETLY_MCP_CMD : option jsstring;
  TARGETLY_MCP_SERVER_SCRIPT : option jsstring;
  argv2 : option jsstring;
  package_json : option PackageJson;
  existsSync : jsstring -> bool
}.

(** Truthiness of a value that is a string or undefined. *)
Definition opt_truthy (o : option jsstring) : bool :=
  match o with
  | Some s => truthy s
  | None => false
  end.

(** [a || b] *)
Definition js_or (a b : option jsstring) : option jsstring :=
  if opt_truthy a then a else b.

(** The negation of [!serverScript || !fs.existsSync(serverScript)]. *)
Definition usable (e : Env) (serverScript : option jsstring) : bool :=
  match serverScript with
  | Some s => truthy s && existsSync e s
  | None => false
  end.

Definition fallbacks : list jsstring :=
  [lit "./dist/index.js"; lit "./build/index.js"; lit "./src/index.js";
   lit "./index.js"].

(** The outcome of start-up: the command to spawn, or [process.exit]
    after an error line. *)
Inductive Launch : Type :=
| Spawn (command : jsstring) (args : list jsstring)
| ExitWith (code : N) (message : jsstring).

(** The assignments made from package.json inside the [try] block. *)
Definition from_package_json (e : Env) (pkg : PackageJson)
    (serverScript : option jsstring) : option jsstring :=
  let s :=
    match pkg_bin pkg with
    | BinAbsent => serverScript
    | BinString b => if truthy b then Some b else serverScript
    | BinObject [] => serverScript
    | BinObject ((_, v) :: _) => Some v
    end in
  if negb (usable e s) && opt_truthy (pkg_main pkg) then pkg_main pkg else s.

(** Steps 2 and 3 of [getServerCommand]: the script to run with node. *)
Definition resolve_script (e : Env) : Launch :=
  let s0 := js_or (TARGETLY_MCP_SERVER_SCRIPT e) (argv2 e) in
  let s1 :=
    if negb (usable e s0) then
      match package_json e with
      | Some pkg => from_package_json e pkg s0
      | None => s0
      end
    else s0 in
  let s2 :=
    if negb (usable e s1) then find (existsSync e) fallbacks else s1 in
  match s2 with
  | Some (c :: s) => Spawn (lit "node") [c :: s]
  | _ => ExitWith 1 (lit "Targetly Adapter Error: No server script found.")
  end.

Definition getServerCommand (e : Env) : Launch :=
  match TARGETLY_MCP_CMD e with
  | Some (c :: cmd) =>
      let parts := split 32 (c :: cmd) in
      Spawn (hd [] parts) (tl parts)
  | _ => resolve_script e
  end.

(** The start-up line
    [`Targetly Adapter: Starting server with command: ${command} ${args.join(" ")}`]. *)
Definition starting_line (command : jsstring) (args : list jsstring) : jsstring :=
  lit "Targetly Adapter: Starting server with command: "
  ++ command ++ [32] ++ join [32] args.

Definition of_option (o : option jsstring) : list jsstring :=
  match o with Some s => [s] | None => [] end.

(** The scripts package.json proposes: the [bin] entry, then [main]. *)
Definition package_candidates (e : Env) : list jsstring :=
  match package_json e with
  | Some pkg =>
      match pkg_bin pkg with
      | BinAbsent => []
      | BinString b => [b]
      | BinObject [] => []
      | BinObject ((_, v) :: _) => [v]
      end
      ++ of_option (pkg_main pkg)
  | None => []
  end.

(** The scripts start-up considers, in the order in which it prefers
    them. *)
Definition candidates (e : Env) : list jsstring :=
  of_option (js_or (TARGETLY_MCP_SERVER_SCRIPT e) (argv2 e))
  ++ package_candidates e
  ++ fallbacks.

(** A non-empty name of an existing file. *)
Definition launchable (e : Env) (s : jsstring) : bool :=
  truthy s && existsSync e s.

(** A sample environment: the configured script is missing, package.json
    names a missing [bin] and an existing [main], and [./index.js] exists
    too. *)
Definition sample_env : Env :=
  mkEnv None (Some (lit "server.js")) None
    (Some (mkPackageJson (BinObject [(lit "mcp", lit "dist/cli.js")])
             (Some (lit "lib/main.js"))))
    (fun s => str_eqb s (lit "lib/main.js") || str_eqb s (lit "./index.js")).

(** The same with a command override. *)
Definition sample_env_cmd : Env :=
  mkEnv (Some (lit "npx -y @modelcontextprotocol/server-memory"))
    (Some (lit "server.js")) None None (fun _ => false).

End Launch.

Import Launch.

(** ** More auxiliary definitions *)

Module Aux2.

(** The state with its console.log output replaced. *)
Definition with_log (l : list jsstring) (st : State) : State :=
  mkState (buffer st) (sessions st) (heap st) (intervals st) (child_stdin st)
          l (console_error st).

(** The complete lines of a sequence of chunks, blank ones included, as
    the stdout handler iterates over them. *)
Fixpoint framer_lines (buf : jsstring) (chunks : list jsstring) : list jsstring :=
  match chunks with
  | [] => []
  | chunk :: rest =>
      snd (frame buf chunk) ++ framer_lines (fst (frame buf chunk)) rest
  end.



End Aux2.

Import Aux2.

(** ** Start-up of the two earlier variants of the adapter

    Both read the script to run as the current adapter does, with two
    differences: the fallback paths are tried in another order, and the
    command-line arguments after the script are handed on to the server.
    [argv] stands for [process.argv.slice(2)]. *)

Module Variants.

Definition POSSIBLE_PATHS : list jsstring :=
  [lit "./build/index.js"; lit "./dist/index.js"; lit "./src/index.js";
   lit "./index.js"].

(** [SERVER_SCRIPT] after the package.json look-up. *)
Definition detected_script (e : Env) (argv : list jsstring) : option jsstring :=
  let s0 := js_or (TARGETLY_MCP_SERVER_SCRIPT e) (hd_error argv) in
  if negb (usable e s0) then
    match package_json e with
    | Some pkg => from_package_json e pkg s0
    | None => s0
    end
  else s0.

(** The arguments handed on to the server: all of them when the script
    came from the environment, those after the script otherwise. *)
Definition extra_args (e : Env) (argv : list jsstring) : list jsstring :=
  if opt_truthy (TARGETLY_MCP_SERVER_SCRIPT e) then argv else tl argv.

(** The first variant: node on the detected script, or on the first
    fallback path that exists, or exit 1. *)
Definition first_variant_launch (e : Env) (argv : list jsstring) : Launch :=
  let s1 := detected_script e argv in
  if negb (usable e s1) then
    match find (existsSync e) POSSIBLE_PATHS with
    | Some (c :: found) => Spawn (lit "node") ((c :: found) :: extra_args e argv)
    | _ =>
        ExitWith 1 (lit "Targetly Adapter Error: Could not find MCP server entrypoint.")
    end
  else
    match s1 with
    | Some s => Spawn (lit "node") (s :: extra_args e argv)
    | None =>
        ExitWith 1 (lit "Targetly Adapter Error: Could not find MCP server entrypoint.")
    end.

(** The second variant, once the SDK module has loaded: a command
    override wins; otherwise node on the detected script, replaced by a
    fallback path when it is unusable and one exists. *)
Definition second_variant_launch (e : Env) (argv : list jsstring) : Launch :=
  let s1 := detected_script e argv in
  let s2 :=
    if negb (usable e s1) then
      if negb (opt_truthy (TARGETLY_MCP_CMD e)) then
        match find (existsSync e) POSSIBLE_PATHS with
        | Some (c :: found) => Some (c :: found)
        | _ => s1
        end
      else s1
    else s1 in
  match TARGETLY_MCP_CMD e with
  | Some (c :: cmd) =>
      let parts := split 32 (c :: cmd) in
      Spawn (hd [] parts) (tl parts ++ argv)
  | _ =>
      match s2 with
      | Some (c :: s) => Spawn (lit "node") ((c :: s) :: extra_args e argv)
      | _ =>
          ExitWith 1
            (lit "Targetly Adapter Error: No server script specified via TARGETLY_MCP_SERVER_SCRIPT, TARGETLY_MCP_CMD or command line.")
      end
  end.

(** The scripts the variants consider, in their order of preference. *)
Definition variant_candidates (e : Env) (argv : list jsstring) : list jsstring :=
  of_option (js_or (TARGETLY_MCP_SERVER_SCRIPT e) (hd_error argv))
  ++ package_candidates e
  ++ POSSIBLE_PATHS.

(** A sample: the script is given on the command line, followed by two
    arguments for the server; it does not exist, but ./dist/index.js
    does. *)
Definition sample_variant_env : Env :=
  mkEnv None None None None (fun s => str_eqb s (lit "./dist/index.js")).

Definition sample_argv : list jsstring :=
  [lit "server.js"; lit "--port"; lit "9000"].

End Variants.

Import Variants.

(** ** Facts about strings *)

Lemma str_eqb_eq (a b : jsstring) : str_eqb a b = true <-> a = b.
Proof.
  revert b; induction a as [|x a IH]; intros [|y b]; simpl; split; intro H;
    try reflexivity; try discriminate.
  - apply andb_true_iff in H as [H1 H2]. apply N.eqb_eq in H1.
    apply IH in H2. congruence.
  - inversion H; subst. rewrite N.eqb_refl. simpl. apply IH. reflexivity.
Qed.

Lemma str_eqb_refl (a : jsstring) : str_eqb a a = true.
Proof. apply str_eqb_eq. reflexivity. Qed.

Lemma str_eqb_neq (a b : jsstring) : str_eqb a b = false <-> a <> b.
Proof.
  split; intro H.
  - intro E. apply str_eqb_eq in E. congruence.
  - destruct (str_eqb a b) eqn:E; [|reflexivity].
    apply str_eqb_eq in E. contradiction.
Qed.

Lemma split_nonempty sep s : split sep s <> [].
Proof.
  destruct s as [|c r]; simpl; [discriminate|].
  destruct (c =? sep); [discriminate|].
  destruct (split sep r); discriminate.
Qed.

Lemma split_cons_sep sep r : split sep (sep :: r) = [] :: split sep r.
Proof. simpl. rewrite N.eqb_refl. reflexivity. Qed.

Lemma last_cons_nonempty {A} (x : A) (l : list A) d :
  l <> [] -> last (x :: l) d = last l d.
Proof. destruct l; [contradiction|reflexivity]. Qed.

Lemma removelast_cons_nonempty {A} (x : A) (l : list A) :
  l <> [] -> removelast (x :: l) = x :: removelast l.
Proof. destruct l; [contradiction|reflexivity]. Qed.

(** Splitting a concatenation: the complete segments of the first part,
    then the split of its pending fragment followed by the second part. *)
Lemma split_app sep (a b : jsstring) :
  split sep (a ++ b) =
  removelast (split sep a) ++ split sep (last (split sep a) [] ++ b).
Proof.
  induction a as [|c a IH]; simpl; [reflexivity|].
  destruct (c =? sep) eqn:E.
  - rewrite IH.
    rewrite (removelast_cons_nonempty _ _ (split_nonempty sep a)).
    rewrite (last_cons_nonempty _ _ _ (split_nonempty sep a)).
    destruct (split sep a) eqn:S; reflexivity.
  - rewrite IH.
    pose proof (split_nonempty sep a) as Hne.
    destruct (split sep a) as [|x xs] eqn:S; [contradiction|].
    destruct xs as [|y ys].
    + simpl. rewrite E. reflexivity.
    + change (removelast (x :: y :: ys)) with (x :: removelast (y :: ys)).
      change (removelast ((c :: x) :: y :: ys))
        with ((c :: x) :: removelast (y :: ys)).
      change (last ((c :: x) :: y :: ys) []) with (last (y :: ys) []).
      change (last (x :: y :: ys) []) with (last (y :: ys) []).
      reflexivity.
Qed.

Lemma trim_start_nil_iff s : trim_start s = [] <-> forallb is_ws s = true.
Proof.
  induction s as [|c r IH]; simpl; [tauto|].
  destruct (is_ws c); simpl; [exact IH|].
  split; discriminate.
Qed.

(** [!line.trim()] holds exactly when every code unit of the line is
    white space. *)
Lemma trim_nil_iff s : trim s = [] <-> forallb is_ws s = true.
Proof.
  unfold trim, trim_end. split.
  - intro H. apply trim_start_nil_iff.
    destruct (trim_start s) as [|c r] eqn:E; [reflexivity|].
    exfalso.
    assert (Hc : is_ws c = false).
    { clear H. induction s as [|d s IH]; simpl in E; [discriminate|].
      destruct (is_ws d) eqn:D; [auto|]. inversion E; subst. exact D. }
    assert (Hr : forall l, trim_start (l ++ [c]) <> []).
    { induction l as [|d l IHl]; simpl.
      - rewrite Hc. discriminate.
      - destruct (is_ws d); [exact IHl|discriminate]. }
    apply (f_equal (@rev N)) in H. rewrite rev_involutive in H. simpl in H.
    apply (Hr (rev r)). exact H.
  - intro H. apply trim_start_nil_iff in H. rewrite H. reflexivity.
Qed.

(** ** The line framer *)

Lemma split_no_sep sep s : ~ In sep s -> split sep s = [s].
Proof.
  induction s as [|c r IH]; simpl; intro H; [reflexivity|].
  destruct (c =? sep) eqn:E.
  - apply N.eqb_eq in E. exfalso. apply H. left. exact E.
  - rewrite IH by tauto. reflexivity.
Qed.

Lemma split_last_no_sep sep s : ~ In sep (last (split sep s) []).
Proof.
  induction s as [|c r IH]; simpl; [tauto|].
  destruct (c =? sep) eqn:E.
  - rewrite (last_cons_nonempty _ _ _ (split_nonempty sep r)). exact IH.
  - pose proof (split_nonempty sep r) as Hne.
    destruct (split sep r) as [|x xs] eqn:S; [contradiction|].
    destruct xs as [|y ys].
    + simpl in *. intros [H|H]; [|tauto].
      apply N.eqb_neq in E. congruence.
    + exact IH.
Qed.

Lemma last_app_nonempty {A} (l1 l2 : list A) d :
  l2 <> [] -> last (l1 ++ l2) d = last l2 d.
Proof.
  intro H. induction l1 as [|x l1 IH]; [reflexivity|].
  simpl app. rewrite last_cons_nonempty; [exact IH|].
  destruct l1; simpl; [exact H|discriminate].
Qed.

(** Feeding chunks one at a time, from a pending fragment without a
    newline, frames the text as one split of the whole does. *)
Lemma framer_split chunks : forall buf,
  ~ In NL buf ->
  framer buf chunks =
  (filter nonblank (removelast (split NL (buf ++ List.concat chunks))),
   last (split NL (buf ++ List.concat chunks)) []).
Proof.
  induction chunks as [|chunk rest IH]; intros buf Hbuf.
  - simpl. rewrite app_nil_r, (split_no_sep _ _ Hbuf). reflexivity.
  - simpl. unfold frame, pop.
    rewrite (IH _ (split_last_no_sep NL (buf ++ chunk))).
    rewrite app_assoc, (split_app NL (buf ++ chunk) (List.concat rest)).
    set (pending := last (split NL (buf ++ chunk)) []).
    pose proof (split_nonempty NL (pending ++ List.concat rest)) as Hne.
    rewrite (removelast_app _ Hne), filter_app.
    rewrite (last_app_nonempty _ _ _ Hne). reflexivity.
Qed.

Lemma framer_emits_cons buf chunk rest :
  framer_emits buf (chunk :: rest) =
  filter nonblank (snd (frame buf chunk)) ++ framer_emits (fst (frame buf chunk)) rest.
Proof.
  unfold framer_emits. cbn [framer].
  destruct (frame buf chunk) as [b l]. cbn [fst snd].
  destruct (framer b rest). reflexivity.
Qed.

Lemma framer_pending_cons buf chunk rest :
  framer_pending buf (chunk :: rest) = framer_pending (fst (frame buf chunk)) rest.
Proof.
  unfold framer_pending. cbn [framer].
  destruct (frame buf chunk) as [b l]. cbn [fst snd].
  destruct (framer b rest). reflexivity.
Qed.

Lemma initial_buffer_no_newline : ~ In NL (buffer initial).
Proof. simpl. tauto. Qed.

(** ** Response streams and the broadcast loop *)

Lemma forallb_pointwise {A} (f g : A -> bool) (l : list A) :
  (forall x, f x = g x) -> forallb f l = forallb g l.
Proof.
  intro H. induction l as [|x r IH]; simpl; [reflexivity|].
  rewrite H, IH. reflexivity.
Qed.

Lemma update_nth_length {A} (f : A -> A) l : forall n,
  List.length (update_nth n f l) = List.length l.
Proof.
  induction l as [|x r IH]; intros [|n]; simpl; try reflexivity.
  rewrite IH. reflexivity.
Qed.

Lemma nth_error_update_nth_eq {A} (f : A -> A) l : forall n,
  nth_error (update_nth n f l) n = option_map f (nth_error l n).
Proof.
  induction l as [|x r IH]; intros [|n]; simpl; try reflexivity. apply IH.
Qed.

Lemma nth_error_update_nth_neq {A} (f : A -> A) l : forall n m,
  n <> m -> nth_error (update_nth n f l) m = nth_error l m.
Proof.
  induction l as [|x r IH]; intros [|n] [|m] H; simpl; try reflexivity.
  - contradiction.
  - apply IH. congruence.
Qed.

Lemma same_frame_refl st : same_frame st st.
Proof. repeat split. Qed.

Lemma same_frame_trans st1 st2 st3 :
  same_frame st1 st2 -> same_frame st2 st3 -> same_frame st1 st3.
Proof.
  intros (A1 & A2 & A3 & A4 & A5) (B1 & B2 & B3 & B4 & B5).
  repeat split; try congruence.
Qed.

Lemma writable_appended h d st h' : writable (appended h d st) h' = writable st h'.
Proof.
  unfold writable, appended. simpl.
  destruct (Nat.eq_dec h h') as [->|Hne].
  - rewrite nth_error_update_nth_eq. destruct (nth_error (heap st) h'); reflexivity.
  - rewrite nth_error_update_nth_neq by exact Hne. reflexivity.
Qed.

Lemma same_frame_appended h d st : same_frame st (appended h d st).
Proof.
  repeat split.
  - unfold appended. simpl. apply update_nth_length.
  - intro h'. apply writable_appended.
Qed.

Lemma written_appended_same h d st :
  writable st h = true -> written (appended h d st) h = written st h ++ [d].
Proof.
  unfold writable, written, appended. simpl.
  rewrite nth_error_update_nth_eq.
  destruct (nth_error (heap st) h); [reflexivity|discriminate].
Qed.

Lemma written_appended_other h d st h' :
  h <> h' -> written (appended h d st) h' = written st h'.
Proof.
  intro Hne. unfold written, appended. simpl.
  rewrite nth_error_update_nth_neq by exact Hne. reflexivity.
Qed.

Lemma res_write_writable h d st :
  writable st h = true -> res_write h d st = Returned (appended h d st).
Proof.
  unfold writable, res_write.
  destruct (nth_error (heap st) h) as [r|]; [|discriminate].
  destruct (res_mode r); [reflexivity|discriminate].
Qed.

Lemma res_write_destroyed h d st :
  allocated st h = true -> writable st h = false -> res_write h d st = Returned st.
Proof.
  unfold allocated, writable, res_write. intros A W.
  destruct (nth_error (heap st) h) as [r|] eqn:E.
  - destruct (res_mode r); [discriminate|reflexivity].
  - apply Nat.ltb_lt in A. apply nth_error_None in E. lia.
Qed.

Lemma res_write_unallocated h d st :
  allocated st h = false -> res_write h d st = Thrown st.
Proof.
  unfold allocated, res_write. intro A. apply Nat.ltb_ge in A.
  apply nth_error_None in A. rewrite A. reflexivity.
Qed.

Lemma writable_allocated st h : writable st h = true -> allocated st h = true.
Proof.
  unfold writable, allocated. intro W. apply Nat.ltb_lt. apply nth_error_Some.
  destruct (nth_error (heap st) h); [discriminate|discriminate].
Qed.

Lemma allocated_same_length st st' h :
  List.length (heap st') = List.length (heap st) -> allocated st' h = allocated st h.
Proof. unfold allocated. intros ->. reflexivity. Qed.

Section BroadcastFacts.

Variable DEBUG : bool.

Lemma same_frame_debug_log msg st : same_frame st (debug_log DEBUG msg st).
Proof. unfold debug_log. destruct DEBUG; repeat split. Qed.

Lemma written_debug_log msg st h : written (debug_log DEBUG msg st) h = written st h.
Proof. unfold debug_log. destruct DEBUG; reflexivity. Qed.

Lemma console_error_debug_log msg st :
  console_error (debug_log DEBUG msg st) = console_error st.
Proof. unfold debug_log. destruct DEBUG; reflexivity. Qed.

Lemma buffer_debug_log msg st : buffer (debug_log DEBUG msg st) = buffer st.
Proof. unfold debug_log. destruct DEBUG; reflexivity. Qed.

(** One turn of the loop body on a response that accepts writes. *)
Lemma dispatch_cons_writable line sid h rest st :
  writable st h = true ->
  dispatch DEBUG line ((sid, h) :: rest) st =
  dispatch DEBUG line rest
    (debug_log DEBUG (lit "Targetly Adapter: Dispatched to session " ++ sid)
       (appended h (lit "data: " ++ line ++ [NL; NL])
          (appended h (lit "event: message" ++ [NL]) st))).
Proof.
  intro W. simpl.
  rewrite (res_write_writable _ _ _ W). simpl.
  rewrite res_write_writable by (rewrite writable_appended; exact W).
  reflexivity.
Qed.

(** A destroyed response takes the two writes and delivers nothing; the
    loop goes on. *)
Lemma dispatch_cons_destroyed line sid h rest st :
  allocated st h = true -> writable st h = false ->
  dispatch DEBUG line ((sid, h) :: rest) st =
  dispatch DEBUG line rest
    (debug_log DEBUG (lit "Targetly Adapter: Dispatched to session " ++ sid) st).
Proof.
  intros A W. cbn [dispatch].
  rewrite (res_write_destroyed _ _ _ A W). cbn [bind].
  rewrite (res_write_destroyed _ _ _ A W). reflexivity.
Qed.

Lemma dispatch_cons_unallocated line sid h rest st :
  allocated st h = false ->
  dispatch DEBUG line ((sid, h) :: rest) st = Thrown st.
Proof. intro A. cbn [dispatch]. rewrite (res_write_unallocated _ _ _ A). reflexivity. Qed.

(** What the loop leaves alone, whatever the streams do. *)
Lemma dispatch_frame line : forall entries st,
  let st' := state_of (dispatch DEBUG line entries st) in
  same_frame st st'
  /\ buffer st' = buffer st
  /\ console_error st' = console_error st
  /\ (forall h, ~ In h (map snd entries) -> written st' h = written st h).
Proof.
  induction entries as [|[sid h] rest IH]; intros st.
  - simpl. split; [apply same_frame_refl|]. auto.
  - destruct (writable st h) eqn:W; [|destruct (allocated st h) eqn:A].
    + rewrite (dispatch_cons_writable _ _ _ _ _ W).
      set (st2 := debug_log DEBUG _ _).
      destruct (IH st2) as (F & B & E & Wr). cbv zeta.
      split; [|split; [|split]].
      * eapply same_frame_trans; [|exact F].
        eapply same_frame_trans; [|apply same_frame_debug_log].
        eapply same_frame_trans; apply same_frame_appended.
      * rewrite B. unfold st2. rewrite buffer_debug_log. reflexivity.
      * rewrite E. unfold st2. rewrite console_error_debug_log. reflexivity.
      * intros h' Hn. simpl in Hn. rewrite Wr by tauto.
        unfold st2. rewrite written_debug_log.
        rewrite !written_appended_other by tauto. reflexivity.
    + rewrite (dispatch_cons_destroyed _ _ _ _ _ A W).
      set (st2 := debug_log DEBUG _ _).
      destruct (IH st2) as (F & B & E & Wr). cbv zeta.
      split; [|split; [|split]].
      * eapply same_frame_trans; [|exact F]. apply same_frame_debug_log.
      * rewrite B. unfold st2. rewrite buffer_debug_log. reflexivity.
      * rewrite E. unfold st2. rewrite console_error_debug_log. reflexivity.
      * intros h' Hn. simpl in Hn. rewrite Wr by tauto.
        unfold st2. apply written_debug_log.
    + rewrite (dispatch_cons_unallocated _ _ _ _ _ A). simpl.
      split; [apply same_frame_refl|]. auto.
Qed.

(** When every visited response has been allocated the loop completes,
    and each open one receives the event of the line. *)
Lemma dispatch_delivers line : forall entries st,
  forallb (allocated st) (map snd entries) = true ->
  exists st', dispatch DEBUG line entries st = Returned st'
    /\ forall h, written st' h =
                 written st h ++
                   (if writable st h then line_events line (map snd entries) h else []).
Proof.
  induction entries as [|[sid h] rest IH]; intros st Hall.
  - exists st. split; [reflexivity|]. intro h. simpl.
    destruct (writable st h); rewrite app_nil_r; reflexivity.
  - simpl in Hall. apply andb_true_iff in Hall as [A Hrest].
    destruct (writable st h) eqn:W.
    + rewrite (dispatch_cons_writable _ _ _ _ _ W).
      set (st2 := debug_log DEBUG _ _).
      assert (F : same_frame st st2).
      { unfold st2. eapply same_frame_trans; [|apply same_frame_debug_log].
        eapply same_frame_trans; apply same_frame_appended. }
      destruct F as (_ & _ & _ & L & F).
      destruct (IH st2) as (st' & R & Wr).
      { rewrite <- Hrest. apply forallb_pointwise. intro x.
        apply allocated_same_length. exact L. }
      exists st'. split; [exact R|].
      intro h'. rewrite Wr, F. unfold st2. rewrite written_debug_log.
      unfold line_events. simpl flat_map.
      destruct (Nat.eqb h h') eqn:E.
      * apply Nat.eqb_eq in E. subst h'.
        rewrite written_appended_same by (rewrite writable_appended; exact W).
        rewrite (written_appended_same _ _ _ W), W.
        unfold sse_event. rewrite <- !app_assoc. reflexivity.
      * apply Nat.eqb_neq in E.
        rewrite !written_appended_other by exact E. reflexivity.
    + rewrite (dispatch_cons_destroyed _ _ _ _ _ A W).
      set (st2 := debug_log DEBUG _ _).
      destruct (same_frame_debug_log
                  (lit "Targetly Adapter: Dispatched to session " ++ sid) st)
        as (_ & _ & _ & L & F).
      destruct (IH st2) as (st' & R & Wr).
      { rewrite <- Hrest. apply forallb_pointwise. intro x.
        apply allocated_same_length. exact L. }
      exists st'. split; [exact R|].
      intro h'. rewrite Wr, F. unfold st2. rewrite written_debug_log.
      unfold line_events. simpl flat_map.
      destruct (Nat.eqb h h') eqn:E; [|reflexivity].
      apply Nat.eqb_eq in E. subst h'. rewrite W. reflexivity.
Qed.

End BroadcastFacts.

(** ** The stdout handler *)

Lemma line_events_absent line h : forall handles,
  ~ In h handles -> line_events line handles h = [].
Proof.
  induction handles as [|x r IH]; intro H; [reflexivity|].
  unfold line_events in *. simpl in *.
  destruct (Nat.eqb x h) eqn:E.
  - apply Nat.eqb_eq in E. tauto.
  - apply IH. tauto.
Qed.

Lemma existsb_eqb_false_not_in x : forall l,
  existsb (Nat.eqb x) l = false -> ~ In x l.
Proof.
  induction l as [|y r IH]; simpl; [tauto|].
  intros H [->|Hin].
  - rewrite Nat.eqb_refl in H. discriminate.
  - apply orb_false_iff in H as [_ H]. exact (IH H Hin).
Qed.

(** A registered stream gets the event of a line exactly once. *)
Lemma line_events_once line h : forall handles,
  nodup_nat handles = true -> In h handles ->
  line_events line handles h = sse_event (lit "message") line.
Proof.
  induction handles as [|x r IH]; intros Hnd Hin; [destruct Hin|].
  simpl in Hnd. apply andb_true_iff in Hnd as [Hx Hr].
  apply negb_true_iff in Hx. apply existsb_eqb_false_not_in in Hx.
  unfold line_events in *. simpl.
  destruct (Nat.eqb x h) eqn:E.
  - apply Nat.eqb_eq in E. subst x.
    fold (line_events line r h). rewrite (line_events_absent _ _ _ Hx).
    apply app_nil_r.
  - apply Nat.eqb_neq in E. destruct Hin as [->|Hin]; [contradiction|].
    simpl. apply IH; assumption.
Qed.

Section StdoutFacts.

Variable DEBUG : bool.
Variable JSON_parse : jsstring -> option JSValue.

Lemma process_line_blank line st :
  nonblank line = false -> process_line DEBUG JSON_parse line st = st.
Proof.
  unfold nonblank, process_line.
  destruct (trim line); [reflexivity|discriminate].
Qed.

Lemma process_line_nonblank line st :
  nonblank line = true ->
  process_line DEBUG JSON_parse line st =
  match JSON_parse line with
  | None => log_error (invalid_json_message line) st
  | Some _ =>
      match dispatch DEBUG line (sessions st)
              (debug_log DEBUG (lit "Targetly Adapter: OUTGOING: " ++ line) st) with
      | Returned st' => st'
      | Thrown st' => log_error (invalid_json_message line) st'
      end
  end.
Proof.
  unfold nonblank, process_line.
  destruct (trim line); [discriminate|reflexivity].
Qed.

(** A line that does not parse only adds an entry to the error log. *)
Lemma process_line_invalid line st :
  nonblank line = true -> JSON_parse line = None ->
  process_line DEBUG JSON_parse line st = log_error (invalid_json_message line) st.
Proof. intros Hb Hp. rewrite (process_line_nonblank _ _ Hb), Hp. reflexivity. Qed.

Lemma same_frame_log_error msg st : same_frame st (log_error msg st).
Proof. repeat split. Qed.

(** What processing a line never touches, and the streams it leaves
    alone: those not registered. *)
Lemma process_line_frame line st :
  let st' := process_line DEBUG JSON_parse line st in
  same_frame st st'
  /\ buffer st' = buffer st
  /\ (forall h, ~ In h (map snd (sessions st)) -> written st' h = written st h).
Proof.
  destruct (nonblank line) eqn:Hb.
  2:{ rewrite (process_line_blank _ _ Hb). cbv zeta.
      split; [apply same_frame_refl|]. auto. }
  rewrite (process_line_nonblank _ _ Hb).
  destruct (JSON_parse line) as [v|].
  2:{ cbv zeta. split; [apply same_frame_log_error|]. auto. }
  set (st1 := debug_log DEBUG _ st).
  destruct (dispatch_frame DEBUG line (sessions st) st1) as (F & B & _ & Wr).
  assert (F1 : same_frame st st1) by apply same_frame_debug_log.
  assert (B1 : buffer st1 = buffer st) by apply buffer_debug_log.
  assert (W1 : forall h, written st1 h = written st h)
    by (intro h; apply written_debug_log).
  destruct (dispatch DEBUG line (sessions st) st1) as [st'|st']; simpl in *.
  - split; [eapply same_frame_trans; eassumption|].
    split; [congruence|]. intros h Hn. rewrite Wr by exact Hn. apply W1.
  - split; [eapply same_frame_trans; [eassumption|]; eapply same_frame_trans;
            [eassumption|apply same_frame_log_error]|].
    split; [congruence|]. intros h Hn.
    change (written (log_error (invalid_json_message line) st') h)
      with (written st' h).
    rewrite Wr by exact Hn. apply W1.
Qed.

(** In a registry of allocated responses, a line reaches the open
    streams exactly when it is not blank and parses. *)
Lemma process_line_written line st h :
  all_allocated st = true ->
  written (process_line DEBUG JSON_parse line st) h =
  written st h ++
    (if writable st h then
       if nonblank line && valid_json JSON_parse line
       then line_events line (map snd (sessions st)) h else []
     else []).
Proof.
  intro Hall. destruct (nonblank line) eqn:Hb; cbn [andb].
  2:{ rewrite (process_line_blank _ _ Hb). destruct (writable st h);
      rewrite app_nil_r; reflexivity. }
  rewrite (process_line_nonblank _ _ Hb). unfold valid_json.
  destruct (JSON_parse line) as [v|].
  2:{ destruct (writable st h); rewrite app_nil_r; reflexivity. }
  set (st1 := debug_log DEBUG _ st).
  destruct (same_frame_debug_log DEBUG (lit "Targetly Adapter: OUTGOING: " ++ line) st)
    as (_ & _ & _ & L & F).
  destruct (dispatch_delivers DEBUG line (sessions st) st1) as (st' & R & Wr).
  { rewrite <- Hall. unfold all_allocated. apply forallb_pointwise.
    intro x. apply allocated_same_length. exact L. }
  rewrite R, Wr, F. unfold st1. rewrite written_debug_log. reflexivity.
Qed.

Lemma all_allocated_same_frame st st' :
  same_frame st st' -> all_allocated st' = all_allocated st.
Proof.
  intros (S1 & _ & _ & L & _). unfold all_allocated. rewrite S1.
  apply forallb_pointwise. intro x. apply allocated_same_length. exact L.
Qed.

Lemma process_lines_frame lines : forall st,
  let st' := process_lines DEBUG JSON_parse lines st in
  same_frame st st'
  /\ buffer st' = buffer st
  /\ (forall h, ~ In h (map snd (sessions st)) -> written st' h = written st h).
Proof.
  induction lines as [|line rest IH]; intro st.
  - simpl. split; [apply same_frame_refl|]. auto.
  - simpl.
    destruct (process_line_frame line st) as (F1 & B1 & W1).
    destruct (IH (process_line DEBUG JSON_parse line st)) as (F2 & B2 & W2).
    split; [eapply same_frame_trans; eassumption|].
    split; [congruence|].
    intros h Hn. rewrite W2, W1; try exact Hn; try reflexivity.
    destruct F1 as (S1 & _). rewrite S1. exact Hn.
Qed.

(** The events a batch of lines puts on the stream [h]. *)
Lemma process_lines_written lines h : forall st,
  all_allocated st = true ->
  written (process_lines DEBUG JSON_parse lines st) h =
  written st h ++
    (if writable st h then
       flat_map (fun line => line_events line (map snd (sessions st)) h)
         (filter (valid_json JSON_parse) (filter nonblank lines))
     else []).
Proof.
  induction lines as [|line rest IH]; intros st Hall.
  - simpl. destruct (writable st h); rewrite app_nil_r; reflexivity.
  - unfold process_lines in *. simpl fold_left.
    destruct (process_line_frame line st) as (F1 & _ & _).
    rewrite IH by (rewrite (all_allocated_same_frame _ _ F1); exact Hall).
    rewrite (process_line_written _ _ _ Hall).
    destruct F1 as (S1 & _ & _ & _ & W1). rewrite S1, W1.
    rewrite <- app_assoc. f_equal.
    destruct (writable st h); [|reflexivity].
    simpl filter. destruct (nonblank line); simpl; [|reflexivity].
    destruct (valid_json JSON_parse line); reflexivity.
Qed.

Lemma on_stdout_text_frames chunk st :
  on_stdout_text DEBUG JSON_parse chunk st =
  process_lines DEBUG JSON_parse (snd (frame (buffer st) chunk))
    (set_buffer (fst (frame (buffer st) chunk)) st).
Proof. reflexivity. Qed.

Lemma on_stdout_text_frame chunk st :
  let st' := on_stdout_text DEBUG JSON_parse chunk st in
  same_frame st st'
  /\ buffer st' = fst (frame (buffer st) chunk)
  /\ (forall h, ~ In h (map snd (sessions st)) -> written st' h = written st h).
Proof.
  rewrite on_stdout_text_frames.
  destruct (process_lines_frame (snd (frame (buffer st) chunk))
              (set_buffer (fst (frame (buffer st) chunk)) st)) as (F & B & W).
  cbv zeta. split; [|split].
  - eapply same_frame_trans; [|exact F]. repeat split.
  - rewrite B. reflexivity.
  - intros h Hn. rewrite W by exact Hn. reflexivity.
Qed.

Lemma run_text_cons chunk rest st :
  run_text DEBUG JSON_parse (chunk :: rest) st =
  run_text DEBUG JSON_parse rest (on_stdout_text DEBUG JSON_parse chunk st).
Proof. reflexivity. Qed.

Lemma run_text_frame chunks : forall st,
  let st' := run_text DEBUG JSON_parse chunks st in
  same_frame st st'
  /\ buffer st' = framer_pending (buffer st) chunks
  /\ (forall h, ~ In h (map snd (sessions st)) -> written st' h = written st h).
Proof.
  induction chunks as [|chunk rest IH]; intro st.
  - simpl. split; [apply same_frame_refl|]. auto.
  - destruct (on_stdout_text_frame chunk st) as (F1 & B1 & W1).
    destruct (IH (on_stdout_text DEBUG JSON_parse chunk st)) as (F2 & B2 & W2).
    cbv zeta. rewrite run_text_cons.
    split; [eapply same_frame_trans; eassumption|].
    split.
    + rewrite B2, B1, framer_pending_cons. reflexivity.
    + intros h Hn. rewrite W2, W1; try exact Hn; try reflexivity.
      destruct F1 as (S1 & _). rewrite S1. exact Hn.
Qed.

(** The events a sequence of texts puts on the stream [h]: one per line
    the framer emits that parses, in the order of the lines. *)
Lemma run_text_written chunks h : forall st,
  all_allocated st = true ->
  written (run_text DEBUG JSON_parse chunks st) h =
  written st h ++
    (if writable st h then
       flat_map (fun line => line_events line (map snd (sessions st)) h)
         (filter (valid_json JSON_parse) (framer_emits (buffer st) chunks))
     else []).
Proof.
  induction chunks as [|chunk rest IH]; intros st Hall.
  - simpl. destruct (writable st h); rewrite app_nil_r; reflexivity.
  - destruct (on_stdout_text_frame chunk st) as (F1 & B1 & _).
    rewrite run_text_cons.
    rewrite IH by (rewrite (all_allocated_same_frame _ _ F1); exact Hall).
    rewrite B1. destruct F1 as (S1 & _ & _ & _ & W1). rewrite S1, W1.
    rewrite on_stdout_text_frames, process_lines_written by exact Hall.
    change (sessions (set_buffer (fst (frame (buffer st) chunk)) st))
      with (sessions st).
    change (written (set_buffer (fst (frame (buffer st) chunk)) st) h)
      with (written st h).
    change (writable (set_buffer (fst (frame (buffer st) chunk)) st) h)
      with (writable st h).
    rewrite <- app_assoc. f_equal.
    destruct (writable st h); [|reflexivity].
    rewrite framer_emits_cons, filter_app, flat_map_app. reflexivity.
Qed.

(** The handler on byte chunks is the handler on their decoded texts. *)
Lemma run_stdout_text chunks : forall st,
  run_stdout DEBUG JSON_parse chunks st =
  run_text DEBUG JSON_parse (map toString chunks) st.
Proof.
  induction chunks as [|chunk rest IH]; intro st; [reflexivity|].
  simpl map. rewrite run_text_cons. rewrite <- IH. reflexivity.
Qed.

End StdoutFacts.

(** ** The session registry *)

Lemma nodup_nat_iff l : nodup_nat l = true <-> NoDup l.
Proof.
  induction l as [|x r IH]; simpl.
  - split; [constructor|reflexivity].
  - rewrite andb_true_iff, negb_true_iff, IH. split.
    + intros [H1 H2]. constructor; [|exact H2].
      apply existsb_eqb_false_not_in. exact H1.
    + intro H. inversion H as [|? ? Hn Hr]; subst. split; [|exact Hr].
      destruct (existsb (Nat.eqb x) r) eqn:E; [|reflexivity].
      apply existsb_exists in E as (y & Hy & Hxy).
      apply Nat.eqb_eq in Hxy. subst y. contradiction.
Qed.

Lemma nodup_keys_iff l : nodup_keys l = true <-> NoDup l.
Proof.
  induction l as [|x r IH]; simpl.
  - split; [constructor|reflexivity].
  - rewrite andb_true_iff, negb_true_iff, IH. split.
    + intros [H1 H2]. constructor; [|exact H2].
      intro Hin. assert (existsb (str_eqb x) r = true); [|congruence].
      apply existsb_exists. exists x. split; [exact Hin|apply str_eqb_refl].
    + intro H. inversion H as [|? ? Hn Hr]; subst. split; [|exact Hr].
      destruct (existsb (str_eqb x) r) eqn:E; [|reflexivity].
      apply existsb_exists in E as (y & Hy & Hxy).
      apply str_eqb_eq in Hxy. subst y. contradiction.
Qed.

(** Well-formedness, spelled out. *)
Lemma registry_wf_iff st :
  registry_wf st = true <->
  NoDup (map fst (sessions st))
  /\ (forall k, In k (map fst (sessions st)) -> truthy k = true)
  /\ NoDup (map snd (sessions st))
  /\ (forall h, In h (map snd (sessions st)) -> (h < List.length (heap st))%nat).
Proof.
  unfold registry_wf.
  rewrite !andb_true_iff, nodup_keys_iff, nodup_nat_iff, !forallb_forall.
  split.
  - intros (((A & B) & C) & D). repeat split; auto.
    intros h Hh. apply Nat.ltb_lt. auto.
  - intros (A & B & C & D). repeat split; auto.
    intros h Hh. apply Nat.ltb_lt. auto.
Qed.

Lemma map_get_in k m h : map_get k m = Some h -> In (k, h) m.
Proof.
  induction m as [|[k' v] r IH]; simpl; [discriminate|].
  destruct (str_eqb k k') eqn:E.
  - apply str_eqb_eq in E. intro H. inversion H; subst. left. reflexivity.
  - intro H. right. exact (IH H).
Qed.

Lemma map_has_in k m : map_has k m = true -> In k (map fst m).
Proof.
  unfold map_has. destruct (map_get k m) as [h|] eqn:E; [|discriminate].
  intros _. apply map_get_in in E. apply (in_map fst) in E. exact E.
Qed.

Lemma in_map_has k h m : In (k, h) m -> map_has k m = true.
Proof.
  unfold map_has. induction m as [|[k' v] r IH]; simpl; [tauto|].
  intros [H|H].
  - inversion H; subst. rewrite str_eqb_refl. reflexivity.
  - destruct (str_eqb k k'); [reflexivity|]. exact (IH H).
Qed.


Lemma map_set_keys k v m :
  map fst (map_set k v m) =
  if map_has k m then map fst m else map fst m ++ [k].
Proof.
  unfold map_has. induction m as [|[k' v'] r IH]; simpl; [reflexivity|].
  destruct (str_eqb k k') eqn:E; simpl.
  - apply str_eqb_eq in E. subst. reflexivity.
  - rewrite IH. destruct (map_get k r); reflexivity.
Qed.

Lemma map_set_handles_in k v m x :
  In x (map snd (map_set k v m)) -> x = v \/ In x (map snd m).
Proof.
  induction m as [|[k' v'] r IH]; simpl.
  - intros [H|[]]. left. congruence.
  - destruct (str_eqb k k'); simpl.
    + intros [H|H]; [left; congruence|right; right; exact H].
    + intros [H|H]; [right; left; exact H|].
      destruct (IH H); [left|right; right]; assumption.
Qed.

Lemma map_set_handles_nodup k v m :
  NoDup (map snd m) -> ~ In v (map snd m) -> NoDup (map snd (map_set k v m)).
Proof.
  induction m as [|[k' v'] r IH]; simpl; intros Hnd Hv.
  - constructor; [tauto|constructor].
  - inversion Hnd as [|? ? Hn Hr]; subst.
    destruct (str_eqb k k'); simpl.
    + constructor; [tauto|exact Hr].
    + constructor; [|apply IH; tauto].
      intro Hin. apply map_set_handles_in in Hin. destruct Hin; [subst|]; tauto.
Qed.

Lemma map_delete_in k m e : In e (map_delete k m) -> In e m.
Proof.
  induction m as [|[k' v'] r IH]; simpl; [tauto|].
  destruct (str_eqb k k'); simpl; intuition.
Qed.

Lemma map_delete_in_fst k m x : In x (map fst (map_delete k m)) -> In x (map fst m).
Proof.
  intro H. apply in_map_iff in H as (e & <- & He).
  apply in_map. eapply map_delete_in. exact He.
Qed.

Lemma map_delete_in_snd k m x : In x (map snd (map_delete k m)) -> In x (map snd m).
Proof.
  intro H. apply in_map_iff in H as (e & <- & He).
  apply in_map. eapply map_delete_in. exact He.
Qed.

Lemma map_delete_nodup_fst k m :
  NoDup (map fst m) -> NoDup (map fst (map_delete k m)).
Proof.
  induction m as [|[k' v'] r IH]; simpl; intro H; [constructor|].
  inversion H as [|? ? Hn Hr]; subst.
  destruct (str_eqb k k'); simpl; [auto|].
  constructor; [|auto]. intro Hin. apply Hn. eapply map_delete_in_fst. exact Hin.
Qed.

Lemma map_delete_nodup_snd k m :
  NoDup (map snd m) -> NoDup (map snd (map_delete k m)).
Proof.
  induction m as [|[k' v'] r IH]; simpl; intro H; [constructor|].
  inversion H as [|? ? Hn Hr]; subst.
  destruct (str_eqb k k'); simpl; [auto|].
  constructor; [|auto]. intro Hin. apply Hn. eapply map_delete_in_snd. exact Hin.
Qed.

(** After [sessions.delete(k)] the key is gone. *)
Lemma map_has_delete k m : map_has k (map_delete k m) = false.
Proof.
  unfold map_has. induction m as [|[k' v'] r IH]; simpl; [reflexivity|].
  destruct (str_eqb k k') eqn:E; simpl; [exact IH|]. rewrite E. exact IH.
Qed.

(** Deleting a session also takes its response out of the registry, as
    no other session shares it. *)
Lemma map_delete_handle_gone k h m :
  NoDup (map snd m) -> In (k, h) m -> ~ In h (map snd (map_delete k m)).
Proof.
  induction m as [|[k' v'] r IH]; simpl; intros Hnd Hin; [tauto|].
  inversion Hnd as [|? ? Hn Hr]; subst.
  destruct (str_eqb k k') eqn:E; simpl.
  - destruct Hin as [H|H].
    + inversion H; subst. intro Hc. apply Hn. eapply map_delete_in_snd. exact Hc.
    + apply IH; assumption.
  - destruct Hin as [H|H].
    + inversion H; subst. rewrite str_eqb_refl in E. discriminate.
    + intros [Hc|Hc].
      * subst v'. apply Hn. apply (in_map snd) in H. exact H.
      * revert Hc. apply IH; assumption.
Qed.

(** Deleting a key leaves the other sessions registered. *)
Lemma map_delete_other k k' h m :
  k <> k' -> In (k', h) m -> In (k', h) (map_delete k m).
Proof.
  intro Hne. induction m as [|[k0 v0] r IH]; simpl; [tauto|].
  intros [H|H].
  - inversion H; subst. apply str_eqb_neq in Hne. rewrite Hne. left. reflexivity.
  - destruct (str_eqb k k0); [|right]; auto.
Qed.

Lemma registry_wf_same_frame st st' :
  same_frame st st' -> registry_wf st' = registry_wf st.
Proof.
  intros (S1 & _ & _ & L & _). unfold registry_wf. rewrite S1, L. reflexivity.
Qed.

Lemma registry_wf_initial : registry_wf initial = true.
Proof. reflexivity. Qed.

(** ** The HTTP handlers *)

Section HandlerFacts.

Variable DEBUG : bool.

Lemma nth_error_fresh {A} (l : list A) (x : A) :
  nth_error (l ++ [x]) (List.length l) = Some x.
Proof. induction l as [|y r IH]; simpl; [reflexivity|exact IH]. Qed.

Lemma nth_error_old {A} (l : list A) (x : A) h :
  (h < List.length l)%nat -> nth_error (l ++ [x]) h = nth_error l h.
Proof.
  revert h. induction l as [|y r IH]; intros [|h] H; simpl in *;
    try reflexivity; try lia.
  apply IH. lia.
Qed.

(** The GET handler returns: it allocates the response, registers it under
    the new identifier and writes the endpoint event on it. *)
Lemma get_sse_returns sessionId st :
  exists st',
    get_sse DEBUG sessionId st = Returned st'
    /\ sessions st' = map_set sessionId (List.length (heap st)) (sessions st)
    /\ written st' (List.length (heap st)) =
       sse_event (lit "endpoint") (lit "/messages?session_id=" ++ sessionId)
    /\ List.length (heap st') = S (List.length (heap st))
    /\ buffer st' = buffer st
    /\ child_stdin st' = child_stdin st
    /\ intervals st' = intervals st ++ [List.length (heap st)]
    /\ (forall h, (h < List.length (heap st))%nat ->
                  written st' h = written st h /\ writable st' h = writable st h).
Proof.
  unfold get_sse.
  set (res := List.length (heap st)).
  set (r3 := set_header _ _ (set_header _ _ (set_header _ _ _))).
  set (st3 := debug_log DEBUG _ _).
  assert (Hheap : heap st3 = heap st ++ [r3])
    by (unfold st3, debug_log; destruct DEBUG; reflexivity).
  assert (W3 : writable st3 res = true).
  { unfold writable. rewrite Hheap. unfold res. rewrite nth_error_fresh. reflexivity. }
  rewrite (res_write_writable _ _ _ W3). cbn [bind].
  rewrite res_write_writable by (rewrite writable_appended; exact W3). cbn [bind].
  eexists. split; [reflexivity|].
  set (d1 := lit "event: endpoint" ++ [NL]).
  set (d2 := lit "data: /messages?session_id=" ++ sessionId ++ [NL; NL]).
  assert (Hs : forall s, sessions (appended res d2 (appended res d1 s)) = sessions s)
    by reflexivity.
  split; [|split; [|split; [|split; [|split; [|split]]]]].
  - cbn [sessions set_intervals]. rewrite Hs. unfold st3, debug_log.
    destruct DEBUG; reflexivity.
  - change (written (set_intervals (intervals (appended res d2 (appended res d1 st3)) ++ [res])
                       (appended res d2 (appended res d1 st3))) res)
      with (written (appended res d2 (appended res d1 st3)) res).
    rewrite written_appended_same by (rewrite writable_appended; exact W3).
    rewrite (written_appended_same _ _ _ W3).
    unfold written. rewrite Hheap. unfold res. rewrite nth_error_fresh.
    reflexivity.
  - cbn [heap set_intervals appended set_heap].
    rewrite !update_nth_length, Hheap, length_app. simpl. lia.
  - cbn. unfold st3, debug_log. destruct DEBUG; reflexivity.
  - cbn. unfold st3, debug_log. destruct DEBUG; reflexivity.
  - cbn. unfold st3, debug_log. destruct DEBUG; reflexivity.
  - intros h Hh.
    assert (Hne : res <> h) by (unfold res; lia).
    split.
    + change (written (set_intervals (intervals (appended res d2 (appended res d1 st3)) ++ [res])
                         (appended res d2 (appended res d1 st3))) h)
        with (written (appended res d2 (appended res d1 st3)) h).
      rewrite !written_appended_other by exact Hne.
      unfold written. rewrite Hheap, (nth_error_old _ _ _ Hh). reflexivity.
    + change (writable (set_intervals (intervals (appended res d2 (appended res d1 st3)) ++ [res])
                         (appended res d2 (appended res d1 st3))) h)
        with (writable (appended res d2 (appended res d1 st3)) h).
      rewrite !writable_appended.
      unfold writable. rewrite Hheap, (nth_error_old _ _ _ Hh). reflexivity.
Qed.

Lemma registry_wf_get_sse sessionId st st' :
  truthy sessionId = true -> registry_wf st = true ->
  get_sse DEBUG sessionId st = Returned st' -> registry_wf st' = true.
Proof.
  intros Ht Hwf Hget.
  destruct (get_sse_returns sessionId st) as (st2 & R & S2 & _ & L & _).
  rewrite Hget in R. inversion R; subst st2. clear R.
  apply registry_wf_iff in Hwf as (K & T & H & B).
  apply registry_wf_iff. rewrite S2, L.
  assert (Hfresh : ~ In (List.length (heap st)) (map snd (sessions st))).
  { intro Hin. apply B in Hin. lia. }
  split; [|split; [|split]].
  - rewrite map_set_keys. destruct (map_has sessionId (sessions st)) eqn:E; [exact K|].
    apply NoDup_app; [exact K|repeat constructor; simpl; tauto|].
    intros k Hk [<-|[]]. apply in_map_iff in Hk as ([k' v] & Hk1 & Hk2).
    simpl in Hk1. subst k'. apply in_map_has in Hk2. congruence.
  - intro k. rewrite map_set_keys.
    destruct (map_has sessionId (sessions st)); [apply T|].
    intro Hin. apply in_app_or in Hin as [Hin|[<-|[]]]; [apply T|]; assumption.
  - apply map_set_handles_nodup; assumption.
  - intros h Hin. apply map_set_handles_in in Hin as [->|Hin]; [lia|].
    apply B in Hin. lia.
Qed.

Lemma registry_wf_on_close sessionId res st :
  registry_wf st = true -> registry_wf (on_close DEBUG sessionId res st) = true.
Proof.
  intro Hwf. apply registry_wf_iff in Hwf as (K & T & H & B).
  apply registry_wf_iff.
  assert (S1 : sessions (on_close DEBUG sessionId res st)
               = map_delete sessionId (sessions st))
    by (unfold on_close, debug_log; destruct DEBUG; reflexivity).
  assert (L1 : heap (on_close DEBUG sessionId res st) = heap st)
    by (unfold on_close, debug_log; destruct DEBUG; reflexivity).
  rewrite S1, L1. split; [|split; [|split]].
  - apply map_delete_nodup_fst. exact K.
  - intros k Hk. apply T. eapply map_delete_in_fst. exact Hk.
  - apply map_delete_nodup_snd. exact H.
  - intros h Hh. apply B. eapply map_delete_in_snd. exact Hh.
Qed.

(** The POST handler assigns neither the registry nor the responses. *)
Lemma post_messages_frame q body st :
  let st' := fst (post_messages DEBUG q body st) in
  sessions st' = sessions st /\ heap st' = heap st /\ buffer st' = buffer st.
Proof.
  unfold post_messages.
  destruct (query_falsy q || negb (sessions_has q (sessions st)));
    unfold debug_log; destruct DEBUG; repeat split.
Qed.

Lemma registry_wf_post q body st :
  registry_wf (fst (post_messages DEBUG q body st)) = registry_wf st.
Proof.
  destruct (post_messages_frame q body st) as (S1 & H1 & _).
  unfold registry_wf. rewrite S1, H1. reflexivity.
Qed.

End HandlerFacts.

(** The keep-alive write leaves everything but the stream alone. *)
Lemma on_ping_frame res st : same_frame st (state_of (on_ping res st)).
Proof.
  unfold on_ping.
  destruct (writable st res) eqn:W; [|destruct (allocated st res) eqn:A].
  - rewrite (res_write_writable _ _ _ W). apply same_frame_appended.
  - rewrite (res_write_destroyed _ _ _ A W). apply same_frame_refl.
  - rewrite (res_write_unallocated _ _ _ A). apply same_frame_refl.
Qed.

Lemma on_ping_buffer res st : buffer (state_of (on_ping res st)) = buffer st.
Proof.
  unfold on_ping.
  destruct (writable st res) eqn:W; [|destruct (allocated st res) eqn:A].
  - rewrite (res_write_writable _ _ _ W). reflexivity.
  - rewrite (res_write_destroyed _ _ _ A W). reflexivity.
  - rewrite (res_write_unallocated _ _ _ A). reflexivity.
Qed.

(** The registry of every reachable state is well formed. *)
Lemma reachable_registry_wf DEBUG JSON_parse st :
  reachable DEBUG JSON_parse st -> registry_wf st = true.
Proof.
  induction 1 as [|st st' Hr IH Hstep]; [reflexivity|].
  destruct Hstep.
  - destruct (on_stdout_text_frame DEBUG JSON_parse (toString chunk) st) as (F & _).
    unfold on_stdout_data. rewrite (registry_wf_same_frame _ _ F). exact IH.
  - eapply registry_wf_get_sse; eassumption.
  - pose proof (on_ping_frame res st) as F. rewrite H0 in F. cbn [state_of] in F.
    rewrite (registry_wf_same_frame _ _ F). exact IH.
  - apply registry_wf_on_close. exact IH.
  - rewrite registry_wf_post. exact IH.
  - unfold registry_wf, break_stream in *. simpl. rewrite update_nth_length. exact IH.
Qed.

(** ** [JSON.stringify] writes no line break *)

Lemma in_join c sep : forall l,
  In c (join sep l) -> In c sep \/ exists x, In x l /\ In c x.
Proof.
  induction l as [|x r IH]; simpl; [tauto|].
  destruct r as [|y r'].
  - intro H. right. exists x. tauto.
  - intro H. apply in_app_or in H as [H|H].
    + right. exists x. tauto.
    + apply in_app_or in H as [H|H]; [tauto|].
      destruct (IH H) as [H'|(z & Hz & Hc)]; [tauto|].
      right. exists z. tauto.
Qed.

Lemma hex_digit_not_nl n : hex_digit n <> NL.
Proof. unfold hex_digit, NL. destruct (n <? 10); lia. Qed.

Lemma quote_unit_no_nl c : ~ In NL (quote_unit c).
Proof.
  unfold quote_unit, NL.
  repeat match goal with
         | |- context [if ?b then _ else _] => destruct b eqn:?
         end;
    try (simpl; intuition discriminate).
  - unfold unicode_escape. simpl.
    intros [H|[H|[H|[H|[H|[H|[]]]]]]]; try discriminate;
      revert H; apply hex_digit_not_nl.
  - simpl. intros [H|[]]. subst c. discriminate.
Qed.

Lemma quote_body_no_nl_bounded : forall n s,
  (List.length s <= n)%nat -> ~ In NL (quote_body s).
Proof.
  induction n as [|n IH]; intros [|c r] Hlen; simpl in *; try tauto; try lia.
  assert (Hr : ~ In NL (quote_body r)) by (apply IH; lia).
  assert (Hu : ~ In NL (quote_unit c)) by apply quote_unit_no_nl.
  destruct (is_high_surrogate c) eqn:Hc.
  - destruct r as [|d r']; [exact Hu|].
    destruct (is_low_surrogate d) eqn:Hd.
    + unfold is_high_surrogate, is_low_surrogate in *.
      apply andb_true_iff in Hc as [Hc _]. apply andb_true_iff in Hd as [Hd _].
      apply N.leb_le in Hc, Hd. unfold NL.
      intros [H|[H|H]]; try lia.
      revert H. apply IH. simpl in Hlen. lia.
    + intro H. apply in_app_or in H. tauto.
  - intro H. apply in_app_or in H. tauto.
Qed.

Lemma quote_no_nl s : ~ In NL (quote s).
Proof.
  unfold quote. intros [H|H]; [discriminate|].
  apply in_app_or in H as [H|[H|[]]]; [|discriminate].
  revert H. apply (quote_body_no_nl_bounded (List.length s)). lia.
Qed.

Lemma number_no_nl r : ~ In NL (map numchar_code r).
Proof.
  intro H. apply in_map_iff in H as (c & Hc & _).
  unfold NL, numchar_code in Hc. destruct c as [d| | | |]; try discriminate.
  pose proof (N.le_0_l (d mod 10)). lia.
Qed.

(** The serialization of a value has no newline in it: line breaks inside
    strings are written as escapes. *)
Lemma stringify_no_newline : forall v, ~ In NL (stringify v).
Proof.
  induction v as [|b|r|s|l IH|kvs IH] using JSValue_nested_ind.
  - simpl. intuition discriminate.
  - destruct b; simpl; intuition discriminate.
  - apply number_no_nl.
  - apply quote_no_nl.
  - simpl. intros [H|H]; [discriminate|].
    apply in_app_or in H as [H|[H|[]]]; [|discriminate].
    apply in_join in H as [[H|[]]|(x & Hx & Hc)]; [discriminate|].
    apply in_map_iff in Hx as (v & <- & Hv).
    rewrite Forall_forall in IH. exact (IH v Hv Hc).
  - simpl. intros [H|H]; [discriminate|].
    apply in_app_or in H as [H|[H|[]]]; [|discriminate].
    apply in_join in H as [[H|[]]|(x & Hx & Hc)]; [discriminate|].
    apply in_map_iff in Hx as (kv & <- & Hkv).
    change (In NL (quote (fst kv) ++ 58 :: stringify (snd kv))) in Hc.
    apply in_app_or in Hc as [Hc|[Hc|Hc]].
    + revert Hc. apply quote_no_nl.
    + discriminate.
    + rewrite Forall_forall in IH. exact (IH kv Hkv Hc).
Qed.

(** ** Lines of a text *)

Lemma split_line sep (a r : jsstring) :
  ~ In sep a -> split sep (a ++ sep :: r) = a :: split sep r.
Proof.
  induction a as [|c a IH]; intro H.
  - apply split_cons_sep.
  - simpl app. simpl split.
    destruct (c =? sep) eqn:E.
    + apply N.eqb_eq in E. exfalso. apply H. left. exact E.
    + rewrite IH by (simpl in H; tauto). reflexivity.
Qed.

(** The terminated lines of a text are the segments of its split but the
    last, and the unterminated tail is the last segment. *)
Lemma lines_from_split text : forall current,
  ~ In NL current ->
  lines_from current text = removelast (split NL (rev current ++ text))
  /\ tail_from current text = last (split NL (rev current ++ text)) [].
Proof.
  induction text as [|c rest IH]; intros current Hc.
  - assert (Hr : ~ In NL (rev current ++ []))
      by (rewrite app_nil_r, <- in_rev; exact Hc).
    rewrite (split_no_sep _ _ Hr). simpl. rewrite app_nil_r. split; reflexivity.
  - simpl lines_from. simpl tail_from.
    destruct (c =? NL) eqn:E.
    + apply N.eqb_eq in E. subst c.
      rewrite split_line by (rewrite <- in_rev; exact Hc).
      rewrite (removelast_cons_nonempty _ _ (split_nonempty NL rest)).
      rewrite (last_cons_nonempty _ _ _ (split_nonempty NL rest)).
      destruct (IH [] (fun H => H)) as [L T]. simpl app in L, T.
      rewrite L, T. split; reflexivity.
    + destruct (IH (c :: current)) as [L T].
      { intros [H|H]; [|exact (Hc H)]. apply N.eqb_neq in E. congruence. }
      simpl rev in L, T. rewrite <- app_assoc in L, T. simpl app in L, T.
      split; assumption.
Qed.

Lemma terminated_lines_split text :
  terminated_lines text = removelast (split NL text).
Proof. apply (lines_from_split text [] (fun H => H)). Qed.

Lemma unterminated_tail_split text :
  unterminated_tail text = last (split NL text) [].
Proof. apply (lines_from_split text [] (fun H => H)). Qed.

Lemma unterminated_tail_no_newline text : ~ In NL (unterminated_tail text).
Proof. rewrite unterminated_tail_split. apply split_last_no_sep. Qed.

(** The lines of two texts in a row: those of the first, then those of
    the second behind the tail the first has left. *)
Lemma terminated_lines_app (a b : jsstring) :
  terminated_lines (a ++ b) =
  terminated_lines a ++ terminated_lines (unterminated_tail a ++ b).
Proof.
  rewrite !terminated_lines_split, unterminated_tail_split, split_app.
  apply removelast_app, split_nonempty.
Qed.

Lemma unterminated_tail_app (a b : jsstring) :
  unterminated_tail (a ++ b) = unterminated_tail (unterminated_tail a ++ b).
Proof.
  rewrite !unterminated_tail_split, split_app.
  apply last_app_nonempty, split_nonempty.
Qed.

(** The check [!line.trim()] holds for the lines of white space only. *)
Lemma nonblank_whitespace_only line : nonblank line = negb (whitespace_only line).
Proof.
  unfold nonblank, whitespace_only.
  destruct (trim line) as [|c r] eqn:E.
  - apply trim_nil_iff in E. rewrite E. reflexivity.
  - destruct (forallb is_ws line) eqn:F; [|reflexivity].
    apply trim_nil_iff in F. congruence.
Qed.

Lemma filter_deliverable JSON_parse (lines : list jsstring) :
  filter (valid_json JSON_parse) (filter nonblank lines) =
  filter (deliverable JSON_parse) lines.
Proof.
  induction lines as [|l r IH]; [reflexivity|].
  simpl. unfold deliverable at 1. rewrite <- nonblank_whitespace_only.
  destruct (nonblank l); simpl; [|exact IH].
  destruct (valid_json JSON_parse l); rewrite IH; reflexivity.
Qed.

Lemma message_events_app JSON_parse (a b : jsstring) :
  message_events JSON_parse (a ++ b) =
  message_events JSON_parse a ++
  message_events JSON_parse (unterminated_tail a ++ b).
Proof.
  unfold message_events.
  rewrite terminated_lines_app, filter_app, flat_map_app. reflexivity.
Qed.

(** The framer against the lines of the whole text. *)
Lemma framer_lines_of_text JSON_parse (texts : list jsstring) (buf : jsstring) :
  ~ In NL buf ->
  filter (valid_json JSON_parse) (framer_emits buf texts) =
    filter (deliverable JSON_parse) (terminated_lines (buf ++ List.concat texts))
  /\ framer_pending buf texts = unterminated_tail (buf ++ List.concat texts).
Proof.
  intro Hb. unfold framer_emits, framer_pending.
  rewrite (framer_split texts buf Hb). cbn [fst snd].
  rewrite filter_deliverable, terminated_lines_split, unterminated_tail_split.
  split; reflexivity.
Qed.

Lemma registry_wf_all_allocated st : registry_wf st = true -> all_allocated st = true.
Proof.
  unfold registry_wf. intro H. apply andb_true_iff in H as [_ H]. exact H.
Qed.

(** Two sessions of a well-formed registry do not share a response. *)
Lemma registry_wf_distinct st a b ra rb :
  registry_wf st = true ->
  In (a, ra) (sessions st) -> In (b, rb) (sessions st) -> a <> b -> ra <> rb.
Proof.
  intros Hwf Ha Hb Hne E. subst rb.
  apply registry_wf_iff in Hwf as (_ & _ & Hnd & _).
  revert Hnd Ha Hb. generalize (sessions st) as m.
  induction m as [|[k v] m IH]; simpl; intros Hnd Ha Hb; [tauto|].
  inversion Hnd as [|? ? Hn Hr]; subst.
  destruct Ha as [Ha|Ha], Hb as [Hb|Hb].
  - congruence.
  - inversion Ha; subst. apply Hn. apply (in_map snd) in Hb. exact Hb.
  - inversion Hb; subst. apply Hn. apply (in_map snd) in Ha. exact Ha.
  - exact (IH Hr Ha Hb).
Qed.

(** ** Properties of the bridge *)

(** For a registered stream, the events of a batch of lines are one
    [message] event per line. *)
Lemma registered_line_events (st : State) (sessionId : jsstring) (res : nat)
    (lines : list jsstring) :
  registry_wf st = true ->
  In (sessionId, res) (sessions st) ->
  flat_map (fun line => line_events line (map snd (sessions st)) res) lines =
  flat_map (sse_event (lit "message")) lines.
Proof.
  intros Hwf Hin. apply flat_map_ext. intro line.
  apply line_events_once.
  - apply registry_wf_iff in Hwf as (_ & _ & H & _). apply nodup_nat_iff. exact H.
  - apply (in_map snd) in Hin. exact Hin.
Qed.

Section Relay.

Variable DEBUG : bool.
Variable JSON_parse : jsstring -> option JSValue.

(** What a run of the stdout handler leaves alone, and the fragment it
    keeps. *)
Lemma run_stdout_frame (chunks : list (list N)) (st : State) :
  let st' := run_stdout DEBUG JSON_parse chunks st in
  same_frame st st'
  /\ (~ In NL (buffer st) -> buffer st' = unterminated_tail (buffer st ++ decoded chunks))
  /\ (forall h, ~ In h (map snd (sessions st)) -> written st' h = written st h).
Proof.
  cbv zeta. rewrite run_stdout_text.
  destruct (run_text_frame DEBUG JSON_parse (map toString chunks) st) as (F & B & W).
  split; [exact F|]. split; [|exact W].
  intro Hb. rewrite B.
  apply (framer_lines_of_text JSON_parse (map toString chunks) (buffer st) Hb).
Qed.

(** The events a run of the stdout handler puts on a registered stream:
    the [message] events of the deliverable lines of the text, while the
    stream is open, and nothing once it is destroyed. *)
Lemma run_stdout_delivers (chunks : list (list N)) (st : State)
    (sessionId : jsstring) (res : nat) :
  registry_wf st = true ->
  ~ In NL (buffer st) ->
  In (sessionId, res) (sessions st) ->
  written (run_stdout DEBUG JSON_parse chunks st) res =
  written st res ++
    (if writable st res
     then message_events JSON_parse (buffer st ++ decoded chunks) else []).
Proof.
  intros Hwf Hb Hin.
  rewrite run_stdout_text.
  rewrite (run_text_written DEBUG JSON_parse _ res st (registry_wf_all_allocated st Hwf)).
  rewrite (registered_line_events st sessionId res _ Hwf Hin).
  destruct (framer_lines_of_text JSON_parse (map toString chunks) (buffer st) Hb)
    as [E _].
  rewrite E. reflexivity.
Qed.

End Relay.

(** *** A lost connection *)

Lemma break_stream_written res st h : written (break_stream res st) h = written st h.
Proof.
  unfold written, break_stream. simpl.
  destruct (Nat.eq_dec res h) as [->|Hne].
  - rewrite nth_error_update_nth_eq. destruct (nth_error (heap st) h); reflexivity.
  - rewrite nth_error_update_nth_neq by exact Hne. reflexivity.
Qed.

Lemma break_stream_writable_same res st : writable (break_stream res st) res = false.
Proof.
  unfold writable, break_stream. simpl.
  rewrite nth_error_update_nth_eq. destruct (nth_error (heap st) res); reflexivity.
Qed.

Lemma break_stream_writable_other res st h :
  res <> h -> writable (break_stream res st) h = writable st h.
Proof.
  intro Hne. unfold writable, break_stream. simpl.
  rewrite nth_error_update_nth_neq by exact Hne. reflexivity.
Qed.

Lemma break_stream_registry_wf res st :
  registry_wf (break_stream res st) = registry_wf st.
Proof.
  unfold registry_wf, break_stream. simpl. rewrite update_nth_length. reflexivity.
Qed.

(** C1 fails on a line with a character of several bytes that a chunk
    boundary cuts: the handler decodes each chunk on its own
    ([buffer += chunk.toString()]), so the two parts of the character
    become U+FFFD each.  The child emits the valid JSON line [{"a":"€"}];
    the data of the one [message] event a session receives is another
    string. *)
Theorem C1_cut_character_is_not_relayed_verbatim :
  toString (euro_chunk_1 ++ euro_chunk_2) = euro_line ++ [NL]
  /\ valid_json Json.parse euro_line = true
  /\ written (run_stdout false Json.parse [euro_chunk_1; euro_chunk_2] two_sessions) 1 =
     written two_sessions 1 ++
       [lit "event: message" ++ [NL]; lit "data: " ++ damaged_line ++ [NL; NL]]
  /\ damaged_line <> euro_line.
Proof.
  split; [vm_compute; reflexivity|].
  split; [vm_compute; reflexivity|].
  split; [vm_compute; reflexivity|].
  intro H. vm_compute in H. discriminate.
Qed.

(** C2 fails where a chunk boundary falls inside a character: the framer
    decodes each chunk before it appends it, so the line it emits for the
    two chunks is not the line of the concatenated chunks, and the handler
    ends in another state than for the same bytes in one chunk. *)
Theorem C2_chunk_boundary_inside_a_character_changes_the_line :
  framer_emits [] (map toString [euro_chunk_1; euro_chunk_2]) = [damaged_line]
  /\ filter nonblank (split NL (toString (euro_chunk_1 ++ euro_chunk_2))) = [euro_line]
  /\ framer_emits [] (map toString [euro_chunk_1 ++ euro_chunk_2]) = [euro_line]
  /\ ~ Permutation
         (framer_emits [] (map toString [euro_chunk_1; euro_chunk_2]))
         (filter nonblank (split NL (toString (euro_chunk_1 ++ euro_chunk_2))))
  /\ written (run_stdout false Json.parse [euro_chunk_1; euro_chunk_2] two_sessions) 0
     <> written (run_stdout false Json.parse [euro_chunk_1 ++ euro_chunk_2]
                   two_sessions) 0.
Proof.
  split; [vm_compute; reflexivity|].
  split; [vm_compute; reflexivity|].
  split; [vm_compute; reflexivity|].
  split.
  - intro H. vm_compute in H.
    apply Permutation_length_1_inv in H. discriminate.
  - intro H. vm_compute in H. discriminate.
Qed.

Lemma terminated_lines_line (line rest : jsstring) :
  ~ In NL line ->
  terminated_lines (line ++ NL :: rest) = line :: terminated_lines rest.
Proof.
  intro H. rewrite !terminated_lines_split, (split_line _ _ _ H).
  apply removelast_cons_nonempty, split_nonempty.
Qed.

(** C3, as stated, fails for a line of white space: it does not parse as
    JSON, and it is dropped by the check [if (!line.trim()) continue]
    before the parse is tried, so nothing is logged. *)
Lemma C3_counterexample_blank_line_is_not_logged :
  ~ (Json.parse (lit "  ") = None ->
     In (invalid_json_message (lit "  "))
        (console_error
           (run_stdout false Json.parse [lit "  " ++ [NL]] two_sessions))).
Proof.
  intro H. specialize (H eq_refl). vm_compute in H. tauto.
Qed.

(** C3, amended.  A line that does not parse as JSON puts nothing on any
    response stream and leaves the registry, the buffer and the child's
    stdin alone; it is logged on the error stream unless it consists of
    white space only, in which case it is dropped silently; and the lines
    emitted after it are delivered: a registered open stream receives the
    [message] events of the deliverable lines that follow, in order. *)
Theorem C3_malformed_line_is_dropped
    (DEBUG : bool) (JSON_parse : jsstring -> option JSValue)
    (line : jsstring) (st : State) (sessionId : jsstring) (res : nat) :
  JSON_parse line = None ->
  ~ In NL line ->
  registry_wf st = true ->
  buffer st = [] ->
  In (sessionId, res) (sessions st) ->
  writable st res = true ->
  (forall h, written (process_line DEBUG JSON_parse line st) h = written st h)
  /\ sessions (process_line DEBUG JSON_parse line st) = sessions st
  /\ buffer (process_line DEBUG JSON_parse line st) = buffer st
  /\ child_stdin (process_line DEBUG JSON_parse line st) = child_stdin st
  /\ console_error (process_line DEBUG JSON_parse line st) =
       (if whitespace_only line then console_error st
        else console_error st ++ [invalid_json_message line])
  /\ (forall (chunks : list (list N)) (rest : jsstring),
        decoded chunks = line ++ NL :: rest ->
        written (run_stdout DEBUG JSON_parse chunks st) res =
        written st res ++ message_events JSON_parse rest).
Proof.
  intros Hp Hnl Hwf Hbuf Hin Hw.
  assert (E : process_line DEBUG JSON_parse line st =
              if whitespace_only line then st
              else log_error (invalid_json_message line) st).
  { pose proof (nonblank_whitespace_only line) as Hb.
    destruct (whitespace_only line); simpl in Hb.
    - apply process_line_blank. exact Hb.
    - apply process_line_invalid; assumption. }
  rewrite E.
  split; [destruct (whitespace_only line); reflexivity|].
  split; [destruct (whitespace_only line); reflexivity|].
  split; [destruct (whitespace_only line); reflexivity|].
  split; [destruct (whitespace_only line); reflexivity|].
  split; [destruct (whitespace_only line); reflexivity|].
  intros chunks rest Hd.
  rewrite (run_stdout_delivers DEBUG JSON_parse chunks st sessionId res Hwf)
    by first [exact Hin | rewrite Hbuf; simpl; tauto].
  rewrite Hw, Hbuf, Hd. simpl app at 2.
  unfold message_events. rewrite (terminated_lines_line _ _ Hnl).
  simpl filter. unfold deliverable at 1, valid_json at 1. rewrite Hp.
  rewrite andb_false_r. reflexivity.
Qed.

Lemma C3_malformed_line_witness :
  (forall h, written (process_line false Json.parse (lit "not-json") two_sessions) h
             = written two_sessions h)
  /\ console_error (process_line false Json.parse (lit "not-json") two_sessions) =
     [lit "Targetly Adapter: Invalid JSON from child: not-json"]
  /\ written
       (run_stdout false Json.parse
          [lit "not-json" ++ [NL] ++ ping_message ++ [NL] ++ lit " " ++ [NL]
           ++ lit "[1]" ++ [NL]] two_sessions) 1 =
     written two_sessions 1 ++
       [lit "event: message" ++ [NL]; lit "data: " ++ ping_message ++ [NL; NL];
        lit "event: message" ++ [NL]; lit "data: [1]" ++ [NL; NL]].
Proof.
  destruct (C3_malformed_line_is_dropped false Json.parse (lit "not-json")
              two_sessions id_b 1) as (H1 & _ & _ & _ & H5 & H6).
  - vm_compute. reflexivity.
  - vm_compute. intro H. repeat (destruct H as [H|H]; [discriminate|]). exact H.
  - vm_compute. reflexivity.
  - vm_compute. reflexivity.
  - right. left. reflexivity.
  - vm_compute. reflexivity.
  - split; [exact H1|]. split.
    + rewrite H5. vm_compute. reflexivity.
    + rewrite (H6 _ (ping_message ++ [NL] ++ lit " " ++ [NL] ++ lit "[1]" ++ [NL]))
        by (vm_compute; reflexivity).
      vm_compute. reflexivity.
Defined.

(** ** The POST path *)

Section PostFacts.

Variable DEBUG : bool.

Lemma session_accepted sessionId st :
  registry_wf st = true -> map_has sessionId (sessions st) = true ->
  query_falsy (QString sessionId)
  || negb (sessions_has (QString sessionId) (sessions st)) = false.
Proof.
  intros Hwf Hhas. apply registry_wf_iff in Hwf as (_ & T & _).
  simpl. rewrite Hhas, (T _ (map_has_in _ _ Hhas)). reflexivity.
Qed.

(** The accepting branch of the handler. *)
Lemma post_messages_accepts sessionId body st :
  registry_wf st = true -> map_has sessionId (sessions st) = true ->
  post_messages DEBUG (QString sessionId) body st =
  (stdin_write (body_text body ++ [NL])
     (debug_log DEBUG (lit "Targetly Adapter: INCOMING: " ++ body_text body) st),
   mkHttpResponse 202 (lit "Accepted")).
Proof.
  intros Hwf Hhas. unfold post_messages.
  rewrite (session_accepted _ _ Hwf Hhas). reflexivity.
Qed.

(** The rejecting branch of the handler. *)
Lemma post_messages_rejects q body st :
  q = QUndefined \/ sessions_has q (sessions st) = false ->
  post_messages DEBUG q body st =
  (debug_log DEBUG (lit "Targetly Adapter: Invalid session_id: " ++ query_to_string q) st,
   mkHttpResponse 400 (lit "Invalid or missing session_id")).
Proof.
  intro H. unfold post_messages.
  assert (E : query_falsy q || negb (sessions_has q (sessions st)) = true).
  { destruct H as [->|H]; [reflexivity|]. rewrite H. apply orb_true_r. }
  rewrite E. reflexivity.
Qed.

Lemma child_stdin_debug_log msg st :
  child_stdin (debug_log DEBUG msg st) = child_stdin st.
Proof. unfold debug_log. destruct DEBUG; reflexivity. Qed.

End PostFacts.

(** The parsing proper refuses with 400 only; reading the body can also
    refuse with 413 or 415. *)
Lemma body_parsers_rejects JSON_parse ct raw code :
  body_parsers JSON_parse ct raw = Rejected code -> code = 400.
Proof.
  destruct ct; simpl; [|discriminate].
  unfold express_json. destruct raw as [|c raw]; [discriminate|].
  destruct (strict_first_char (c :: raw)); [|intro E; inversion E; reflexivity].
  destruct (JSON_parse (c :: raw)); [discriminate|intro E; inversion E; reflexivity].
Qed.

Lemma read_body_rejects JSON_parse unread_body req code :
  read_body JSON_parse unread_body req = Rejected code ->
  code = 400 \/ code = 413 \/ code = 415.
Proof.
  unfold read_body.
  destruct (req_has_body req); simpl; [|discriminate].
  destruct (req_content_type req) as [ct|]; [|discriminate].
  destruct (req_encoding_supported req); simpl;
    [|intro E; inversion E; auto].
  destruct (req_charset_supported req); simpl;
    [|intro E; inversion E; auto].
  destruct (BODY_LIMIT <? req_bytes req); [intro E; inversion E; auto|].
  intro E. left. exact (body_parsers_rejects _ _ _ _ E).
Qed.

(** C4, as stated, fails for a body declared [application/json] that the
    [express.json()] parser in front of the route refuses: the request is
    answered 400 and the handler, hence the child, never sees it.  Here the
    body is a JSON-RPC message cut short. *)
Lemma C4_counterexample_rejected_by_body_parser :
  ~ (exists st' r,
       post_endpoint false Json.parse (QString id_a) CTJson
         (lit "{" ++ [DQ] ++ lit "jsonrpc" ++ [DQ] ++ lit ":") two_sessions
       = (st', Handled r)
       /\ status r = 202).
Proof.
  intros (st' & r & H & _). vm_compute in H. discriminate.
Qed.

(** C4, amended.  For every POST to [/messages] whose body the body
    parsers accepted and whose [session_id] is in the registry, exactly one
    chunk is written to the child's stdin: the body, re-serialized with
    [JSON.stringify] when it was parsed into an object or array and as
    received when it is text, followed by one newline; the response has
    status 202. *)
Theorem C4_post_forwards_body_as_one_line
    (DEBUG : bool) (JSON_parse : jsstring -> option JSValue)
    (st : State) (sessionId : jsstring) (ct : ContentType) (raw : jsstring)
    (body : JSValue) :
  registry_wf st = true ->
  map_has sessionId (sessions st) = true ->
  body_parsers JSON_parse ct raw = Body body ->
  exists st',
    post_endpoint DEBUG JSON_parse (QString sessionId) ct raw st
      = (st', Handled (mkHttpResponse 202 (lit "Accepted")))
    /\ child_stdin st' =
       child_stdin st ++
         [(if typeof_object body then stringify body else to_string body) ++ [NL]]
    /\ (ct = CTOther -> body = JString raw /\ to_string body = raw).
Proof.
  intros Hwf Hhas Hb. unfold post_endpoint. rewrite Hb.
  rewrite (post_messages_accepts DEBUG _ body _ Hwf Hhas).
  eexists. split; [reflexivity|]. split.
  - simpl. rewrite child_stdin_debug_log. reflexivity.
  - intros ->. simpl in Hb. unfold express_text in Hb.
    inversion Hb; subst. split; reflexivity.
Qed.

Lemma C4_post_witness :
  exists st',
    post_endpoint false Json.parse (QString id_a) CTJson ping_message two_sessions
      = (st', Handled (mkHttpResponse 202 (lit "Accepted")))
    /\ child_stdin st' = child_stdin two_sessions ++ [ping_message ++ [NL]].
Proof.
  destruct (C4_post_forwards_body_as_one_line false Json.parse two_sessions id_a
              CTJson ping_message
              (JObject [(lit "jsonrpc", JString (lit "2.0"));
                        (lit "id", JNumber [Digit 1]);
                        (lit "method", JString (lit "ping"))]))
    as (st' & H1 & H2 & _).
  - vm_compute. reflexivity.
  - vm_compute. reflexivity.
  - vm_compute. reflexivity.
  - exists st'. split; [exact H1|]. rewrite H2. vm_compute. reflexivity.
Defined.

(** C5, as stated, fails for a request that a body parser in front of
    the route refuses: the parser answers, the handler is not reached.
    Here a POST without [session_id] has a body in a charset the parsers
    do not support, and the answer is 415. *)
Lemma C5_counterexample_rejected_by_body_parser :
  ~ (result_status
       (snd (post_request false Json.parse (JObject []) QUndefined
               unknown_charset_request two_sessions)) = 400).
Proof. vm_compute. discriminate. Qed.

(** C5, amended.  A POST whose [session_id] is missing, or is not a key
    of the registry, writes nothing to the child's stdin; when it reaches
    the handler (the body parsers have accepted or skipped the body) the
    answer is 400 and the registry and the response streams are left
    alone; when a body parser refuses it the answer is the parser's: 400,
    413 or 415. *)
Theorem C5_unknown_session_rejected
    (DEBUG : bool) (JSON_parse : jsstring -> option JSValue) (unread_body : JSValue)
    (q : QueryVal) (body : JSValue) (req : PostRequest) (st : State) :
  q = QUndefined \/ sessions_has q (sessions st) = false ->
  snd (post_messages DEBUG q body st) =
    mkHttpResponse 400 (lit "Invalid or missing session_id")
  /\ child_stdin (fst (post_messages DEBUG q body st)) = child_stdin st
  /\ sessions (fst (post_messages DEBUG q body st)) = sessions st
  /\ heap (fst (post_messages DEBUG q body st)) = heap st
  /\ child_stdin (fst (post_request DEBUG JSON_parse unread_body q req st))
     = child_stdin st
  /\ (forall v, read_body JSON_parse unread_body req = Body v ->
        snd (post_request DEBUG JSON_parse unread_body q req st) =
        Handled (mkHttpResponse 400 (lit "Invalid or missing session_id")))
  /\ (forall code, read_body JSON_parse unread_body req = Rejected code ->
        snd (post_request DEBUG JSON_parse unread_body q req st) = ParserError code
        /\ (code = 400 \/ code = 413 \/ code = 415)).
Proof.
  intro H.
  assert (R : forall b, post_messages DEBUG q b st =
     (debug_log DEBUG (lit "Targetly Adapter: Invalid session_id: " ++ query_to_string q) st,
      mkHttpResponse 400 (lit "Invalid or missing session_id")))
    by (intro b; apply post_messages_rejects; exact H).
  rewrite R. cbn [fst snd status].
  assert (D : forall m, child_stdin (debug_log DEBUG m st) = child_stdin st
                        /\ sessions (debug_log DEBUG m st) = sessions st
                        /\ heap (debug_log DEBUG m st) = heap st)
    by (intro m; unfold debug_log; destruct DEBUG; repeat split).
  destruct (D (lit "Targetly Adapter: Invalid session_id: " ++ query_to_string q))
    as (D1 & D2 & D3).
  split; [reflexivity|]. split; [exact D1|]. split; [exact D2|]. split; [exact D3|].
  unfold post_request. split; [|split].
  - destruct (read_body JSON_parse unread_body req) as [code|v]; [reflexivity|].
    rewrite R. exact D1.
  - intros v E. rewrite E, R. reflexivity.
  - intros code E. rewrite E. split; [reflexivity|].
    exact (read_body_rejects _ _ _ _ E).
Qed.

Lemma C5_unknown_session_witness :
  snd (post_request false Json.parse (JObject []) (QString (lit "no-such-session"))
         text_request two_sessions) =
  Handled (mkHttpResponse 400 (lit "Invalid or missing session_id"))
  /\ child_stdin
       (fst (post_request false Json.parse (JObject []) (QString (lit "no-such-session"))
               text_request two_sessions)) = [].
Proof.
  destruct (C5_unknown_session_rejected false Json.parse (JObject [])
              (QString (lit "no-such-session")) (JString ping_message)
              text_request two_sessions) as (_ & _ & _ & _ & H5 & H6 & _).
  - right. vm_compute. reflexivity.
  - split.
    + exact (H6 (JString ping_message) eq_refl).
    + rewrite H5. vm_compute. reflexivity.
Defined.


(** C7, as stated, fails: a text body is forwarded as received, so a
    newline inside it lands in the middle of the chunk written to the
    child.  Here the body is the text [a\nb]. *)
Lemma C7_counterexample_newline_in_text_body :
  ~ (forall w,
       In w (child_stdin
               (fst (post_messages false (QString id_a)
                       (JString (lit "a" ++ [NL] ++ lit "b")) two_sessions))) ->
       exists m, w = m ++ [NL] /\ ~ In NL m).
Proof.
  intro H.
  destruct (H (lit "a" ++ [NL] ++ lit "b" ++ [NL])) as (m & Hm & Hn).
  - vm_compute. left. reflexivity.
  - change (lit "a" ++ [NL] ++ lit "b" ++ [NL])
      with ((lit "a" ++ [NL] ++ lit "b") ++ [NL]) in Hm.
    apply app_inj_tail in Hm as [<- _].
    apply Hn. vm_compute. right. left. reflexivity.
Qed.

(** C7, amended.  The POST handler writes to the child's stdin at most
    once, and what it writes is the body's text followed by one newline
    that the handler appends.  When the body was parsed into an object or
    array, the text is its [JSON.stringify] serialization, which contains
    no newline: the chunk then ends with exactly one newline and has none
    inside.  A text body is forwarded as received.  No other handler
    writes to the child's stdin. *)
Theorem C7_stdin_chunks_end_with_appended_newline
    (DEBUG : bool) (JSON_parse : jsstring -> option JSValue)
    (q : QueryVal) (body : JSValue) (st : State) :
  (child_stdin (fst (post_messages DEBUG q body st)) = child_stdin st
   \/ child_stdin (fst (post_messages DEBUG q body st)) =
      child_stdin st ++ [body_text body ++ [NL]])
  /\ (typeof_object body = true ->
      body_text body = stringify body /\ ~ In NL (body_text body))
  /\ (forall s, body = JString s -> body_text body = s)
  /\ (forall chunk, child_stdin (on_stdout_data DEBUG JSON_parse chunk st) = child_stdin st)
  /\ (forall sessionId,
        child_stdin (state_of (get_sse DEBUG sessionId st)) = child_stdin st)
  /\ (forall sessionId res,
        child_stdin (on_close DEBUG sessionId res st) = child_stdin st)
  /\ (forall res, child_stdin (state_of (on_ping res st)) = child_stdin st).
Proof.
  split; [|split; [|split; [|split; [|split; [|split]]]]].
  - unfold post_messages.
    destruct (query_falsy q || negb (sessions_has q (sessions st))).
    + left. apply child_stdin_debug_log.
    + right. simpl. rewrite child_stdin_debug_log. reflexivity.
  - intro Ho. unfold body_text. rewrite Ho. split; [reflexivity|].
    apply stringify_no_newline.
  - intros s ->. reflexivity.
  - intro chunk.
    destruct (on_stdout_text_frame DEBUG JSON_parse (toString chunk) st)
      as ((_ & _ & C & _) & _).
    exact C.
  - intro sessionId.
    destruct (get_sse_returns DEBUG sessionId st) as (st' & R & _ & _ & _ & _ & C & _).
    rewrite R. exact C.
  - intros sessionId res. unfold on_close, debug_log. destruct DEBUG; reflexivity.
  - intro res. destruct (on_ping_frame res st) as (_ & _ & C & _). exact C.
Qed.

Lemma C7_stdin_chunks_witness :
  body_text (JObject [(lit "text", JString (lit "a" ++ [NL] ++ lit "b"))])
  = stringify (JObject [(lit "text", JString (lit "a" ++ [NL] ++ lit "b"))])
  /\ ~ In NL (body_text (JObject [(lit "text", JString (lit "a" ++ [NL] ++ lit "b"))])).
Proof.
  destruct (C7_stdin_chunks_end_with_appended_newline false Json.parse
              (QString id_a)
              (JObject [(lit "text", JString (lit "a" ++ [NL] ++ lit "b"))])
              two_sessions) as (_ & H & _).
  apply H. reflexivity.
Defined.

(** ** Closed and failing sessions *)

(** The sample states are states the adapter can be in. *)
Lemma two_sessions_reachable : reachable false Json.parse two_sessions.
Proof.
  eapply reach_step.
  - eapply reach_step; [apply reach_initial|].
    apply (step_get false Json.parse id_a initial _ eq_refl). reflexivity.
  - apply (step_get false Json.parse id_b _ _ eq_refl). reflexivity.
Qed.

Lemma first_stream_broken_reachable : reachable false Json.parse first_stream_broken.
Proof.
  eapply reach_step; [apply two_sessions_reachable|]. apply step_break.
Qed.

Section CloseFacts.

Variable DEBUG : bool.

Lemma on_close_sessions sessionId res st :
  sessions (on_close DEBUG sessionId res st) = map_delete sessionId (sessions st).
Proof. unfold on_close, debug_log. destruct DEBUG; reflexivity. Qed.

Lemma on_close_heap sessionId res st :
  heap (on_close DEBUG sessionId res st) = heap st.
Proof. unfold on_close, debug_log. destruct DEBUG; reflexivity. Qed.

Lemma on_close_buffer sessionId res st :
  buffer (on_close DEBUG sessionId res st) = buffer st.
Proof. unfold on_close, debug_log. destruct DEBUG; reflexivity. Qed.


Lemma on_close_written sessionId res st h :
  written (on_close DEBUG sessionId res st) h = written st h.
Proof. unfold written. rewrite on_close_heap. reflexivity. Qed.

Lemma on_close_writable sessionId res st h :
  writable (on_close DEBUG sessionId res st) h = writable st h.
Proof. unfold writable. rewrite on_close_heap. reflexivity. Qed.

End CloseFacts.

Section FailureFacts.

Variable DEBUG : bool.
Variable JSON_parse : jsstring -> option JSValue.

(** The state in which the connection behind [res] has been lost after the
    chunks [first]. *)
Lemma lost_after_frame (res : nat) (first : list (list N)) (st : State) :
  let st1 := break_stream res (run_stdout DEBUG JSON_parse first st) in
  registry_wf st = true ->
  ~ In NL (buffer st) ->
  registry_wf st1 = true
  /\ sessions st1 = sessions st
  /\ child_stdin st1 = child_stdin st
  /\ buffer st1 = unterminated_tail (buffer st ++ decoded first)
  /\ writable st1 res = false
  /\ (forall h, res <> h -> writable st1 h = writable st h).
Proof.
  cbv zeta. intros Hwf Hb.
  destruct (run_stdout_frame DEBUG JSON_parse first st) as (F & B & _).
  pose proof (registry_wf_same_frame _ _ F) as W.
  destruct F as (S1 & _ & C1 & _ & W1).
  split; [rewrite break_stream_registry_wf, W; exact Hwf|].
  split; [exact S1|]. split; [exact C1|]. split; [exact (B Hb)|].
  split; [apply break_stream_writable_same|].
  intros h Hne. rewrite (break_stream_writable_other _ _ _ Hne). apply W1.
Qed.

End FailureFacts.

(** C8.  A session whose close event has been handled is out of the
    registry, and its response stream receives nothing of what the child
    emits afterwards, while the other open sessions receive every
    deliverable line.  When the connection of a session is lost, between
    two chunks or in the middle of the broadcast of a line, its stream
    keeps the events written before the failure and receives nothing
    more, the other open sessions receive every deliverable line, the one
    being broadcast included, nothing is written to the child, and the
    broadcast loop leaves the registry alone; the close event that follows
    removes the session, the other sessions stay registered, and nothing
    is written to the removed session's stream afterwards. *)
Theorem C8_closed_or_failed_session_is_isolated
    (DEBUG : bool) (JSON_parse : jsstring -> option JSValue)
    (st : State) (sessionId : jsstring) (res : nat)
    (first second later : list (list N)) :
  registry_wf st = true ->
  ~ In NL (buffer st) ->
  In (sessionId, res) (sessions st) ->
  writable st res = true ->
  written (run_stdout DEBUG JSON_parse later (on_close DEBUG sessionId res st)) res
    = written st res
  /\ written (channel_failure DEBUG JSON_parse res first second st) res
     = written st res ++ message_events JSON_parse (buffer st ++ decoded first)
  /\ child_stdin (channel_failure DEBUG JSON_parse res first second st) = child_stdin st
  /\ sessions (channel_failure DEBUG JSON_parse res first second st) = sessions st
  /\ map_has sessionId
       (sessions (on_close DEBUG sessionId res
                    (channel_failure DEBUG JSON_parse res first second st))) = false
  /\ written
       (run_stdout DEBUG JSON_parse later
          (on_close DEBUG sessionId res
             (channel_failure DEBUG JSON_parse res first second st))) res
     = written (channel_failure DEBUG JSON_parse res first second st) res
  /\ (forall (other : jsstring) (res' : nat),
        other <> sessionId -> In (other, res') (sessions st) ->
        writable st res' = true ->
        written (run_stdout DEBUG JSON_parse later (on_close DEBUG sessionId res st)) res'
          = written st res' ++ message_events JSON_parse (buffer st ++ decoded later)
        /\ written (channel_failure DEBUG JSON_parse res first second st) res'
           = written st res' ++
               message_events JSON_parse (buffer st ++ decoded first ++ decoded second)
        /\ In (other, res')
             (sessions (on_close DEBUG sessionId res
                          (channel_failure DEBUG JSON_parse res first second st)))
        /\ (forall (line : jsstring) (served waiting : list (jsstring * nat)),
              sessions st = served ++ waiting ->
              exists st',
                interrupted_dispatch DEBUG line served waiting res st = Returned st'
                /\ sessions st' = sessions st
                /\ child_stdin st' = child_stdin st
                /\ written st' res' =
                   written st res' ++ sse_event (lit "message") line)).
Proof.
  intros Hwf Hb Hin Hw. unfold channel_failure.
  pose proof (registry_wf_on_close DEBUG sessionId res st Hwf) as Hwfc.
  assert (Hnd : NoDup (map snd (sessions st)))
    by (apply registry_wf_iff in Hwf as (_ & _ & H & _); exact H).
  destruct (lost_after_frame DEBUG JSON_parse res first st Hwf Hb)
    as (Hwf1 & S1 & C1 & B1 & W1 & W1').
  set (st1 := break_stream res (run_stdout DEBUG JSON_parse first st)) in *.
  assert (Hb1 : ~ In NL (buffer st1))
    by (rewrite B1; apply unterminated_tail_no_newline).
  assert (Wr1 : forall k h, In (k, h) (sessions st) ->
            written st1 h = written st h ++
              (if writable st h
               then message_events JSON_parse (buffer st ++ decoded first) else [])).
  { intros k h Hk. unfold st1. rewrite break_stream_written.
    apply (run_stdout_delivers DEBUG JSON_parse first st k h Hwf Hb Hk). }
  destruct (run_stdout_frame DEBUG JSON_parse second st1) as (F2 & _ & _).
  set (failed := run_stdout DEBUG JSON_parse second st1) in *.
  assert (Wr2 : forall k h, In (k, h) (sessions st) ->
            written failed h = written st1 h ++
              (if writable st1 h
               then message_events JSON_parse (buffer st1 ++ decoded second) else [])).
  { intros k h Hk. unfold failed.
    apply (run_stdout_delivers DEBUG JSON_parse second st1 k h Hwf1 Hb1).
    rewrite S1. exact Hk. }
  pose proof (registry_wf_same_frame _ _ F2) as Hwf2. rewrite Hwf1 in Hwf2.
  destruct F2 as (S2 & _ & C2 & _ & W2).
  assert (Gone : forall s, registry_wf s = true -> sessions s = sessions st ->
            forall chunks,
              written (run_stdout DEBUG JSON_parse chunks
                         (on_close DEBUG sessionId res s)) res = written s res).
  { intros s Hs Es chunks.
    destruct (run_stdout_frame DEBUG JSON_parse chunks (on_close DEBUG sessionId res s))
      as (_ & _ & W).
    rewrite W; [apply on_close_written|].
    rewrite on_close_sessions, Es. apply map_delete_handle_gone; assumption. }
  split; [apply (Gone st Hwf eq_refl)|].
  split.
  { rewrite (Wr2 _ _ Hin), W1, app_nil_r, (Wr1 _ _ Hin), Hw. reflexivity. }
  split; [rewrite C2; exact C1|].
  split; [rewrite S2; exact S1|].
  split; [rewrite on_close_sessions; apply map_has_delete|].
  split; [apply (Gone failed Hwf2); rewrite S2; exact S1|].
  intros other res' Hne Hin' Hw'.
  assert (Hres : res <> res').
  { apply (registry_wf_distinct st sessionId other res res' Hwf Hin Hin').
    congruence. }
  split; [|split; [|split]].
  - rewrite (run_stdout_delivers DEBUG JSON_parse later _ other res' Hwfc).
    + rewrite on_close_written, on_close_writable, on_close_buffer, Hw'. reflexivity.
    + rewrite on_close_buffer. exact Hb.
    + rewrite on_close_sessions. apply map_delete_other; [congruence|exact Hin'].
  - rewrite (Wr2 _ _ Hin'), (W1' _ Hres), Hw', (Wr1 _ _ Hin'), Hw', B1.
    rewrite <- app_assoc. f_equal.
    rewrite (app_assoc (buffer st)). symmetry. apply message_events_app.
  - rewrite on_close_sessions, S2, S1.
    apply map_delete_other; [congruence|exact Hin'].
  - intros line served waiting Hs.
    pose proof (registry_wf_all_allocated st Hwf) as Hall.
    unfold all_allocated in Hall. rewrite Hs, map_app, forallb_app in Hall.
    apply andb_true_iff in Hall as [A1 A2].
    unfold interrupted_dispatch.
    destruct (dispatch_delivers DEBUG line served st A1) as (s1 & R1 & D1).
    pose proof (dispatch_frame DEBUG line served st) as F1.
    rewrite R1 in F1. cbn [state_of] in F1.
    destruct F1 as ((Ss1 & _ & Cs1 & Ls1 & Ws1) & _).
    rewrite R1. cbn [bind].
    destruct (dispatch_delivers DEBUG line waiting (break_stream res s1))
      as (s2 & R2 & D2).
    { rewrite <- A2. apply forallb_pointwise. intro x.
      apply allocated_same_length.
      unfold break_stream. simpl. rewrite update_nth_length. exact Ls1. }
    pose proof (dispatch_frame DEBUG line waiting (break_stream res s1)) as F2.
    rewrite R2 in F2. cbn [state_of] in F2.
    destruct F2 as ((Ss2 & _ & Cs2 & _) & _).
    exists s2. split; [exact R2|].
    split; [rewrite Ss2; exact Ss1|]. split; [rewrite Cs2; exact Cs1|].
    rewrite D2, break_stream_written, (break_stream_writable_other _ _ _ Hres).
    rewrite Ws1, Hw', D1, Hw', <- app_assoc. f_equal.
    change (line_events line (map snd served) res' ++
            line_events line (map snd waiting) res')
      with (flat_map (fun x => if Nat.eqb x res'
                               then sse_event (lit "message") line else [])
              (map snd served) ++
            flat_map (fun x => if Nat.eqb x res'
                               then sse_event (lit "message") line else [])
              (map snd waiting)).
    rewrite <- flat_map_app, <- map_app, <- Hs.
    apply line_events_once.
    + apply nodup_nat_iff. exact Hnd.
    + apply (in_map snd) in Hin'. exact Hin'.
Qed.

Lemma C8_failed_session_witness :
  written (channel_failure false Json.parse 0 [ping_message ++ [NL]]
             [lit "[1]" ++ [NL]] two_sessions) 0
  = written two_sessions 0 ++
      [lit "event: message" ++ [NL]; lit "data: " ++ ping_message ++ [NL; NL]]
  /\ written (channel_failure false Json.parse 0 [ping_message ++ [NL]]
                [lit "[1]" ++ [NL]] two_sessions) 1
     = written two_sessions 1 ++
         [lit "event: message" ++ [NL]; lit "data: " ++ ping_message ++ [NL; NL];
          lit "event: message" ++ [NL]; lit "data: [1]" ++ [NL; NL]]
  /\ map_has id_a
       (sessions (on_close false id_a 0
                    (channel_failure false Json.parse 0 [ping_message ++ [NL]]
                       [lit "[1]" ++ [NL]] two_sessions))) = false
  /\ written (run_stdout false Json.parse [lit "{}" ++ [NL]]
                (on_close false id_a 0 two_sessions)) 0
     = written two_sessions 0
  /\ exists st',
       interrupted_dispatch false (lit "{}") [(id_a, 0%nat)] [(id_b, 1%nat)] 0
         two_sessions = Returned st'
       /\ written st' 1 =
          written two_sessions 1 ++
            [lit "event: message" ++ [NL]; lit "data: {}" ++ [NL; NL]].
Proof.
  destruct (C8_closed_or_failed_session_is_isolated false Json.parse two_sessions
              id_a 0%nat [ping_message ++ [NL]] [lit "[1]" ++ [NL]]
              [lit "{}" ++ [NL]]) as (H1 & H2 & _ & _ & H5 & _ & H7).
  - vm_compute. reflexivity.
  - vm_compute. tauto.
  - left. reflexivity.
  - vm_compute. reflexivity.
  - destruct (H7 id_b 1%nat) as (_ & H8 & _ & H9).
    + intro E. vm_compute in E. discriminate.
    + right. left. reflexivity.
    + vm_compute. reflexivity.
    + split; [rewrite H2; vm_compute; reflexivity|].
      split; [rewrite H8; vm_compute; reflexivity|].
      split; [exact H5|]. split; [exact H1|].
      destruct (H9 (lit "{}") [(id_a, 0%nat)] [(id_b, 1%nat)] eq_refl)
        as (st' & R & _ & _ & W).
      exists st'. split; [exact R|]. rewrite W. vm_compute. reflexivity.
Defined.

(** C9.  When the child exits with code 0 the argument of [process.exit]
    is 1, not the child's code: [code || 1] takes 0 for a missing code.
    For every other code the child reports, the adapter exits with that
    code, and with 1 when there is none. *)
Theorem C9_exit_code_zero_becomes_one (st : State) :
  snd (on_child_exit (Some 0) st) = 1
  /\ snd (on_child_exit None st) = 1
  /\ forall c, snd (on_child_exit (Some (N.succ c)) st) = N.succ c.
Proof.
  split; [reflexivity|]. split; [reflexivity|].
  intro c. unfold on_child_exit, exit_argument. cbn [snd].
  destruct (N.succ c =? 0) eqn:E; [|reflexivity].
  apply N.eqb_eq in E. lia.
Qed.

(** C10, as stated, fails: a body declared [application/json] is parsed
    by [express.json()] before the handler runs, and one that is not a
    JSON object or array is refused with 400 although the [session_id] is
    registered; nothing reaches the child. *)
Lemma C10_counterexample_malformed_json_body :
  ~ (exists st' r,
       post_endpoint false Json.parse (QString id_a) CTJson (lit "not-json") two_sessions
       = (st', Handled r)
       /\ status r = 202
       /\ child_stdin st' = child_stdin two_sessions ++ [lit "not-json" ++ [NL]]).
Proof.
  intros (st' & r & H & _). vm_compute in H. discriminate.
Qed.

(** C10, amended.  The route handler never looks into the body: with a
    registered [session_id] it forwards whatever body it is given and
    answers 202, and it answers 400 exactly when the [session_id] is
    missing or unknown.  On the whole inbound path, every request that
    the body parsers let through is forwarded and answered 202; a body
    with a Content-Type other than [application/json], in a supported
    encoding and charset and within the size limit, is forwarded as
    received, whether or not it would parse as JSON; the body of a
    request without a Content-Type is not read, and what is forwarded is
    the text of the unread body value; a request the parsers refuse is
    answered by them and does not reach the handler, which is the case of
    a body declared [application/json] that is not empty and is not a JSON
    object or array (400). *)
Theorem C10_handler_does_not_inspect_body
    (DEBUG : bool) (JSON_parse : jsstring -> option JSValue) (unread_body : JSValue)
    (st : State) (sessionId : jsstring) :
  registry_wf st = true ->
  map_has sessionId (sessions st) = true ->
  (forall body,
     status (snd (post_messages DEBUG (QString sessionId) body st)) = 202
     /\ child_stdin (fst (post_messages DEBUG (QString sessionId) body st))
        = child_stdin st ++ [body_text body ++ [NL]])
  /\ (forall q body,
        status (snd (post_messages DEBUG q body st)) =
        if query_falsy q || negb (sessions_has q (sessions st)) then 400 else 202)
  /\ (forall req v,
        read_body JSON_parse unread_body req = Body v ->
        snd (post_request DEBUG JSON_parse unread_body (QString sessionId) req st)
        = Handled (mkHttpResponse 202 (lit "Accepted"))
        /\ child_stdin
             (fst (post_request DEBUG JSON_parse unread_body (QString sessionId) req st))
           = child_stdin st ++ [body_text v ++ [NL]])
  /\ (forall req,
        req_has_body req = true -> req_content_type req = Some CTOther ->
        req_encoding_supported req = true -> req_charset_supported req = true ->
        (req_bytes req <= BODY_LIMIT)%N ->
        snd (post_request DEBUG JSON_parse unread_body (QString sessionId) req st)
        = Handled (mkHttpResponse 202 (lit "Accepted"))
        /\ child_stdin
             (fst (post_request DEBUG JSON_parse unread_body (QString sessionId) req st))
           = child_stdin st ++ [req_text req ++ [NL]])
  /\ (forall req,
        req_has_body req = false \/ req_content_type req = None ->
        snd (post_request DEBUG JSON_parse unread_body (QString sessionId) req st)
        = Handled (mkHttpResponse 202 (lit "Accepted"))
        /\ child_stdin
             (fst (post_request DEBUG JSON_parse unread_body (QString sessionId) req st))
           = child_stdin st ++ [body_text unread_body ++ [NL]])
  /\ (forall req code,
        read_body JSON_parse unread_body req = Rejected code ->
        snd (post_request DEBUG JSON_parse unread_body (QString sessionId) req st)
        = ParserError code
        /\ child_stdin
             (fst (post_request DEBUG JSON_parse unread_body (QString sessionId) req st))
           = child_stdin st)
  /\ (forall req,
        req_has_body req = true -> req_content_type req = Some CTJson ->
        req_encoding_supported req = true -> req_charset_supported req = true ->
        (req_bytes req <= BODY_LIMIT)%N ->
        req_text req <> [] ->
        strict_first_char (req_text req) = false \/ JSON_parse (req_text req) = None ->
        snd (post_request DEBUG JSON_parse unread_body (QString sessionId) req st)
        = ParserError 400
        /\ child_stdin
             (fst (post_request DEBUG JSON_parse unread_body (QString sessionId) req st))
           = child_stdin st).
Proof.
  intros Hwf Hhas.
  assert (A : forall body,
     status (snd (post_messages DEBUG (QString sessionId) body st)) = 202
     /\ child_stdin (fst (post_messages DEBUG (QString sessionId) body st))
        = child_stdin st ++ [body_text body ++ [NL]]).
  { intro body. rewrite (post_messages_accepts DEBUG _ body _ Hwf Hhas).
    split; [reflexivity|]. simpl. rewrite child_stdin_debug_log. reflexivity. }
  assert (B : forall req v,
        read_body JSON_parse unread_body req = Body v ->
        snd (post_request DEBUG JSON_parse unread_body (QString sessionId) req st)
        = Handled (mkHttpResponse 202 (lit "Accepted"))
        /\ child_stdin
             (fst (post_request DEBUG JSON_parse unread_body (QString sessionId) req st))
           = child_stdin st ++ [body_text v ++ [NL]]).
  { intros req v E. unfold post_request. rewrite E.
    rewrite (post_messages_accepts DEBUG _ v _ Hwf Hhas).
    split; [reflexivity|]. simpl. rewrite child_stdin_debug_log. reflexivity. }
  split; [exact A|]. split; [|split; [exact B|split; [|split; [|split]]]].
  - intros q body. unfold post_messages.
    destruct (query_falsy q || negb (sessions_has q (sessions st))); reflexivity.
  - intros req H1 H2 H3 H4 H5.
    apply (B req (JString (req_text req))).
    unfold read_body. rewrite H1, H2, H3, H4. simpl.
    apply N.ltb_ge in H5. rewrite H5. reflexivity.
  - intros req H. apply (B req unread_body).
    unfold read_body. destruct H as [H|H].
    + rewrite H. reflexivity.
    + rewrite H. destruct (req_has_body req); reflexivity.
  - intros req code E. unfold post_request. rewrite E. split; reflexivity.
  - intros req H1 H2 H3 H4 H5 Hne Hbad.
    unfold post_request, read_body. rewrite H1, H2, H3, H4. simpl.
    apply N.ltb_ge in H5. rewrite H5.
    unfold express_json. destruct (req_text req) as [|c r]; [contradiction|].
    destruct Hbad as [Hs|Hp].
    + rewrite Hs. split; reflexivity.
    + rewrite Hp. destruct (strict_first_char (c :: r)); split; reflexivity.
Qed.

Lemma C10_handler_witness :
  child_stdin (fst (post_request false Json.parse (JObject []) (QString id_b)
                      plain_text_request two_sessions))
    = [lit "not-json" ++ [NL]]
  /\ child_stdin (fst (post_request false Json.parse (JObject []) (QString id_b)
                         untyped_request two_sessions))
     = [lit "{}" ++ [NL]]
  /\ snd (post_request false Json.parse (JObject []) (QString id_b)
            bad_json_request two_sessions) = ParserError 400
  /\ child_stdin (fst (post_request false Json.parse (JObject []) (QString id_b)
                         bad_json_request two_sessions)) = [].
Proof.
  destruct (C10_handler_does_not_inspect_body false Json.parse (JObject [])
              two_sessions id_b) as (_ & _ & _ & H4 & H5 & _ & H7).
  - vm_compute. reflexivity.
  - vm_compute. reflexivity.
  - split; [|split].
    + assert (L : (req_bytes plain_text_request <= BODY_LIMIT)%N)
        by (vm_compute; discriminate).
      destruct (H4 plain_text_request eq_refl eq_refl eq_refl eq_refl L) as [_ H].
      rewrite H. vm_compute. reflexivity.
    + destruct (H5 untyped_request (or_intror eq_refl)) as [_ H].
      rewrite H. vm_compute. reflexivity.
    + assert (L : (req_bytes bad_json_request <= BODY_LIMIT)%N)
        by (vm_compute; discriminate).
      assert (T : req_text bad_json_request <> [])
        by (vm_compute; discriminate).
      destruct (H7 bad_json_request eq_refl eq_refl eq_refl eq_refl L T
                  (or_introl eq_refl)) as [R C].
      split; [exact R|]. rewrite C. vm_compute. reflexivity.
Defined.

(** ** Start-up *)

Lemma split_segments_no_sep sep s : forall x, In x (split sep s) -> ~ In sep x.
Proof.
  induction s as [|c r IH]; simpl.
  - intros x [<-|[]]. simpl. tauto.
  - destruct (c =? sep) eqn:E.
    + intros x [<-|H]; [simpl; tauto|]. apply IH. exact H.
    + pose proof (split_nonempty sep r) as Hne.
      destruct (split sep r) as [|y ys]; [contradiction|].
      intros x [<-|H].
      * intros [Hc|Hc].
        -- apply N.eqb_neq in E. congruence.
        -- revert Hc. apply IH. left. reflexivity.
      * apply IH. right. exact H.
Qed.

Lemma join_cons_head sep c x xs :
  join sep ((c :: x) :: xs) = c :: join sep (x :: xs).
Proof. destruct xs; reflexivity. Qed.

(** Joining the segments of a split with the separator gives the text
    back. *)
Lemma join_split sep s : join [sep] (split sep s) = s.
Proof.
  induction s as [|c r IH]; [reflexivity|].
  cbn [split].
  pose proof (split_nonempty sep r) as Hne.
  destruct (split sep r) as [|y ys]; [contradiction|].
  destruct (c =? sep) eqn:E.
  - apply N.eqb_eq in E. subst c.
    change (join [sep] ([] :: y :: ys)) with ([] ++ [sep] ++ join [sep] (y :: ys)).
    rewrite IH. reflexivity.
  - cbv iota. rewrite join_cons_head. f_equal. exact IH.
Qed.

Lemma find_app {A} (p : A -> bool) (a b : list A) :
  find p (a ++ b) = match find p a with Some x => Some x | None => find p b end.
Proof.
  induction a as [|x a IH]; simpl; [reflexivity|].
  destruct (p x); [reflexivity|exact IH].
Qed.

Lemma find_fallbacks (e : Env) :
  find (launchable e) fallbacks = find (existsSync e) fallbacks.
Proof. reflexivity. Qed.

Lemma find_fallbacks_truthy (e : Env) s :
  find (existsSync e) fallbacks = Some s -> truthy s = true.
Proof.
  intro H. apply find_some in H as [H _].
  unfold fallbacks in H. simpl in H.
  destruct H as [<-|[<-|[<-|[<-|[]]]]]; reflexivity.
Qed.

Lemma find_of_option (e : Env) o :
  find (launchable e) (of_option o) = if usable e o then o else None.
Proof.
  destruct o as [s|]; [|reflexivity]. simpl. unfold launchable.
  destruct (truthy s && existsSync e s); reflexivity.
Qed.

Lemma find_after_unusable (e : Env) s l l' :
  find (launchable e) l = (if usable e s then s else None) ->
  usable e s = false ->
  find (launchable e) (l ++ l') = find (launchable e) l'.
Proof. intros H U. rewrite find_app, H, U. reflexivity. Qed.

Lemma find_at_usable (e : Env) s l l' :
  find (launchable e) l = (if usable e s then s else None) ->
  usable e s = true ->
  find (launchable e) (l ++ l') = s.
Proof.
  intros H U. rewrite find_app, H, U.
  destruct s; [reflexivity|discriminate].
Qed.

Lemma usable_not_truthy (e : Env) o : opt_truthy o = false -> usable e o = false.
Proof. destruct o as [s|]; simpl; [|reflexivity]. intros ->. reflexivity. Qed.

(** What the [try] block leaves in [serverScript] is the first launchable
    proposal of package.json, if there is one. *)
Lemma find_package_candidates (e : Env) s0 :
  usable e s0 = false ->
  find (launchable e) (package_candidates e) =
  let s1 := match package_json e with
            | Some pkg => from_package_json e pkg s0
            | None => s0
            end in
  if usable e s1 then s1 else None.
Proof.
  intro U0. unfold package_candidates. cbv zeta.
  destruct (package_json e) as [pkg|]; [|rewrite U0; reflexivity].
  unfold from_package_json.
  set (s := match pkg_bin pkg with
            | BinAbsent => s0
            | BinString b => if truthy b then Some b else s0
            | BinObject [] => s0
            | BinObject ((_, v) :: _) => Some v
            end).
  set (l := match pkg_bin pkg with
            | BinAbsent => []
            | BinString b => [b]
            | BinObject [] => []
            | BinObject ((_, v) :: _) => [v]
            end).
  assert (Hbin : find (launchable e) l = if usable e s then s else None).
  { unfold l, s. destruct (pkg_bin pkg) as [|b|[|[k v] entries]].
    - rewrite U0. reflexivity.
    - simpl find. unfold launchable. destruct (truthy b) eqn:Tb.
      + simpl usable. rewrite Tb. simpl.
        destruct (existsSync e b); reflexivity.
      + rewrite U0. reflexivity.
    - rewrite U0. reflexivity.
    - apply (find_of_option e (Some v)). }
  destruct (usable e s) eqn:Us.
  - simpl negb. cbv iota. simpl andb. cbv iota. rewrite Us.
    apply (find_at_usable e s l _); [rewrite Us; exact Hbin|exact Us].
  - change (negb false && opt_truthy (pkg_main pkg)) with (opt_truthy (pkg_main pkg)).
    rewrite (find_after_unusable e s l _)
      by first [exact Us | rewrite Us; exact Hbin].
    rewrite find_of_option.
    destruct (opt_truthy (pkg_main pkg)) eqn:Tm; [reflexivity|].
    rewrite Us, (usable_not_truthy _ _ Tm). reflexivity.
Qed.

(** Without a command override, start-up launches node on the first
    candidate that is a non-empty name of an existing file. *)
Lemma resolve_script_first_launchable (e : Env) :
  resolve_script e =
  match find (launchable e) (candidates e) with
  | Some s => Spawn (lit "node") [s]
  | None => ExitWith 1 (lit "Targetly Adapter Error: No server script found.")
  end.
Proof.
  unfold resolve_script, candidates.
  set (s0 := js_or (TARGETLY_MCP_SERVER_SCRIPT e) (argv2 e)).
  assert (Hok : forall o, usable e o = true ->
             match o with
             | Some (c :: s') => Spawn (lit "node") [c :: s']
             | _ => ExitWith 1 (lit "Targetly Adapter Error: No server script found.")
             end =
             match o with
             | Some s => Spawn (lit "node") [s]
             | None => ExitWith 1 (lit "Targetly Adapter Error: No server script found.")
             end).
  { intros [[|c s']|] H; try reflexivity; discriminate. }
  destruct (usable e s0) eqn:U0.
  - simpl negb. cbv iota. rewrite U0. simpl negb. cbv iota.
    rewrite (find_at_usable e s0 (of_option s0) _ (find_of_option e s0) U0).
    apply Hok. exact U0.
  - simpl negb. cbv iota.
    rewrite (find_after_unusable e s0 (of_option s0) _ (find_of_option e s0) U0).
    pose proof (find_package_candidates e s0 U0) as Hp. cbv zeta in Hp.
    set (s1 := match package_json e with
               | Some pkg => from_package_json e pkg s0
               | None => s0
               end) in *.
    destruct (usable e s1) eqn:U1.
    + simpl negb. cbv iota.
      rewrite (find_at_usable e s1 (package_candidates e) _)
        by first [exact U1 | rewrite U1; exact Hp].
      apply Hok. exact U1.
    + simpl negb. cbv iota.
      rewrite (find_after_unusable e s1 (package_candidates e) _)
        by first [exact U1 | rewrite U1; exact Hp].
      rewrite find_fallbacks.
      destruct (find (existsSync e) fallbacks) as [s|] eqn:F; [|reflexivity].
      apply find_fallbacks_truthy in F. destruct s; [discriminate|reflexivity].
Qed.

Lemma getServerCommand_without_override (e : Env) :
  opt_truthy (TARGETLY_MCP_CMD e) = false -> getServerCommand e = resolve_script e.
Proof.
  unfold getServerCommand.
  destruct (TARGETLY_MCP_CMD e) as [[|c cmd]|]; try reflexivity. discriminate.
Qed.

(** X1.  With a command override, the command and its arguments are the
    space-separated pieces of the override: none of them contains a space,
    and joined with single spaces they give the override back, so the
    start-up line shows the override as it was given (when it has
    arguments). *)
Theorem X1_command_override_pieces (e : Env) (cmd : jsstring) :
  TARGETLY_MCP_CMD e = Some cmd ->
  truthy cmd = true ->
  exists command args,
    getServerCommand e = Spawn command args
    /\ join [32] (command :: args) = cmd
    /\ ~ In 32 command
    /\ (forall a, In a args -> ~ In 32 a)
    /\ (args <> [] ->
        starting_line command args =
        lit "Targetly Adapter: Starting server with command: " ++ cmd).
Proof.
  intros Hc Ht. unfold getServerCommand. rewrite Hc.
  destruct cmd as [|c r]; [discriminate|].
  pose proof (join_split 32 (c :: r)) as Hj.
  pose proof (split_segments_no_sep 32 (c :: r)) as Hs.
  pose proof (split_nonempty 32 (c :: r)) as Hne.
  destruct (split 32 (c :: r)) as [|x xs]; [contradiction|].
  exists x, xs. cbn [hd tl].
  split; [reflexivity|]. split; [exact Hj|].
  split; [apply Hs; left; reflexivity|].
  split; [intros a Ha; apply Hs; right; exact Ha|].
  intro Hxs. unfold starting_line. rewrite <- Hj.
  destruct xs as [|y ys]; [contradiction|]. reflexivity.
Qed.

Lemma X1_command_override_witness :
  exists command args,
    getServerCommand sample_env_cmd = Spawn command args
    /\ join [32] (command :: args) = lit "npx -y @modelcontextprotocol/server-memory"
    /\ command = lit "npx"
    /\ args = [lit "-y"; lit "@modelcontextprotocol/server-memory"].
Proof.
  destruct (X1_command_override_pieces sample_env_cmd
              (lit "npx -y @modelcontextprotocol/server-memory") eq_refl eq_refl)
    as (command & args & H1 & H2 & _).
  exists command, args. split; [exact H1|]. split; [exact H2|].
  vm_compute in H1. inversion H1. split; reflexivity.
Defined.

(** X2.  Without a command override, start-up either launches node with
    one argument, a candidate script whose name is non-empty and which
    exists on disk, or exits with code 1; it exits exactly when no
    candidate is a non-empty name of an existing file. *)
Theorem X2_launched_script_exists (e : Env) :
  opt_truthy (TARGETLY_MCP_CMD e) = false ->
  ((exists s, getServerCommand e = Spawn (lit "node") [s]
              /\ In s (candidates e)
              /\ truthy s = true /\ existsSync e s = true)
   \/ getServerCommand e
      = ExitWith 1 (lit "Targetly Adapter Error: No server script found."))
  /\ (getServerCommand e
      = ExitWith 1 (lit "Targetly Adapter Error: No server script found.")
      <-> forall s, In s (candidates e) -> launchable e s = false).
Proof.
  intro Hc. rewrite (getServerCommand_without_override e Hc).
  rewrite resolve_script_first_launchable.
  destruct (find (launchable e) (candidates e)) as [s|] eqn:F.
  - pose proof (find_some _ _ F) as [Hin Hl].
    split.
    + left. exists s. split; [reflexivity|]. split; [exact Hin|].
      unfold launchable in Hl. apply andb_true_iff in Hl. exact Hl.
    + split; [discriminate|].
      intro Hall. rewrite (Hall s Hin) in Hl. discriminate.
  - split; [right; reflexivity|].
    split; [|reflexivity].
    intros _ s Hin. apply (find_none _ _ F s Hin).
Qed.

Lemma X2_launched_script_witness :
  exists s, getServerCommand sample_env = Spawn (lit "node") [s]
            /\ existsSync sample_env s = true.
Proof.
  destruct (X2_launched_script_exists sample_env eq_refl) as [[H|H] _].
  - destruct H as (s & H1 & _ & _ & H2). exists s. split; assumption.
  - vm_compute in H. discriminate.
Defined.

(** X3.  Without a command override, the candidates are tried in the
    order: the configured script (TARGETLY_MCP_SERVER_SCRIPT, else the
    first command-line argument), the [bin] entry of package.json, its
    [main], then ./dist/index.js, ./build/index.js, ./src/index.js and
    ./index.js; the first that is a non-empty name of an existing file is
    launched, whatever comes after it. *)
Theorem X3_candidates_in_priority_order
    (e : Env) (before after : list jsstring) (s : jsstring) :
  opt_truthy (TARGETLY_MCP_CMD e) = false ->
  candidates e = before ++ s :: after ->
  (forall x, In x before -> launchable e x = false) ->
  launchable e s = true ->
  getServerCommand e = Spawn (lit "node") [s].
Proof.
  intros Hc Hcand Hbefore Hs.
  rewrite (getServerCommand_without_override e Hc).
  rewrite resolve_script_first_launchable, Hcand, find_app.
  destruct (find (launchable e) before) as [x|] eqn:F.
  - apply find_some in F as [Hin Hx]. rewrite (Hbefore x Hin) in Hx. discriminate.
  - simpl. rewrite Hs. reflexivity.
Qed.

Lemma X3_candidates_witness :
  getServerCommand sample_env = Spawn (lit "node") [lit "lib/main.js"].
Proof.
  apply (X3_candidates_in_priority_order sample_env
           [lit "server.js"; lit "dist/cli.js"] fallbacks (lit "lib/main.js")).
  - reflexivity.
  - reflexivity.
  - intros x [<-|[<-|[]]]; vm_compute; reflexivity.
  - vm_compute. reflexivity.
Defined.

(** ** The stdout handler and the pending fragment *)

Section BufferFacts.

Variable DEBUG : bool.
Variable JSON_parse : jsstring -> option JSValue.

Lemma set_buffer_idem b b0 st : set_buffer b (set_buffer b0 st) = set_buffer b st.
Proof. reflexivity. Qed.

Lemma set_buffer_self st : set_buffer (buffer st) st = st.
Proof. destruct st. reflexivity. Qed.

Lemma res_write_set_buffer b h d st :
  res_write h d (set_buffer b st) = outcome_map (set_buffer b) (res_write h d st).
Proof.
  unfold res_write. simpl.
  destruct (nth_error (heap st) h) as [r|]; [|reflexivity].
  destruct (res_mode r); reflexivity.
Qed.

Lemma debug_log_set_buffer b msg st :
  debug_log DEBUG msg (set_buffer b st) = set_buffer b (debug_log DEBUG msg st).
Proof. unfold debug_log. destruct DEBUG; reflexivity. Qed.

Lemma dispatch_set_buffer b line : forall entries st,
  dispatch DEBUG line entries (set_buffer b st) =
  outcome_map (set_buffer b) (dispatch DEBUG line entries st).
Proof.
  induction entries as [|[sid h] rest IH]; intro st; [reflexivity|].
  cbn [dispatch]. rewrite res_write_set_buffer.
  destruct (res_write h (lit "event: message" ++ [NL]) st) as [st1|st1];
    [|reflexivity].
  cbn [bind outcome_map]. rewrite res_write_set_buffer.
  destruct (res_write h (lit "data: " ++ line ++ [NL; NL]) st1) as [st2|st2];
    [|reflexivity].
  cbn [bind outcome_map]. rewrite debug_log_set_buffer. apply IH.
Qed.

(** Processing a line neither reads nor assigns the buffer. *)
Lemma process_line_set_buffer b line st :
  process_line DEBUG JSON_parse line (set_buffer b st) =
  set_buffer b (process_line DEBUG JSON_parse line st).
Proof.
  destruct (nonblank line) eqn:Hb.
  2:{ rewrite !(process_line_blank _ _ _ _ Hb). reflexivity. }
  rewrite !(process_line_nonblank _ _ _ _ Hb).
  destruct (JSON_parse line); [|reflexivity].
  change (sessions (set_buffer b st)) with (sessions st).
  rewrite debug_log_set_buffer, dispatch_set_buffer.
  destruct (dispatch DEBUG line (sessions st)
              (debug_log DEBUG (lit "Targetly Adapter: OUTGOING: " ++ line) st));
    reflexivity.
Qed.

Lemma process_lines_set_buffer b lines : forall st,
  process_lines DEBUG JSON_parse lines (set_buffer b st) =
  set_buffer b (process_lines DEBUG JSON_parse lines st).
Proof.
  induction lines as [|line rest IH]; intro st; [reflexivity|].
  unfold process_lines in *. simpl fold_left.
  rewrite process_line_set_buffer. apply IH.
Qed.

Lemma process_lines_app l1 l2 st :
  process_lines DEBUG JSON_parse (l1 ++ l2) st =
  process_lines DEBUG JSON_parse l2 (process_lines DEBUG JSON_parse l1 st).
Proof. unfold process_lines. apply fold_left_app. Qed.

(** A run of the stdout handler processes the complete lines of the
    chunks, one after the other, and leaves the last fragment pending. *)
Lemma run_text_lines chunks : forall st,
  run_text DEBUG JSON_parse chunks st =
  set_buffer (framer_pending (buffer st) chunks)
    (process_lines DEBUG JSON_parse (framer_lines (buffer st) chunks) st).
Proof.
  induction chunks as [|chunk rest IH]; intro st.
  - simpl. symmetry. apply set_buffer_self.
  - rewrite run_text_cons, IH.
    rewrite on_stdout_text_frames.
    set (b := fst (frame (buffer st) chunk)).
    set (lines := snd (frame (buffer st) chunk)).
    rewrite process_lines_set_buffer.
    change (buffer (set_buffer b (process_lines DEBUG JSON_parse lines st))) with b.
    rewrite process_lines_set_buffer, set_buffer_idem.
    rewrite framer_pending_cons. fold b.
    cbn [framer_lines]. fold b. fold lines.
    rewrite process_lines_app. reflexivity.
Qed.

(** With every registered response allocated the broadcast loop
    returns, so the catch clause logs the lines that do not parse and no
    others. *)
Lemma process_line_console_error line st :
  all_allocated st = true ->
  console_error (process_line DEBUG JSON_parse line st) =
  console_error st ++
    (if nonblank line && negb (valid_json JSON_parse line)
     then [invalid_json_message line] else []).
Proof.
  intro Hall. destruct (nonblank line) eqn:Hb; cbn [andb].
  2:{ rewrite (process_line_blank _ _ _ _ Hb). symmetry. apply app_nil_r. }
  rewrite (process_line_nonblank _ _ _ _ Hb). unfold valid_json.
  destruct (JSON_parse line) as [v|]; [|reflexivity].
  set (st1 := debug_log DEBUG _ st).
  destruct (same_frame_debug_log DEBUG (lit "Targetly Adapter: OUTGOING: " ++ line) st)
    as (_ & _ & _ & L & _).
  destruct (dispatch_delivers DEBUG line (sessions st) st1) as (st' & R & _).
  { rewrite <- Hall. unfold all_allocated. apply forallb_pointwise.
    intro x. apply allocated_same_length. exact L. }
  destruct (dispatch_frame DEBUG line (sessions st) st1) as (_ & _ & E & _).
  rewrite R in *. cbn [state_of] in E. rewrite E. unfold st1.
  rewrite console_error_debug_log. symmetry. apply app_nil_r.
Qed.

Lemma process_lines_console_error lines : forall st,
  all_allocated st = true ->
  console_error (process_lines DEBUG JSON_parse lines st) =
  console_error st ++
    map invalid_json_message
      (filter (fun l => nonblank l && negb (valid_json JSON_parse l)) lines).
Proof.
  induction lines as [|line rest IH]; intros st Hall.
  - simpl. symmetry. apply app_nil_r.
  - unfold process_lines in *. simpl fold_left.
    destruct (process_line_frame DEBUG JSON_parse line st) as (F1 & _ & _).
    rewrite IH by (rewrite (all_allocated_same_frame _ _ F1); exact Hall).
    rewrite (process_line_console_error _ _ Hall), <- app_assoc. f_equal.
    simpl filter.
    destruct (nonblank line && negb (valid_json JSON_parse line)); reflexivity.
Qed.

End BufferFacts.

(** *** Decoding chunk by chunk *)

Lemma decode_from_app (a b : list N) : forall d,
  decode_from d (a ++ b) =
  (fst (decode_from d a) ++ fst (decode_from (snd (decode_from d a)) b),
   snd (decode_from (snd (decode_from d a)) b)).
Proof.
  induction a as [|x a IH]; intro d.
  - simpl. destruct (decode_from d b). reflexivity.
  - simpl. destruct (decode_byte d x) as [out d'].
    rewrite IH. destruct (decode_from d' a) as [more final]. cbn [fst snd].
    rewrite app_assoc. reflexivity.
Qed.

(** A chunk that ends between two characters decodes on its own as it
    does in front of what follows. *)
Lemma toString_app (a b : list N) :
  ends_on_boundary a = true ->
  toString (a ++ b) = toString a ++ toString b
  /\ ends_on_boundary (a ++ b) = ends_on_boundary b.
Proof.
  unfold ends_on_boundary, toString. rewrite decode_from_app.
  destruct (decode_from Idle a) as [o1 d1]. cbn [fst snd].
  destruct d1; [|discriminate]. intros _.
  destruct (decode_from Idle b) as [o2 d2]. cbn [fst snd flush].
  rewrite app_nil_r, app_assoc. split; reflexivity.
Qed.

Lemma decoded_on_boundaries (chunks : list (list N)) :
  forallb ends_on_boundary chunks = true ->
  decoded chunks = toString (List.concat chunks)
  /\ ends_on_boundary (List.concat chunks) = true.
Proof.
  induction chunks as [|c r IH]; intro H; [split; reflexivity|].
  simpl in H. apply andb_true_iff in H as [Hc Hr].
  destruct (IH Hr) as [E B].
  destruct (toString_app c (List.concat r) Hc) as [T B'].
  unfold decoded in *. simpl. rewrite T, E, B', B. split; reflexivity.
Qed.

Lemma framer_lines_split chunks : forall buf,
  ~ In NL buf ->
  framer_lines buf chunks = removelast (split NL (buf ++ List.concat chunks)).
Proof.
  induction chunks as [|chunk rest IH]; intros buf Hbuf.
  - simpl. rewrite app_nil_r, (split_no_sep _ _ Hbuf). reflexivity.
  - cbn [framer_lines]. unfold frame, pop. cbn [fst snd].
    rewrite (IH _ (split_last_no_sep NL (buf ++ chunk))).
    simpl List.concat.
    rewrite app_assoc, (split_app NL (buf ++ chunk) (List.concat rest)).
    rewrite (removelast_app _ (split_nonempty NL _)). reflexivity.
Qed.

Lemma framer_pending_split chunks buf :
  ~ In NL buf ->
  framer_pending buf chunks = last (split NL (buf ++ List.concat chunks)) [].
Proof.
  intro H. unfold framer_pending. rewrite (framer_split chunks buf H). reflexivity.
Qed.

(** X4.  What the stdout handler does with the child's output depends
    on the decoded text only: from a state whose pending fragment has no
    newline (as in every reachable state), two chunk sequences whose
    chunks decode to the same text lead to the same state, streams, logs
    and pending fragment alike.  That is the case of the chunks of one
    byte sequence when every cut falls between two characters: they lead
    to the same state as the whole sequence in one chunk. *)
Theorem X4_stdout_chunking_invariance
    (DEBUG : bool) (JSON_parse : jsstring -> option JSValue)
    (chunks chunks' : list (list N)) (st : State) :
  ~ In NL (buffer st) ->
  (decoded chunks = decoded chunks' ->
   run_stdout DEBUG JSON_parse chunks st = run_stdout DEBUG JSON_parse chunks' st)
  /\ (forallb ends_on_boundary chunks = true ->
      run_stdout DEBUG JSON_parse chunks st =
      run_stdout DEBUG JSON_parse [List.concat chunks] st).
Proof.
  intro Hb.
  assert (A : forall c c', decoded c = decoded c' ->
            run_stdout DEBUG JSON_parse c st = run_stdout DEBUG JSON_parse c' st).
  { intros c c' Hc. rewrite !run_stdout_text, !run_text_lines.
    rewrite !(framer_lines_split _ _ Hb), !(framer_pending_split _ _ Hb).
    unfold decoded in Hc. rewrite Hc. reflexivity. }
  split; [apply A|].
  intro H. apply A. destruct (decoded_on_boundaries chunks H) as [E _].
  rewrite E. unfold decoded. simpl. rewrite app_nil_r. reflexivity.
Qed.

Lemma X4_stdout_chunking_witness :
  written
    (run_stdout false Json.parse
       [lit "{" ++ [DQ] ++ lit "a" ++ [DQ] ++ lit ":" ++ [DQ] ++ [226; 130; 172];
        [DQ] ++ lit "}" ++ [NL] ++ lit "[1"]
       two_sessions) 1
  = written two_sessions 1 ++
      [lit "event: message" ++ [NL]; lit "data: " ++ euro_line ++ [NL; NL]]
  /\ buffer
       (run_stdout false Json.parse
          [lit "{" ++ [DQ] ++ lit "a" ++ [DQ] ++ lit ":" ++ [DQ] ++ [226; 130; 172];
           [DQ] ++ lit "}" ++ [NL] ++ lit "[1"]
          two_sessions) = lit "[1".
Proof.
  destruct (X4_stdout_chunking_invariance false Json.parse
              [lit "{" ++ [DQ] ++ lit "a" ++ [DQ] ++ lit ":" ++ [DQ] ++ [226; 130; 172];
               [DQ] ++ lit "}" ++ [NL] ++ lit "[1"]
              [] two_sessions) as [_ H].
  - simpl. tauto.
  - rewrite (H eq_refl). split; vm_compute; reflexivity.
Defined.

(** X5.  In every state the adapter can reach, the pending fragment
    contains no newline: what the stdout handler keeps is always the
    unterminated tail of the child's output. *)
Theorem X5_pending_fragment_has_no_newline
    (DEBUG : bool) (JSON_parse : jsstring -> option JSValue) (st : State) :
  reachable DEBUG JSON_parse st -> ~ In NL (buffer st).
Proof.
  induction 1 as [|st st' Hr IH Hstep]; [simpl; tauto|].
  destruct Hstep.
  - destruct (on_stdout_text_frame DEBUG JSON_parse (toString chunk) st) as (_ & B & _).
    unfold on_stdout_data. rewrite B. unfold frame, pop. cbn [fst].
    apply split_last_no_sep.
  - destruct (get_sse_returns DEBUG sessionId st) as (st2 & R & _ & _ & _ & B & _).
    rewrite H0 in R. inversion R; subst st2. rewrite B. exact IH.
  - pose proof (on_ping_buffer res st) as B. rewrite H0 in B. cbn [state_of] in B.
    rewrite B. exact IH.
  - rewrite on_close_buffer. exact IH.
  - destruct (post_messages_frame DEBUG q body st) as (_ & _ & B).
    rewrite B. exact IH.
  - exact IH.
Qed.

Lemma X5_pending_fragment_witness :
  ~ In NL (buffer (on_stdout_data false Json.parse
                     (lit "{}" ++ [NL] ++ lit "[1") two_sessions)).
Proof.
  apply (X5_pending_fragment_has_no_newline false Json.parse).
  eapply reach_step; [apply two_sessions_reachable|]. apply step_stdout.
Defined.

(** X20.  For the chunks the child emits, each registered open response
    stream receives one [message] event per line of the decoded text that
    is not blank and parses as JSON, with the line as data, in the order
    of the lines; the text after the last newline stays pending, and the
    registry is left alone. *)
Theorem X20_broadcast_of_the_decoded_lines
    (DEBUG : bool) (JSON_parse : jsstring -> option JSValue)
    (st : State) (chunks : list (list N)) (sessionId : jsstring) (res : nat) :
  registry_wf st = true ->
  ~ In NL (buffer st) ->
  In (sessionId, res) (sessions st) ->
  writable st res = true ->
  written (run_stdout DEBUG JSON_parse chunks st) res =
    written st res ++ message_events JSON_parse (buffer st ++ decoded chunks)
  /\ buffer (run_stdout DEBUG JSON_parse chunks st) =
     unterminated_tail (buffer st ++ decoded chunks)
  /\ sessions (run_stdout DEBUG JSON_parse chunks st) = sessions st.
Proof.
  intros Hwf Hb Hin Hw.
  rewrite (run_stdout_delivers DEBUG JSON_parse chunks st sessionId res Hwf Hb Hin), Hw.
  destruct (run_stdout_frame DEBUG JSON_parse chunks st) as ((S1 & _) & B & _).
  split; [reflexivity|]. split; [exact (B Hb)|exact S1].
Qed.

Lemma X20_broadcast_witness :
  written
    (run_stdout false Json.parse
       [ping_message ++ [NL] ++ lit "[1"; lit ",2]" ++ [NL] ++ lit "oops" ++ [NL];
        lit "  " ++ [NL] ++ lit "{}" ++ [NL] ++ lit "{"]
       two_sessions) 1
  = written two_sessions 1 ++
      [lit "event: message" ++ [NL]; lit "data: " ++ ping_message ++ [NL; NL];
       lit "event: message" ++ [NL]; lit "data: [1,2]" ++ [NL; NL];
       lit "event: message" ++ [NL]; lit "data: {}" ++ [NL; NL]]
  /\ buffer
       (run_stdout false Json.parse
          [ping_message ++ [NL] ++ lit "[1"; lit ",2]" ++ [NL] ++ lit "oops" ++ [NL];
           lit "  " ++ [NL] ++ lit "{}" ++ [NL] ++ lit "{"]
          two_sessions) = lit "{".
Proof.
  destruct (X20_broadcast_of_the_decoded_lines false Json.parse two_sessions
              [ping_message ++ [NL] ++ lit "[1"; lit ",2]" ++ [NL] ++ lit "oops" ++ [NL];
               lit "  " ++ [NL] ++ lit "{}" ++ [NL] ++ lit "{"]
              id_b 1%nat) as (H1 & H2 & _).
  - vm_compute. reflexivity.
  - vm_compute. tauto.
  - right. left. reflexivity.
  - vm_compute. reflexivity.
  - split; [rewrite H1|rewrite H2]; vm_compute; reflexivity.
Defined.

(** X21.  The error log of the stdout handler lists, in order, the lines
    of the decoded text that are not blank and do not parse as JSON, and
    nothing else: with every registered response allocated the broadcast
    never throws, whether the streams are open or destroyed. *)
Theorem X21_error_log_lists_the_unparsable_lines
    (DEBUG : bool) (JSON_parse : jsstring -> option JSValue)
    (st : State) (chunks : list (list N)) :
  registry_wf st = true ->
  ~ In NL (buffer st) ->
  console_error (run_stdout DEBUG JSON_parse chunks st) =
  console_error st ++
    map invalid_json_message
      (filter (fun l => negb (whitespace_only l) && negb (valid_json JSON_parse l))
         (terminated_lines (buffer st ++ decoded chunks))).
Proof.
  intros Hwf Hb.
  rewrite run_stdout_text, run_text_lines.
  change (console_error (set_buffer ?b ?s)) with (console_error s).
  rewrite (process_lines_console_error DEBUG JSON_parse _ _
             (registry_wf_all_allocated st Hwf)).
  rewrite (framer_lines_split _ _ Hb), terminated_lines_split.
  f_equal. f_equal. apply filter_ext. intro l.
  rewrite nonblank_whitespace_only. reflexivity.
Qed.

Lemma X21_error_log_witness :
  console_error
    (run_stdout false Json.parse
       [lit "oops" ++ [NL] ++ lit "  " ++ [NL] ++ lit "{}" ++ [NL] ++ lit "[1"]
       first_stream_broken)
  = [lit "Targetly Adapter: Invalid JSON from child: oops"].
Proof.
  rewrite (X21_error_log_lists_the_unparsable_lines false Json.parse
             first_stream_broken).
  - vm_compute. reflexivity.
  - vm_compute. reflexivity.
  - vm_compute. tauto.
Defined.

(** ** Sessions over time *)

(** The response a GET to [/sse] has just created accepts writes. *)
Lemma get_sse_new_writable DEBUG sessionId st st' :
  get_sse DEBUG sessionId st = Returned st' ->
  writable st' (List.length (heap st)) = true.
Proof.
  unfold get_sse.
  set (res := List.length (heap st)).
  set (r3 := set_header _ _ (set_header _ _ (set_header _ _ _))).
  set (st3 := debug_log DEBUG _ _).
  assert (Hheap : heap st3 = heap st ++ [r3])
    by (unfold st3, debug_log; destruct DEBUG; reflexivity).
  assert (W3 : writable st3 res = true).
  { unfold writable. rewrite Hheap. unfold res. rewrite nth_error_fresh. reflexivity. }
  rewrite (res_write_writable _ _ _ W3). cbn [bind].
  rewrite res_write_writable by (rewrite writable_appended; exact W3). cbn [bind].
  intro E. inversion E; subst st'. clear E.
  match goal with
  | |- writable (set_intervals ?i ?s) ?h = true =>
      change (writable (set_intervals i s) h) with (writable s h)
  end.
  rewrite !writable_appended. exact W3.
Qed.

(** X7.  What the child emits while no session is registered reaches no
    response stream, and its complete lines are not kept: a session opened
    afterwards finds only its endpoint event on its stream.  The text after
    the last newline is kept, though: it is the beginning of the first line
    the new session can receive. *)
Theorem X7_output_without_sessions_is_dropped
    (DEBUG : bool) (JSON_parse : jsstring -> option JSValue)
    (chunks later : list (list N)) (sessionId : jsstring) (st : State) :
  sessions st = [] ->
  ~ In NL (buffer st) ->
  truthy sessionId = true ->
  (forall h, written (run_stdout DEBUG JSON_parse chunks st) h = written st h)
  /\ child_stdin (run_stdout DEBUG JSON_parse chunks st) = child_stdin st
  /\ buffer (run_stdout DEBUG JSON_parse chunks st) =
     unterminated_tail (buffer st ++ decoded chunks)
  /\ exists st',
       get_sse DEBUG sessionId (run_stdout DEBUG JSON_parse chunks st) = Returned st'
       /\ written st' (List.length (heap st)) =
          sse_event (lit "endpoint") (lit "/messages?session_id=" ++ sessionId)
       /\ written (run_stdout DEBUG JSON_parse later st') (List.length (heap st)) =
          sse_event (lit "endpoint") (lit "/messages?session_id=" ++ sessionId)
          ++ message_events JSON_parse
               (unterminated_tail (buffer st ++ decoded chunks) ++ decoded later).
Proof.
  intros Hs Hb Ht.
  destruct (run_stdout_frame DEBUG JSON_parse chunks st)
    as ((S1 & _ & C & L & _) & B & W).
  set (st1 := run_stdout DEBUG JSON_parse chunks st) in *.
  split; [|split; [|split]].
  - intro h. apply W. rewrite Hs. simpl. tauto.
  - exact C.
  - exact (B Hb).
  - destruct (get_sse_returns DEBUG sessionId st1)
      as (st' & R & S' & Wr & _ & B' & _).
    exists st'. split; [exact R|]. rewrite <- L. split; [exact Wr|].
    assert (Hwf1 : registry_wf st1 = true).
    { unfold registry_wf. rewrite S1, Hs. reflexivity. }
    pose proof (registry_wf_get_sse DEBUG sessionId st1 st' Ht Hwf1 R) as Hwf'.
    assert (Hin : In (sessionId, List.length (heap st1)) (sessions st')).
    { rewrite S', S1, Hs. left. reflexivity. }
    assert (Hb' : ~ In NL (buffer st')).
    { rewrite B', (B Hb). apply unterminated_tail_no_newline. }
    rewrite (run_stdout_delivers DEBUG JSON_parse later st' sessionId _ Hwf' Hb' Hin).
    rewrite (get_sse_new_writable DEBUG sessionId st1 st' R), Wr, B', (B Hb).
    reflexivity.
Qed.

Lemma X7_output_without_sessions_witness :
  exists st',
    get_sse false id_a
      (run_stdout false Json.parse [ping_message ++ [NL] ++ lit "[1"] initial)
      = Returned st'
    /\ written st' 0 =
       [lit "event: endpoint" ++ [NL];
        lit "data: /messages?session_id=" ++ id_a ++ [NL; NL]]
    /\ written (run_stdout false Json.parse [lit ",2]" ++ [NL]] st') 0 =
       [lit "event: endpoint" ++ [NL];
        lit "data: /messages?session_id=" ++ id_a ++ [NL; NL];
        lit "event: message" ++ [NL]; lit "data: [1,2]" ++ [NL; NL]].
Proof.
  destruct (X7_output_without_sessions_is_dropped false Json.parse
              [ping_message ++ [NL] ++ lit "[1"] [lit ",2]" ++ [NL]] id_a initial
              eq_refl (fun H => H) eq_refl) as (_ & _ & _ & st' & R & H1 & H2).
  exists st'. split; [exact R|]. split.
  - refine (eq_trans H1 _). vm_compute. reflexivity.
  - refine (eq_trans H2 _). vm_compute. reflexivity.
Defined.




Lemma map_delete_absent k m : map_has k m = false -> map_delete k m = m.
Proof.
  unfold map_has. induction m as [|[k' v] r IH]; simpl; [reflexivity|].
  destruct (str_eqb k k'); [discriminate|]. intro H. rewrite (IH H). reflexivity.
Qed.

Lemma filter_idem {A} (p : A -> bool) l : filter p (filter p l) = filter p l.
Proof.
  induction l as [|x r IH]; simpl; [reflexivity|].
  destruct (p x) eqn:E; simpl; [rewrite E, IH|]; auto.
Qed.

Lemma on_close_intervals DEBUG sessionId res st :
  intervals (on_close DEBUG sessionId res st)
  = filter (fun h => negb (Nat.eqb h res)) (intervals st).
Proof. unfold on_close, debug_log. destruct DEBUG; reflexivity. Qed.

(** X10.  Closing is safe to repeat and safe on an unknown session: a
    second close event for the same session changes neither the registry
    nor the timers, a close for an identifier that is not registered
    leaves the registry as it is, and after a close the keep-alive timer
    of the response is no longer set. *)
Theorem X10_close_is_idempotent
    (DEBUG : bool) (sessionId : jsstring) (res : nat) (st : State) :
  sessions (on_close DEBUG sessionId res (on_close DEBUG sessionId res st))
    = sessions (on_close DEBUG sessionId res st)
  /\ intervals (on_close DEBUG sessionId res (on_close DEBUG sessionId res st))
     = intervals (on_close DEBUG sessionId res st)
  /\ heap (on_close DEBUG sessionId res (on_close DEBUG sessionId res st)) = heap st
  /\ (map_has sessionId (sessions st) = false ->
      sessions (on_close DEBUG sessionId res st) = sessions st)
  /\ ~ In res (intervals (on_close DEBUG sessionId res st)).
Proof.
  split; [|split; [|split; [|split]]].
  - rewrite !on_close_sessions. apply map_delete_absent. apply map_has_delete.
  - rewrite !on_close_intervals. apply filter_idem.
  - rewrite !on_close_heap. reflexivity.
  - intro H. rewrite on_close_sessions. apply map_delete_absent. exact H.
  - rewrite on_close_intervals. intro Hin. apply filter_In in Hin as [_ Hne].
    rewrite Nat.eqb_refl in Hne. discriminate.
Qed.

Lemma X10_close_witness :
  sessions (on_close false (lit "no-such-session") 7 two_sessions)
  = sessions two_sessions.
Proof.
  destruct (X10_close_is_idempotent false (lit "no-such-session") 7 two_sessions)
    as (_ & _ & _ & H & _).
  apply H. vm_compute. reflexivity.
Defined.

Lemma map_set_absent k v m : map_has k m = false -> map_set k v m = m ++ [(k, v)].
Proof.
  unfold map_has. induction m as [|[k' v'] r IH]; simpl; [reflexivity|].
  destruct (str_eqb k k'); [discriminate|]. intro H. rewrite (IH H). reflexivity.
Qed.

(** X11.  Opening a session under an identifier that is not yet
    registered leaves the sessions already there as they are: the new
    entry comes last, every registered session keeps its response stream,
    nothing is written on those streams, and the registry stays well
    formed. *)
Theorem X11_new_session_leaves_others_alone
    (DEBUG : bool) (sessionId : jsstring) (st : State) :
  registry_wf st = true ->
  truthy sessionId = true ->
  map_has sessionId (sessions st) = false ->
  exists st',
    get_sse DEBUG sessionId st = Returned st'
    /\ sessions st' = sessions st ++ [(sessionId, List.length (heap st))]
    /\ registry_wf st' = true
    /\ (forall other res, In (other, res) (sessions st) ->
          map_get other (sessions st') = map_get other (sessions st)
          /\ written st' res = written st res
          /\ writable st' res = writable st res).
Proof.
  intros Hwf Ht Hfresh.
  destruct (get_sse_returns DEBUG sessionId st) as (st' & R & S & _ & _ & _ & _ & _ & W).
  exists st'. split; [exact R|].
  rewrite S, (map_set_absent _ _ _ Hfresh).
  split; [reflexivity|].
  split; [exact (registry_wf_get_sse DEBUG sessionId st st' Ht Hwf R)|].
  intros other res Hin.
  apply registry_wf_iff in Hwf as (_ & _ & _ & B).
  split.
  - assert (Hhas : map_has other (sessions st) = true) by exact (in_map_has _ _ _ Hin).
    unfold map_has in Hhas. clear - Hhas.
    induction (sessions st) as [|[k v] r IH]; simpl in *; [discriminate|].
    destruct (str_eqb other k); [reflexivity|]. exact (IH Hhas).
  - apply W. apply B. apply (in_map snd) in Hin. exact Hin.
Qed.

Lemma X11_new_session_witness :
  exists st',
    get_sse false (lit "c0ffee00-0000-4000-8000-000000000001") two_sessions
      = Returned st'
    /\ written st' 0 = written two_sessions 0
    /\ written st' 1 = written two_sessions 1.
Proof.
  destruct (X11_new_session_leaves_others_alone false
              (lit "c0ffee00-0000-4000-8000-000000000001") two_sessions)
    as (st' & R & _ & _ & H); try (vm_compute; reflexivity).
  exists st'. split; [exact R|]. split.
  - apply (H id_a 0%nat). left. reflexivity.
  - apply (H id_b 1%nat). right. left. reflexivity.
Defined.

(** ** The POST path as a whole *)

(** X13.  A POST never touches the SSE side: whatever the request, the
    registry, the response streams, the timers and the pending fragment
    are as before.  The child's stdin grows by exactly one newline-ended
    chunk when the handler accepts the request, which it answers with
    202, and not at all otherwise: when the handler answers 400 or a body
    parser has refused the request before it. *)
Theorem X13_post_only_writes_to_the_child
    (DEBUG : bool) (JSON_parse : jsstring -> option JSValue) (unread_body : JSValue)
    (q : QueryVal) (req : PostRequest) (st : State) :
  sessions (fst (post_request DEBUG JSON_parse unread_body q req st)) = sessions st
  /\ heap (fst (post_request DEBUG JSON_parse unread_body q req st)) = heap st
  /\ intervals (fst (post_request DEBUG JSON_parse unread_body q req st)) = intervals st
  /\ buffer (fst (post_request DEBUG JSON_parse unread_body q req st)) = buffer st
  /\ ((snd (post_request DEBUG JSON_parse unread_body q req st)
       = Handled (mkHttpResponse 202 (lit "Accepted"))
       /\ exists text,
            child_stdin (fst (post_request DEBUG JSON_parse unread_body q req st))
            = child_stdin st ++ [text ++ [NL]])
      \/ (result_status (snd (post_request DEBUG JSON_parse unread_body q req st)) <> 202
          /\ child_stdin (fst (post_request DEBUG JSON_parse unread_body q req st))
             = child_stdin st)).
Proof.
  unfold post_request.
  destruct (read_body JSON_parse unread_body req) as [code|v] eqn:E.
  - cbn [fst snd result_status]. repeat split. right. split; [|reflexivity].
    destruct (read_body_rejects _ _ _ _ E) as [-> | [-> | ->]]; discriminate.
  - unfold post_messages.
    destruct (query_falsy q || negb (sessions_has q (sessions st)));
      cbn [fst snd result_status status];
      unfold debug_log; destruct DEBUG; cbn;
      repeat split; try (right; split; [discriminate|reflexivity]);
      left; (split; [reflexivity|eexists; reflexivity]).
Qed.

Section PostRuns.

Variable DEBUG : bool.



End PostRuns.


(** ** The debug flag *)

Lemma with_log_self st : with_log (console_log st) st = st.
Proof. destruct st. reflexivity. Qed.

Lemma with_log_debug_log d l msg st : with_log l (debug_log d msg st) = with_log l st.
Proof. unfold debug_log. destruct d; reflexivity. Qed.

Lemma debug_log_with_log d l msg st :
  debug_log d msg (with_log l st) = with_log (console_log (debug_log d msg (with_log l st))) st.
Proof. unfold debug_log. destruct d; reflexivity. Qed.

Lemma debug_log_as_with_log d msg st :
  debug_log d msg st = with_log (console_log (debug_log d msg st)) st.
Proof. unfold debug_log. destruct d, st; reflexivity. Qed.

Lemma res_write_with_log l h d st :
  res_write h d (with_log l st) = outcome_map (with_log l) (res_write h d st).
Proof.
  unfold res_write. simpl.
  destruct (nth_error (heap st) h) as [r|]; [|reflexivity].
  destruct (res_mode r); reflexivity.
Qed.

(** The broadcast loop writes the same on the streams with and without
    debug logging. *)
Lemma dispatch_debug line : forall entries d d' l l0 st,
  outcome_map (with_log l) (dispatch d line entries (with_log l0 st)) =
  outcome_map (with_log l) (dispatch d' line entries st).
Proof.
  induction entries as [|[sid h] rest IH]; intros d d' l l0 st; [reflexivity|].
  cbn [dispatch]. rewrite res_write_with_log.
  destruct (res_write h (lit "event: message" ++ [NL]) st) as [st1|st1];
    [|reflexivity].
  cbn [bind outcome_map]. rewrite res_write_with_log.
  destruct (res_write h (lit "data: " ++ line ++ [NL; NL]) st1) as [st2|st2];
    [|reflexivity].
  cbn [bind outcome_map].
  rewrite debug_log_with_log.
  rewrite (IH d d' l _ st2).
  rewrite (debug_log_as_with_log d'
             (lit "Targetly Adapter: Dispatched to session " ++ sid) st2).
  symmetry. apply IH.
Qed.

Section DebugFacts.

Variable JSON_parse : jsstring -> option JSValue.

Lemma process_line_debug d d' l l0 line st :
  with_log l (process_line d JSON_parse line (with_log l0 st)) =
  with_log l (process_line d' JSON_parse line st).
Proof.
  destruct (nonblank line) eqn:Hb.
  2:{ rewrite !(process_line_blank _ _ _ _ Hb). reflexivity. }
  rewrite !(process_line_nonblank _ _ _ _ Hb).
  destruct (JSON_parse line); [|reflexivity].
  change (sessions (with_log l0 st)) with (sessions st).
  assert (Hf : forall o,
             with_log l (match o with
                         | Returned s => s
                         | Thrown s => log_error (invalid_json_message line) s
                         end)
             = match outcome_map (with_log l) o with
               | Returned s => s
               | Thrown s => log_error (invalid_json_message line) s
               end) by (intros [s|s]; reflexivity).
  rewrite !Hf.
  rewrite debug_log_with_log.
  rewrite (dispatch_debug line (sessions st) d d' l _ st).
  rewrite (debug_log_as_with_log d' (lit "Targetly Adapter: OUTGOING: " ++ line) st).
  rewrite (dispatch_debug line (sessions st) d' d' l _ st).
  reflexivity.
Qed.

Lemma process_lines_debug d d' lines : forall l l0 st,
  with_log l (process_lines d JSON_parse lines (with_log l0 st)) =
  with_log l (process_lines d' JSON_parse lines st).
Proof.
  induction lines as [|line rest IH]; intros l l0 st; [reflexivity|].
  unfold process_lines in *. simpl fold_left.
  rewrite <- (with_log_self (process_line d JSON_parse line (with_log l0 st))).
  rewrite (process_line_debug d d' _ l0 line st).
  apply IH.
Qed.

Lemma on_stdout_data_debug d d' l l0 chunk st :
  with_log l (on_stdout_data d JSON_parse chunk (with_log l0 st)) =
  with_log l (on_stdout_data d' JSON_parse chunk st).
Proof.
  unfold on_stdout_data. rewrite !on_stdout_text_frames.
  change (buffer (with_log l0 st)) with (buffer st).
  apply (process_lines_debug d d' _ l l0
           (set_buffer (fst (frame (buffer st) (toString chunk))) st)).
Qed.

Lemma run_stdout_debug d d' chunks : forall l l0 st,
  with_log l (run_stdout d JSON_parse chunks (with_log l0 st)) =
  with_log l (run_stdout d' JSON_parse chunks st).
Proof.
  induction chunks as [|chunk rest IH]; intros l l0 st; [reflexivity|].
  change (run_stdout ?b JSON_parse (chunk :: rest) ?s)
    with (run_stdout b JSON_parse rest (on_stdout_data b JSON_parse chunk s)).
  rewrite <- (with_log_self (on_stdout_data d JSON_parse chunk (with_log l0 st))).
  rewrite (on_stdout_data_debug d d' _ l0 chunk st).
  apply IH.
Qed.

End DebugFacts.

(** X15.  The debug flag changes what goes to console.log and nothing
    else: with any two settings of the flag the stdout handler, the GET,
    close and POST handlers leave the same streams, registry, timers,
    pending fragment, child stdin and error log, and a POST gets the same
    answer. *)
Theorem X15_debug_flag_only_affects_the_log
    (d d' : bool) (JSON_parse : jsstring -> option JSValue) (st : State) :
  (forall chunks,
     with_log [] (run_stdout d JSON_parse chunks st)
     = with_log [] (run_stdout d' JSON_parse chunks st))
  /\ (forall sessionId,
        outcome_map (with_log []) (get_sse d sessionId st)
        = outcome_map (with_log []) (get_sse d' sessionId st))
  /\ (forall sessionId res,
        with_log [] (on_close d sessionId res st)
        = with_log [] (on_close d' sessionId res st))
  /\ (forall q body,
        with_log [] (fst (post_messages d q body st))
        = with_log [] (fst (post_messages d' q body st))
        /\ snd (post_messages d q body st) = snd (post_messages d' q body st)).
Proof.
  split; [|split; [|split]].
  - intro chunks.
    rewrite <- (run_stdout_debug JSON_parse d d' chunks [] (console_log st) st).
    rewrite with_log_self. reflexivity.
  - intro sessionId. unfold get_sse.
    set (st2 := set_sessions _ _).
    rewrite (debug_log_as_with_log d _ st2), (debug_log_as_with_log d' _ st2).
    rewrite !res_write_with_log.
    destruct (res_write (List.length (heap st)) (lit "event: endpoint" ++ [NL]) st2)
      as [st4|st4]; [|reflexivity].
    cbn [bind outcome_map]. rewrite !res_write_with_log.
    destruct (res_write (List.length (heap st))
                (lit "data: /messages?session_id=" ++ sessionId ++ [NL; NL]) st4)
      as [st5|st5]; reflexivity.
  - intros sessionId res. unfold on_close. rewrite !with_log_debug_log. reflexivity.
  - intros q body. unfold post_messages.
    destruct (query_falsy q || negb (sessions_has q (sessions st))); cbn [fst snd].
    + rewrite !with_log_debug_log. split; reflexivity.
    + split; [|reflexivity].
      unfold debug_log. destruct d, d'; reflexivity.
Qed.

(** X16.  In every state the adapter can reach, the registry holds each
    session identifier once, no identifier is empty, no two sessions share
    a response stream, and every registered stream has been allocated. *)
Theorem X16_registry_stays_well_formed
    (DEBUG : bool) (JSON_parse : jsstring -> option JSValue) (st : State) :
  reachable DEBUG JSON_parse st ->
  NoDup (map fst (sessions st))
  /\ (forall k, In k (map fst (sessions st)) -> k <> [])
  /\ NoDup (map snd (sessions st))
  /\ (forall h, In h (map snd (sessions st)) -> (h < List.length (heap st))%nat).
Proof.
  intro Hr. apply reachable_registry_wf in Hr.
  apply registry_wf_iff in Hr as (K & T & H & B).
  repeat split; try assumption.
  intros k Hk ->. specialize (T _ Hk). discriminate.
Qed.

Lemma X16_registry_witness :
  NoDup (map fst (sessions first_stream_broken))
  /\ (forall k, In k (map fst (sessions first_stream_broken)) -> k <> [])
  /\ NoDup (map snd (sessions first_stream_broken))
  /\ (forall h, In h (map snd (sessions first_stream_broken)) ->
                (h < List.length (heap first_stream_broken))%nat).
Proof.
  apply (X16_registry_stays_well_formed false Json.parse).
  apply first_stream_broken_reachable.
Defined.

(** ** Start-up of the earlier variants *)

Lemma find_possible_paths (e : Env) :
  find (launchable e) POSSIBLE_PATHS = find (existsSync e) POSSIBLE_PATHS.
Proof. reflexivity. Qed.

Lemma find_possible_paths_truthy (e : Env) s :
  find (existsSync e) POSSIBLE_PATHS = Some s -> truthy s = true.
Proof.
  intro H. apply find_some in H as [H _].
  unfold POSSIBLE_PATHS in H. simpl in H.
  destruct H as [<-|[<-|[<-|[<-|[]]]]]; reflexivity.
Qed.

(** The detected script is the first launchable one among the configured
    script and the proposals of package.json, when there is one. *)
Lemma find_detected_script (e : Env) (argv : list jsstring) :
  find (launchable e)
    (of_option (js_or (TARGETLY_MCP_SERVER_SCRIPT e) (hd_error argv))
     ++ package_candidates e)
  = if usable e (detected_script e argv) then detected_script e argv else None.
Proof.
  unfold detected_script.
  set (s0 := js_or (TARGETLY_MCP_SERVER_SCRIPT e) (hd_error argv)).
  destruct (usable e s0) eqn:U0.
  - simpl negb. cbv iota. rewrite U0.
    apply (find_at_usable e s0 _ _ (find_of_option e s0) U0).
  - simpl negb. cbv iota.
    rewrite (find_after_unusable e s0 _ _ (find_of_option e s0) U0).
    apply (find_package_candidates e s0 U0).
Qed.

(** X17.  The first earlier variant launches node on the first candidate
    that is a non-empty name of an existing file, in the order: configured
    script, [bin] and [main] of package.json, ./build/index.js,
    ./dist/index.js, ./src/index.js, ./index.js (build before dist, unlike
    the current adapter), followed by the command-line arguments for the
    server; it exits with code 1 when there is none. *)
Theorem X17_first_variant_launch (e : Env) (argv : list jsstring) :
  first_variant_launch e argv =
  match find (launchable e) (variant_candidates e argv) with
  | Some s => Spawn (lit "node") (s :: extra_args e argv)
  | None =>
      ExitWith 1 (lit "Targetly Adapter Error: Could not find MCP server entrypoint.")
  end.
Proof.
  unfold first_variant_launch, variant_candidates.
  pose proof (find_detected_script e argv) as Hd.
  rewrite app_assoc.
  destruct (usable e (detected_script e argv)) eqn:U.
  - simpl negb. cbv iota.
    rewrite (find_at_usable e (detected_script e argv) _ _)
      by first [exact U | rewrite U; exact Hd].
    reflexivity.
  - simpl negb. cbv iota.
    rewrite (find_after_unusable e (detected_script e argv) _ _)
      by first [exact U | rewrite U; exact Hd].
    rewrite find_possible_paths.
    destruct (find (existsSync e) POSSIBLE_PATHS) as [s|] eqn:F; [|reflexivity].
    apply find_possible_paths_truthy in F. destruct s; [discriminate|reflexivity].
Qed.

(** X18.  In the second earlier variant a command override is split at
    spaces into the command and its arguments, and all command-line
    arguments of the adapter are appended to them; no script is looked
    for. *)
Theorem X18_second_variant_command_override
    (e : Env) (argv : list jsstring) (cmd : jsstring) :
  TARGETLY_MCP_CMD e = Some cmd ->
  truthy cmd = true ->
  exists command pieces,
    second_variant_launch e argv = Spawn command (pieces ++ argv)
    /\ join [32] (command :: pieces) = cmd
    /\ ~ In 32 command
    /\ (forall a, In a pieces -> ~ In 32 a).
Proof.
  intros Hc Ht. unfold second_variant_launch. rewrite Hc.
  destruct cmd as [|c r]; [discriminate|].
  pose proof (join_split 32 (c :: r)) as Hj.
  pose proof (split_segments_no_sep 32 (c :: r)) as Hs.
  pose proof (split_nonempty 32 (c :: r)) as Hne.
  destruct (split 32 (c :: r)) as [|x xs]; [contradiction|].
  exists x, xs. cbn [hd tl].
  split; [reflexivity|]. split; [exact Hj|].
  split; [apply Hs; left; reflexivity|].
  intros a Ha. apply Hs. right. exact Ha.
Qed.

Lemma X18_second_variant_witness :
  exists command pieces,
    second_variant_launch sample_env_cmd sample_argv
    = Spawn command (pieces ++ sample_argv)
    /\ join [32] (command :: pieces) = lit "npx -y @modelcontextprotocol/server-memory".
Proof.
  destruct (X18_second_variant_command_override sample_env_cmd sample_argv
              (lit "npx -y @modelcontextprotocol/server-memory") eq_refl eq_refl)
    as (command & pieces & H1 & H2 & _).
  exists command, pieces. split; assumption.
Defined.

(** X19.  Without a command override the second earlier variant launches
    node on the first launchable candidate, in the same order as the
    first variant; but when no candidate is launchable it does not give
    up if a script was detected: it launches node on that script, which
    does not exist, and exits with code 1 only when no script name was
    found at all. *)
Theorem X19_second_variant_script
    (e : Env) (argv : list jsstring) :
  opt_truthy (TARGETLY_MCP_CMD e) = false ->
  second_variant_launch e argv =
  match find (launchable e) (variant_candidates e argv) with
  | Some s => Spawn (lit "node") (s :: extra_args e argv)
  | None =>
      match detected_script e argv with
      | Some (c :: s) => Spawn (lit "node") ((c :: s) :: extra_args e argv)
      | _ =>
          ExitWith 1
            (lit "Targetly Adapter Error: No server script specified via TARGETLY_MCP_SERVER_SCRIPT, TARGETLY_MCP_CMD or command line.")
      end
  end.
Proof.
  intro Hc. unfold second_variant_launch, variant_candidates.
  rewrite Hc. simpl negb. cbv iota.
  replace (match TARGETLY_MCP_CMD e with
           | Some (c :: cmd) =>
               Spawn (hd [] (split 32 (c :: cmd))) (tl (split 32 (c :: cmd)) ++ argv)
           | _ =>
               match
                 (if negb (usable e (detected_script e argv))
                  then match find (existsSync e) POSSIBLE_PATHS with
                       | Some (c :: found) => Some (c :: found)
                       | _ => detected_script e argv
                       end
                  else detected_script e argv)
               with
               | Some (c :: s) => Spawn (lit "node") ((c :: s) :: extra_args e argv)
               | _ =>
                   ExitWith 1
                     (lit "Targetly Adapter Error: No server script specified via TARGETLY_MCP_SERVER_SCRIPT, TARGETLY_MCP_CMD or command line.")
               end
           end)
    with (match
            (if negb (usable e (detected_script e argv))
             then match find (existsSync e) POSSIBLE_PATHS with
                  | Some (c :: found) => Some (c :: found)
                  | _ => detected_script e argv
                  end
             else detected_script e argv)
          with
          | Some (c :: s) => Spawn (lit "node") ((c :: s) :: extra_args e argv)
          | _ =>
              ExitWith 1
                (lit "Targetly Adapter Error: No server script specified via TARGETLY_MCP_SERVER_SCRIPT, TARGETLY_MCP_CMD or command line.")
          end)
    by (destruct (TARGETLY_MCP_CMD e) as [[|c cmd]|]; try reflexivity; discriminate).
  pose proof (find_detected_script e argv) as Hd.
  rewrite app_assoc.
  destruct (usable e (detected_script e argv)) eqn:U.
  - simpl negb. cbv iota.
    rewrite (find_at_usable e (detected_script e argv) _ _)
      by first [exact U | rewrite U; exact Hd].
    destruct (detected_script e argv) as [[|c s]|]; try discriminate. reflexivity.
  - simpl negb. cbv iota.
    rewrite (find_after_unusable e (detected_script e argv) _ _)
      by first [exact U | rewrite U; exact Hd].
    rewrite find_possible_paths.
    destruct (find (existsSync e) POSSIBLE_PATHS) as [s|] eqn:F; [|reflexivity].
    apply find_possible_paths_truthy in F. destruct s; [discriminate|reflexivity].
Qed.

Lemma X19_second_variant_witness :
  second_variant_launch sample_variant_env sample_argv
  = Spawn (lit "node") [lit "./dist/index.js"; lit "--port"; lit "9000"].
Proof.
  rewrite (X19_second_variant_script sample_variant_env sample_argv eq_refl).
  vm_compute. reflexivity.
Defined.
